(** * evalit.rclone.rclone_automation: the rclone backend and its log parser

    A shallow embedding of [RcloneAutomation] (src/evalit/rclone/
    rclone_automation.py): the log scanner [parse_log], which rebuilds one
    [TransferDTO] per file from the lines of an rclone debug log, and
    [run_automation], which writes a temporary rclone configuration, runs
    the external command and parses the log it produced.

    Conventions of the embedding.
    - A Python [str] is a Rocq [string]; every character is a code point
      below 256.  On that range [isspace] and the regular-expression classes
      [\s] and [\d] are exactly the predicates defined below.
    - A Python exception is a value of [Exn]; a computation that may raise
      returns [Exn + A], with [inl e] for "raised e".
    - Calls to [logger] and [time.time] only feed log messages and are left
      out. *)

From Stdlib Require Import ZArith Ascii String DecimalString.
From stdpp Require Import gmap strings list fin_maps.

Local Open Scope Z_scope.

(** ** Exceptions and results *)

Inductive Exn : Type :=
  | KeyError (key : string)
  | IndexError
  | ValueError
  | FileNotFoundError
  | FileExistsError
  | OtherError (msg : string).

Definition Res (A : Type) : Type := (Exn + A)%type.

Definition raise {A} (e : Exn) : Res A := inl e.
Definition ok {A} (a : A) : Res A := inr a.

Definition rbind {A B} (x : Res A) (f : A → Res B) : Res B :=
  match x with
  | inl e => inl e
  | inr a => f a
  end.

Notation "'try!' x := c 'in' k" := (rbind c (fun x => k))
  (at level 10, x name, c at level 100, k at level 200, only parsing).

Definition raised {A} (x : Res A) : bool :=
  match x with inl _ => true | inr _ => false end.

(** ** The [str] methods used by the parser *)

Module Str.

Definition len (s : string) : nat := String.length s.

(** [c.isspace()] for a code point below 256: TAB..CR, FS..US, SPACE,
    NEL (0x85) and NBSP (0xa0). *)
Definition isspace (c : ascii) : bool :=
  let n := nat_of_ascii c in
  ((9 <=? n) && (n <=? 13) || (28 <=? n) && (n <=? 32)
   || (n =? 133) || (n =? 160))%nat.

(** The class [\d]; below 256 the only decimal digits are 0..9. *)
Definition isdigit (c : ascii) : bool :=
  let n := nat_of_ascii c in ((48 <=? n) && (n <=? 57))%nat.

(** [s.startswith(p)] *)
Fixpoint startswith (p s : string) : bool :=
  match p, s with
  | EmptyString, _ => true
  | String a p', String b s' => if Ascii.eqb a b then startswith p' s' else false
  | String _ _, EmptyString => false
  end.

(** [s.find(sub)]: the lowest index at which [sub] occurs, or -1. *)
Fixpoint find_from (sub s : string) (i : Z) : Z :=
  if startswith sub s then i
  else match s with
       | EmptyString => -1
       | String _ s' => find_from sub s' (i + 1)
       end.

Definition find (s sub : string) : Z := find_from sub s 0.

Fixpoint rev_onto (acc s : string) : string :=
  match s with
  | EmptyString => acc
  | String c s' => rev_onto (String c acc) s'
  end.

Definition rev (s : string) : string := rev_onto EmptyString s.

(** [s.split(sep)] for a non-empty separator: cut at every occurrence
    found scanning left to right, occurrences do not overlap.  [skip]
    counts the characters of a separator still to be passed over, [cur]
    holds the field being read, reversed. *)
Fixpoint split_aux (sep : string) (skip : nat) (cur s : string) : list string :=
  match s with
  | EmptyString => [rev cur]
  | String c s' =>
      match skip with
      | S k => split_aux sep k cur s'
      | O =>
          if startswith sep s
          then rev cur :: split_aux sep (len sep - 1) EmptyString s'
          else split_aux sep O (String c cur) s'
      end
  end.

Definition split (s sep : string) : list string := split_aux sep O EmptyString s.

(** [l[i]] on a list, raising [IndexError] out of range. *)
Definition getitem {A} (l : list A) (i : nat) : Res A :=
  match l !! i with
  | Some x => ok x
  | None => raise IndexError
  end.

Fixpoint lstrip (s : string) : string :=
  match s with
  | EmptyString => EmptyString
  | String c s' => if isspace c then lstrip s' else s
  end.

Fixpoint rstrip (s : string) : string :=
  match s with
  | EmptyString => EmptyString
  | String c s' =>
      match rstrip s' with
      | EmptyString => if isspace c then EmptyString else String c EmptyString
      | r => String c r
      end
  end.

(** [s.strip()] *)
Definition strip (s : string) : string := rstrip (lstrip s).

(** Iterating a text stream: the lines of the text, each with its
    terminating newline (the last one possibly without). *)
Fixpoint lines_aux (cur s : string) : list string :=
  match s with
  | EmptyString =>
      match cur with
      | EmptyString => []
      | _ => [rev cur]
      end
  | String c s' =>
      if Ascii.eqb c "010"%char
      then rev (String c cur) :: lines_aux EmptyString s'
      else lines_aux (String c cur) s'
  end.

Definition lines (s : string) : list string := lines_aux EmptyString s.

(** [s[n:]] *)
Fixpoint drop (n : nat) (s : string) : string :=
  match n, s with
  | O, _ => s
  | S _, EmptyString => EmptyString
  | S k, String _ s' => drop k s'
  end.

End Str.

(** ** [datetime.strptime(s, "%Y/%m/%d %H:%M:%S")]

    [_strptime] turns the format into the regular expression

      (?P<Y>\d\d\d\d)/(?P<m>1[0-2]|0[1-9]|[1-9])/
      (?P<d>3[0-1]|[1-2]\d|0[1-9]|[1-9]| [1-9])\s+
      (?P<H>2[0-3]|[0-1]\d|\d):(?P<M>[0-5]\d|\d):(?P<S>6[0-1]|[0-5]\d|\d)

    matches it at the start of the string, raises [ValueError] when there is
    no match or when text remains after the match, converts the groups with
    [int] and builds the [datetime], whose constructor raises [ValueError]
    for a year, day or second out of range.

    A matcher returns every way of matching a prefix of its input, in the
    order in which the backtracking engine tries them; [re.match] is the
    first element of that list. *)

Record datetime : Type := mk_datetime {
  year : Z; month : Z; day : Z; hour : Z; minute : Z; second : Z
}.

Module Strptime.

Definition Matcher (A : Type) : Type := string → list (A * string).

Definition pure {A} (a : A) : Matcher A := fun s => [(a, s)].

Definition seq {A B} (m : Matcher A) (k : A → Matcher B) : Matcher B :=
  fun s => flat_map (fun '(a, rest) => k a rest) (m s).

Definition alt {A} (m1 m2 : Matcher A) : Matcher A :=
  fun s => m1 s ++ m2 s.

(** One character satisfying [p]; the matched text is returned. *)
Definition one (p : ascii → bool) : Matcher string :=
  fun s =>
    match s with
    | String c s' => if p c then [(String c EmptyString, s')] else []
    | EmptyString => []
    end.

Definition lit (c : ascii) : Matcher string := one (Ascii.eqb c).

(** The class [[a-b]]. *)
Definition range (a b : ascii) : Matcher string :=
  one (fun c => (nat_of_ascii a <=? nat_of_ascii c)%nat
                && (nat_of_ascii c <=? nat_of_ascii b)%nat).

Definition digit : Matcher string := one Str.isdigit.

(** Two matchers in sequence, their texts concatenated. *)
Definition cat (m1 m2 : Matcher string) : Matcher string :=
  seq m1 (fun a => seq m2 (fun b => pure (a +:+ b))).

(** [\s+], greedy: the longest run first, then shorter ones. *)
Fixpoint spaces (s : string) : list (unit * string) :=
  match s with
  | String c s' => if Str.isspace c then spaces s' ++ [(tt, s')] else []
  | EmptyString => []
  end.

Definition re_Y : Matcher string := cat digit (cat digit (cat digit digit)).
Definition re_m : Matcher string :=
  alt (cat (lit "1") (range "0" "2"))
    (alt (cat (lit "0") (range "1" "9")) (range "1" "9")).
Definition re_d : Matcher string :=
  alt (cat (lit "3") (range "0" "1"))
    (alt (cat (range "1" "2") digit)
       (alt (cat (lit "0") (range "1" "9"))
          (alt (range "1" "9") (cat (lit " ") (range "1" "9"))))).
Definition re_H : Matcher string :=
  alt (cat (lit "2") (range "0" "3"))
    (alt (cat (range "0" "1") digit) digit).
Definition re_M : Matcher string :=
  alt (cat (range "0" "5") digit) digit.
Definition re_S : Matcher string :=
  alt (cat (lit "6") (range "0" "1"))
    (alt (cat (range "0" "5") digit) digit).

(** The groups Y, m, d, H, M, S of a match. *)
Definition Groups : Type := (string * string * string * string * string * string)%type.

Definition format_regex : Matcher Groups :=
  seq re_Y (fun gY => seq (lit "/") (fun _ =>
  seq re_m (fun gm => seq (lit "/") (fun _ =>
  seq re_d (fun gd => seq spaces (fun _ =>
  seq re_H (fun gH => seq (lit ":") (fun _ =>
  seq re_M (fun gM => seq (lit ":") (fun _ =>
  seq re_S (fun gS => pure (gY, gm, gd, gH, gM, gS)))))))))))).

(** [int(s)] on the text of a group: surrounding white space is dropped,
    the rest is read in base ten. *)
Fixpoint int_digits (acc : Z) (s : string) : Z :=
  match s with
  | EmptyString => acc
  | String c s' => int_digits (10 * acc + (Z.of_nat (nat_of_ascii c) - 48)) s'
  end.

Definition int (s : string) : Z := int_digits 0 (Str.strip s).

Definition is_leap (y : Z) : bool :=
  (y mod 4 =? 0) && (negb (y mod 100 =? 0) || (y mod 400 =? 0)).

Definition days_in_month (y m : Z) : Z :=
  if m =? 2 then (if is_leap y then 29 else 28)
  else if (m =? 4) || (m =? 6) || (m =? 9) || (m =? 11) then 30
  else 31.

(** The range checks of the [datetime] constructor. *)
Definition valid (t : datetime) : bool :=
  (1 <=? year t) && (year t <=? 9999)
  && (1 <=? month t) && (month t <=? 12)
  && (1 <=? day t) && (day t <=? days_in_month (year t) (month t))
  && (0 <=? hour t) && (hour t <=? 23)
  && (0 <=? minute t) && (minute t <=? 59)
  && (0 <=? second t) && (second t <=? 59).

Definition of_groups (g : Groups) : datetime :=
  let '(gY, gm, gd, gH, gM, gS) := g in
  mk_datetime (int gY) (int gm) (int gd) (int gH) (int gM) (int gS).

(** [None] stands for the [ValueError] of [strptime]. *)
Definition strptime (s : string) : option datetime :=
  match format_regex s with
  | [] => None
  | (g, rest) :: _ =>
      match rest with
      | EmptyString => if valid (of_groups g) then Some (of_groups g) else None
      | String _ _ => None
      end
  end.

End Strptime.

Definition strptime (s : string) : Res datetime :=
  match Strptime.strptime s with
  | Some t => ok t
  | None => raise ValueError
  end.


(** ** Transfer records *)

(** Modelled from the spec: the class [TransferDTO] of [evalit.structures],
    which is not part of the sources at hand.  The spec's Transfer Record
    holds the identity of the file, the name of the backend and two optional
    timestamps; the field names are the ones [parse_log] uses, and a record
    built from [fname] and [transferer] alone has both timestamps unset. *)
Record TransferDTO : Type := mk_dto {
  fname : string;
  transferer : string;
  start_time : option datetime;
  end_time : option datetime
}.

Definition new_dto (fname transferer : string) : TransferDTO :=
  mk_dto fname transferer None None.

Definition set_start_time (d : TransferDTO) (t : datetime) : TransferDTO :=
  mk_dto (fname d) (transferer d) (Some t) (end_time d).

Definition set_end_time (d : TransferDTO) (t : datetime) : TransferDTO :=
  mk_dto (fname d) (transferer d) (start_time d) (Some t).

(** ** The dictionary [timekeeper]

    A Python [dict] keeps its keys in the order of their first insertion,
    and [values()] follows that order: the dictionary is an association
    list with one entry per key. *)
Module Dict.

Definition t : Type := list (string * TransferDTO).

Definition empty : t := [].

Fixpoint lookup (d : t) (k : string) : option TransferDTO :=
  match d with
  | [] => None
  | (k', v) :: d' => if String.eqb k' k then Some v else lookup d' k
  end.

(** [d.get(k, default)] *)
Definition get (d : t) (k : string) (default : TransferDTO) : TransferDTO :=
  match lookup d k with
  | Some v => v
  | None => default
  end.

(** [d[k] = v]: an existing key keeps its place, a new key goes last. *)
Fixpoint set (d : t) (k : string) (v : TransferDTO) : t :=
  match d with
  | [] => [(k, v)]
  | (k', v') :: d' =>
      if String.eqb k' k then (k', v) :: d' else (k', v') :: set d' k v
  end.

Definition keys (d : t) : list string := map fst d.
Definition values (d : t) : list TransferDTO := map snd d.

End Dict.

(** ** Text streams and the file system *)

(** An open text stream: the name of its file, the text it yields when
    read from the start, and the read position. *)
Record TextIO : Type := mk_textio {
  name : string;
  text : string;
  position : nat
}.

(** The text a file yields when it is read in text mode with the default
    [newline=None], as [open(path)] and [NamedTemporaryFile(mode="w+")]
    read it: a carriage return, alone or followed by a line feed, reads as
    one line feed. *)
Fixpoint universal_newlines (s : string) : string :=
  match s with
  | EmptyString => EmptyString
  | String c s' =>
      if Ascii.eqb c "013"
      then String "010"
             match s' with
             | EmptyString => EmptyString
             | String c' s'' =>
                 if Ascii.eqb c' "010" then universal_newlines s''
                 else universal_newlines s'
             end
      else String c (universal_newlines s')
  end.

(** [open(path)] for reading, on a file system mapping paths to contents. *)
Definition open (fs : gmap string string) (path : string) : Res TextIO :=
  match fs !! path with
  | Some content => ok (mk_textio path (universal_newlines content) 0)
  | None => raise FileNotFoundError
  end.

Definition seek (f : TextIO) (offset : nat) : TextIO :=
  mk_textio (name f) (text f) offset.

(** [for line in f] *)
Definition readlines (f : TextIO) : list string :=
  Str.lines (Str.drop (position f) (text f)).

(** ** [RcloneAutomation.parse_log] *)

Definition START_MARKER_MULTIPART : string := "multipart upload starting chunk 1 size".
Definition START_MARKER_UNCONDITIONAL : string := "Transferring unconditionally".
Definition END_MARKER : string := "Copied".

(** The condition of the first [if] of the loop. *)
Definition has_start_marker (line : string) : bool :=
  negb (Str.find line START_MARKER_MULTIPART =? -1)
  || negb (Str.find line START_MARKER_UNCONDITIONAL =? -1).

(** The condition of the second [if]. *)
Definition has_end_marker (line : string) : bool :=
  negb (Str.find line END_MARKER =? -1).

(** [line.split(":")[3].strip()] *)
Definition line_fname (line : string) : Res string :=
  try! field := Str.getitem (Str.split line ":") 3 in
  ok (Str.strip field).

(** [datetime.strptime(line.split(level)[0].strip(), "%Y/%m/%d %H:%M:%S")] *)
Definition line_stamp (level line : string) : Res datetime :=
  try! head := Str.getitem (Str.split line level) 0 in
  strptime (Str.strip head).

(** The first [if] block of the loop body. *)
Definition on_start (timekeeper : Dict.t) (line : string) : Res Dict.t :=
  try! fname := line_fname line in
  let dto := Dict.get timekeeper fname (new_dto fname "rclone") in
  try! t := line_stamp "DEBUG" line in
  let dto := set_start_time dto t in
  ok (Dict.set timekeeper fname dto).

(** The second [if] block. *)
Definition on_end (timekeeper : Dict.t) (line : string) : Res Dict.t :=
  try! fname := line_fname line in
  let dto := Dict.get timekeeper fname (new_dto fname "rclone") in
  try! t := line_stamp "INFO" line in
  let dto := set_end_time dto t in
  ok (Dict.set timekeeper fname dto).

(** One iteration of [for line in log]: the two tests, one after the other. *)
Definition body (timekeeper : Dict.t) (line : string) : Res Dict.t :=
  try! timekeeper :=
    (if has_start_marker line then on_start timekeeper line else ok timekeeper) in
  if has_end_marker line then on_end timekeeper line else ok timekeeper.

(** The loop; an exception raised by an iteration leaves the loop. *)
Fixpoint scan (timekeeper : Dict.t) (lines : list string) : Res Dict.t :=
  match lines with
  | [] => ok timekeeper
  | line :: rest =>
      try! timekeeper := body timekeeper line in
      scan timekeeper rest
  end.

(** [parse_log(log)]: [log] is a path ([inl]) or an open stream ([inr]).
    The flag [debug] only adds a message to the program's own log and is
    left out. *)
Definition parse_log (fs : gmap string string) (log : string + TextIO)
  : Res (list TransferDTO) :=
  try! log :=
    (match log with
     | inl path => open fs path
     | inr stream => ok stream
     end) in
  let log := seek log 0 in
  let timekeeper := Dict.empty in
  try! timekeeper := scan timekeeper (readlines log) in
  ok (Dict.values timekeeper).

(** The log of the spec's example scenario. *)
Definition example_log : string :=
  "2024/01/01 10:00:00 DEBUG: msg: id: foo: Transferring unconditionally
2024/01/01 10:05:00 INFO: msg: id: foo: Copied
".

(** ** The world of [run_automation]

    [run_automation] creates, writes and removes files and hands a command
    to the shell executor.  The world holds the file system, the directory
    and the candidate names [tempfile] draws from, and the commands handed
    to the executor so far.

    A file has an identity apart from its path: [entries] maps a path to
    the file it names, [contents] gives the text of each file (the empty
    text for a file it does not list).  A handle stays on the file it was
    opened on, whatever becomes of the path afterwards. *)
Record FileSystem : Type := mk_fs {
  entries : gmap string nat;
  contents : gmap nat string
}.

Definition read_file (fs : FileSystem) (i : nat) : string :=
  default "" (contents fs !! i).

(** The files as seen by path: path to content. *)
Definition by_path (fs : FileSystem) : gmap string string :=
  read_file fs <$> entries fs.

(** A file that no path names and that has no text yet. *)
Definition new_file (fs : FileSystem) : nat :=
  fresh (map_img (entries fs) ∪ dom (contents fs) : gset nat).

Record World : Type := mk_world {
  fsys : FileSystem;
  tmpdir : string;
  names : list string;
  spawned : list (list string)
}.

Definition disk (w : World) : gmap string string := by_path (fsys w).

Definition M (A : Type) : Type := World → World * Res A.

Definition mret {A} (a : A) : M A := fun w => (w, ok a).

Definition lift {A} (r : Res A) : M A := fun w => (w, r).

Definition mbind' {A B} (c : M A) (k : A → M B) : M B :=
  fun w =>
    match c w with
    | (w', inl e) => (w', inl e)
    | (w', inr a) => k a w'
    end.

Notation "'do!' x := c 'in' k" := (mbind' c (fun x => k))
  (at level 10, x name, c at level 100, k at level 200, only parsing).

(** [d[k]] on a dictionary. *)
Definition getkey (d : gmap string string) (k : string) : Res string :=
  match d !! k with
  | Some v => ok v
  | None => raise (KeyError k)
  end.

(** [str(n)] for an integer. *)
Definition str_of_int (n : Z) : string := NilZero.string_of_int (Z.to_int n).

(** *** [tempfile.NamedTemporaryFile]

    The world shows the files at each step of [run_automation] and when it
    ends.  What the interpreter does later with a file object nobody refers
    to any more is not part of it. *)

(** A temporary file object: its name, whether [close] removes the name,
    and the file its handle is on. *)
Record TempFile : Type := mk_tempfile {
  tf_name : string;
  tf_delete : bool;
  tf_file : nat
}.

(** [os.path.join(dir, file)] for a relative [file]. *)
Definition path_join (dir file : string) : string :=
  match Str.rev dir with
  | EmptyString => file
  | String c _ => if Ascii.eqb c "/" then dir +:+ file else dir +:+ "/" +:+ file
  end.

(** The loop of [_mkstemp_inner]: candidate names are tried in turn until
    one does not exist; [FileExistsError] when none is left. *)
Fixpoint mkstemp_inner (fs : gmap string string) (dir pre suf : string)
    (cands : list string) : list string * Res string :=
  match cands with
  | [] => ([], raise FileExistsError)
  | n :: cands' =>
      let file := path_join dir (pre +:+ n +:+ suf) in
      match fs !! file with
      | Some _ => mkstemp_inner fs dir pre suf cands'
      | None => (cands', ok file)
      end
  end.

(** [NamedTemporaryFile(prefix=pre, suffix=suf, delete=del)]: a new, empty
    file is made under the name found, and the handle is on that file. *)
Definition NamedTemporaryFile (pre suf : string) (del : bool) : M TempFile :=
  fun w =>
    match mkstemp_inner (disk w) (tmpdir w) pre suf (names w) with
    | (cands, inl e) => (mk_world (fsys w) (tmpdir w) cands (spawned w), inl e)
    | (cands, inr file) =>
        let i := new_file (fsys w) in
        (mk_world (mk_fs (<[file := i]> (entries (fsys w)))
                         (<[i := ""]> (contents (fsys w))))
           (tmpdir w) cands (spawned w),
         ok (mk_tempfile file del i))
    end.

(** [f.writelines(lines)] followed by [f.flush()]: the text reaches the
    file the handle is on. *)
Definition writelines (f : TempFile) (lines : list string) : M unit :=
  fun w =>
    (mk_world (mk_fs (entries (fsys w))
                     (<[tf_file f := read_file (fsys w) (tf_file f)
                                     +:+ String.concat "" lines]> (contents (fsys w))))
       (tmpdir w) (names w) (spawned w),
     ok tt).

(** [os.unlink(path)]: the path is removed; the file it named keeps its
    text for the handles that are on it. *)
Definition unlink (path : string) : M unit :=
  fun w =>
    match disk w !! path with
    | Some _ =>
        (mk_world (mk_fs (delete path (entries (fsys w))) (contents (fsys w)))
           (tmpdir w) (names w) (spawned w), ok tt)
    | None => (w, raise FileNotFoundError)
    end.

(** [f.close()]: a file made with [delete=True] is unlinked (in CPython up
    to 3.11 a missing file makes the unlink raise; the path is absent
    afterwards either way). *)
Definition close (f : TempFile) : M unit :=
  if tf_delete f then unlink (tf_name f) else mret tt.

(** The stream read through the handle of a temporary file: the text of
    the file the handle is on, whether or not its name still leads to it. *)
Definition stream_of (f : TempFile) (w : World) : TextIO :=
  mk_textio (tf_name f) (universal_newlines (read_file (fsys w) (tf_file f))) 0.

(** ** [RcloneAutomation]

    Modelled from the spec: the attributes [config], [files] and [debug] are
    set by [AbstractAutomation.__init__], which is not part of the sources
    at hand; an Automation binds a configuration and a file set, and they
    are kept as given, the configuration as a dictionary. *)

Record RcloneAutomation : Type := mk_automation {
  config : gmap string string;
  files : list string;
  debug : bool;
  buffer_size : Z;
  multi_thread_streams : Z;
  multi_thread_cutoff : Z;
  ntransfers : Z;
  s3_max_upload_parts : Z;
  s3_upload_concurrency : Z
}.

(** [__init__]: the keyword parameters with their defaults. *)
Definition __init__ (config : gmap string string) (files : list string)
    (debug : bool) (params : gmap string Z) : RcloneAutomation :=
  mk_automation config files debug
    (default 50 (params !! "buffer_size"))
    (default 10 (params !! "multi_thread_streams"))
    (default 50 (params !! "multi_thread_cutoff"))
    (default 8 (params !! "ntransfers"))
    (default 10 (params !! "s3_max_upload_parts"))
    (default 10 (params !! "s3_upload_concurrency")).

Definition _generate_rclone_cfg (self : RcloneAutomation) : M TempFile :=
  do! source_token := lift (getkey (config self) "source_token") in
  do! source_secret := lift (getkey (config self) "source_secret") in
  do! source_s3_endpoint := lift (getkey (config self) "source_s3_endpoint") in
  do! dest_token := lift (getkey (config self) "dest_token") in
  do! dest_secret := lift (getkey (config self) "dest_secret") in
  do! dest_s3_endpoint := lift (getkey (config self) "dest_s3_endpoint") in
  let lines := [
    "[s3source]
";
    "type = s3
";
    "provider = Other
";
    "access_key_id = " +:+ source_token +:+ "
";
    "secret_access_key = " +:+ source_secret +:+ "
";
    "endpoint = " +:+ source_s3_endpoint +:+ "
";
    "acl = authenticated-read
";
    "
";
    "[s3dest]
";
    "type = s3
";
    "provider = Other
";
    "access_key_id = " +:+ dest_token +:+ "
";
    "secret_access_key = " +:+ dest_secret +:+ "
";
    "endpoint = " +:+ dest_s3_endpoint +:+ "
";
    "acl = authenticated-read

" ] in
  do! ftemp := NamedTemporaryFile "rclone_" ".conf" true in
  do! _ := writelines ftemp lines in
  mret ftemp.

Section Automation.

(** The value an executor returns; [run_automation] does not look at it. *)
Variable ExecutionDTO : Type.

(** [ShellExecutor.__call__] of [evalit.misc.shell], not part of the
    sources at hand: given the command and the file system it returns or
    raises, and leaves the file system as the external process left it. *)
Variable shell_executor :
  list string → FileSystem → FileSystem * Res ExecutionDTO.

(** [self.shell_executor(cmd)] *)
Definition call_shell_executor (cmd : list string) : M ExecutionDTO :=
  fun w =>
    let '(fs, r) := shell_executor cmd (fsys w) in
    (mk_world fs (tmpdir w) (names w) (spawned w ++ [cmd]), r).

Definition run_automation (self : RcloneAutomation) : M (list TransferDTO) :=
  do! source_s3_bucket := lift (getkey (config self) "source_s3_bucket") in
  do! source_s3_region := lift (getkey (config self) "source_s3_region") in
  do! dest_s3_bucket := lift (getkey (config self) "dest_s3_bucket") in
  do! dest_s3_region := lift (getkey (config self) "dest_s3_region") in
  let total_files := length (files self) in
  do! rclone_log_file := NamedTemporaryFile "rclone_" ".log" false in
  do! rclone_config_file := _generate_rclone_cfg self in
  let cmd := [
    "rclone";
    "copy";
    "s3source:" +:+ source_s3_bucket;
    "s3dest:" +:+ dest_s3_bucket;
    "--multi-thread-streams=" +:+ str_of_int (multi_thread_streams self);
    "--multi-thread-cutoff=" +:+ str_of_int (multi_thread_cutoff self) +:+ "M";
    "--s3-max-upload-parts=" +:+ str_of_int (s3_max_upload_parts self);
    "--s3-upload-concurrency=" +:+ str_of_int (s3_upload_concurrency self);
    "--buffer-size=" +:+ str_of_int (buffer_size self) +:+ "M";
    "--transfers=" +:+ str_of_int (ntransfers self);
    "--progress";
    "--config=" +:+ tf_name rclone_config_file;
    "--log-file=" +:+ tf_name rclone_log_file;
    "--log-level=DEBUG";
    "-I" ] in
  do! exdto := call_shell_executor cmd in
  do! _ := close rclone_config_file in
  do! vals := (fun w => (w, parse_log (disk w) (inr (stream_of rclone_log_file w)))) in
  mret vals.

End Automation.

(** ** Vocabulary of the statements *)

(** The lines [parse_log] iterates over: the stream read from its start. *)
Definition log_lines (f : TextIO) : list string := readlines (seek f 0).

(** [line] holds a start marker and its fourth colon-separated field,
    stripped, is [X]. *)
Definition is_start_for (X line : string) : Prop :=
  has_start_marker line = true ∧ line_fname line = inr X.

(** [line] holds the completion marker and its identity is [X]. *)
Definition is_end_for (X line : string) : Prop :=
  has_end_marker line = true ∧ line_fname line = inr X.

(** [line] holds a marker whose timestamp token [strptime] rejects. *)
Definition unparsable_stamp (line : string) : Prop :=
  (has_start_marker line = true ∧ raised (line_stamp "DEBUG" line) = true)
  ∨ (has_end_marker line = true ∧ raised (line_stamp "INFO" line) = true).

(** Every block the line enters finds a fourth field and a timestamp. *)
Definition line_ok (line : string) : bool :=
  (if has_start_marker line
   then negb (raised (line_fname line)) && negb (raised (line_stamp "DEBUG" line))
   else true)
  && (if has_end_marker line
      then negb (raised (line_fname line)) && negb (raised (line_stamp "INFO" line))
      else true).

(** The records of a result that carry the identity [X]. *)
Definition records_for (X : string) (recs : list TransferDTO) : list TransferDTO :=
  filter (fun r => fname r = X) recs.

(** The start and end times a dictionary holds for [X]. *)
Definition start_of (d : Dict.t) (X : string) : option datetime :=
  match Dict.lookup d X with
  | Some v => start_time v
  | None => None
  end.

Definition end_of (d : Dict.t) (X : string) : option datetime :=
  match Dict.lookup d X with
  | Some v => end_time v
  | None => None
  end.

(** What [parse_log] maintains for every entry of [timekeeper] while it
    scans [lines]. *)
Definition entry_ok (lines : list string) (k : string) (v : TransferDTO) : Prop :=
  fname v = k
  ∧ transferer v = "rclone"
  ∧ (is_Some (start_time v) ∨ is_Some (end_time v))
  ∧ ∃ line, line ∈ lines
      ∧ (has_start_marker line = true ∨ has_end_marker line = true)
      ∧ line_fname line = inr k.

Definition dict_ok (lines : list string) (d : Dict.t) : Prop :=
  NoDup (Dict.keys d) ∧ ∀ k v, (k, v) ∈ d → entry_ok lines k v.

(** All characters of [s] satisfy [p]. *)
Fixpoint sforall (p : ascii → bool) (s : string) : bool :=
  match s with
  | EmptyString => true
  | String c s' => p c && sforall p s'
  end.

(** The characters a string accepted by [strptime] can hold. *)
Definition stamp_char (c : ascii) : bool :=
  Str.isdigit c || Ascii.eqb c "/" || Ascii.eqb c ":" || Str.isspace c.

(** The configuration keys [run_automation] and [_generate_rclone_cfg]
    read. *)
Definition REQUIRED_KEYS : list string :=
  [ "source_token"; "source_secret"; "source_s3_endpoint";
    "dest_token"; "dest_secret"; "dest_s3_endpoint";
    "source_s3_bucket"; "source_s3_region";
    "dest_s3_bucket"; "dest_s3_region" ].

(** Lines 79 to 113 of [run_automation]: everything before the executor is
    called.  It yields the two temporary files and the command. *)
Definition run_prologue (self : RcloneAutomation)
  : M (TempFile * TempFile * list string) :=
  do! source_s3_bucket := lift (getkey (config self) "source_s3_bucket") in
  do! source_s3_region := lift (getkey (config self) "source_s3_region") in
  do! dest_s3_bucket := lift (getkey (config self) "dest_s3_bucket") in
  do! dest_s3_region := lift (getkey (config self) "dest_s3_region") in
  do! rclone_log_file := NamedTemporaryFile "rclone_" ".log" false in
  do! rclone_config_file := _generate_rclone_cfg self in
  mret (rclone_log_file, rclone_config_file,
        [ "rclone";
          "copy";
          "s3source:" +:+ source_s3_bucket;
          "s3dest:" +:+ dest_s3_bucket;
          "--multi-thread-streams=" +:+ str_of_int (multi_thread_streams self);
          "--multi-thread-cutoff=" +:+ str_of_int (multi_thread_cutoff self) +:+ "M";
          "--s3-max-upload-parts=" +:+ str_of_int (s3_max_upload_parts self);
          "--s3-upload-concurrency=" +:+ str_of_int (s3_upload_concurrency self);
          "--buffer-size=" +:+ str_of_int (buffer_size self) +:+ "M";
          "--transfers=" +:+ str_of_int (ntransfers self);
          "--progress";
          "--config=" +:+ tf_name rclone_config_file;
          "--log-file=" +:+ tf_name rclone_log_file;
          "--log-level=DEBUG";
          "-I" ]).

(** A matcher that only passes over characters of a timestamp. *)
Definition consumes_stamp {A} (m : Strptime.Matcher A) : Prop :=
  ∀ s a rest, (a, rest) ∈ m s →
    ∃ p, s = p +:+ rest ∧ sforall stamp_char p = true.

(** The first character of [s] that a timestamp cannot hold. *)
Fixpoint first_other (s : string) : option ascii :=
  match s with
  | EmptyString => None
  | String c s' => if stamp_char c then first_other s' else Some c
  end.

#[global] Instance Exn_eq_dec : EqDecision Exn.
Proof. solve_decision. Defined.

#[global] Instance is_start_for_dec X line : Decision (is_start_for X line).
Proof. unfold is_start_for. apply _. Defined.

#[global] Instance is_end_for_dec X line : Decision (is_end_for X line).
Proof. unfold is_end_for. apply _. Defined.

(** ** Sample logs and worlds *)

(** A stream over a text, as [parse_log] receives it. *)
Definition stream (txt : string) : TextIO := mk_textio "rclone.log" txt 0.

Definition start_foo : string :=
  "2024/01/01 10:00:00 DEBUG : foo: Transferring unconditionally as --ignore-times is in use
".
Definition start_foo_again : string :=
  "2024/01/01 10:00:07 DEBUG : foo: multipart upload starting chunk 1 size 5Mi offset 0/1Gi
".
Definition copied_foo : string :=
  "2024/01/01 10:05:00 INFO  : foo: Copied (new)
".
Definition copied_bar : string :=
  "2024/01/01 10:06:30 INFO  : bar: Copied (new)
".
(** A start line whose date is written with dashes. *)
Definition start_foo_dashes : string :=
  "2024-01-01 10:00:00 DEBUG : foo: Transferring unconditionally as --ignore-times is in use
".
(** A completion line logged at another level. *)
Definition copied_bar_notice : string :=
  "2024/01/01 10:06:30 NOTICE: bar: Copied (new)
".
(** A completion marker on a line without a fourth field. *)
Definition copied_summary : string :=
  "Copied: 2 files
".
(** The start line of a file whose name holds the completion marker. *)
Definition start_copied_txt : string :=
  "2024/01/01 10:00:00 DEBUG : Copied.txt: Transferring unconditionally as --ignore-times is in use
".
Definition plain_line : string :=
  "2024/01/01 09:59:59 INFO  : Starting transaction limiter: max 10 transactions/s
".

Definition at_10_00_00 : datetime := mk_datetime 2024 1 1 10 0 0.
Definition at_10_00_07 : datetime := mk_datetime 2024 1 1 10 0 7.
Definition at_10_05_00 : datetime := mk_datetime 2024 1 1 10 5 0.
Definition at_10_06_30 : datetime := mk_datetime 2024 1 1 10 6 30.

Definition demo_config : gmap string string :=
  list_to_map
    [ ("source_token", "AKIASRC"); ("source_secret", "s3cr3t");
      ("source_s3_endpoint", "https://src.example.org");
      ("dest_token", "AKIADST"); ("dest_secret", "t0ps3cr3t");
      ("dest_s3_endpoint", "https://dst.example.org");
      ("source_s3_bucket", "inbox"); ("source_s3_region", "us-east-1");
      ("dest_s3_bucket", "outbox"); ("dest_s3_region", "us-east-2") ].

Definition demo_automation : RcloneAutomation :=
  __init__ demo_config ["testfile"] true (<["buffer_size" := 512]> ∅).

Definition demo_world : World :=
  mk_world (mk_fs ∅ ∅) "/tmp" ["k3x9w2"; "p0q7zz"; "m4m4m4"] [].

(** A process writes [txt] to [path]: into the file the path names, or into
    a new file when the path names none. *)
Definition write_path (fs : FileSystem) (path txt : string) : FileSystem :=
  match entries fs !! path with
  | Some i => mk_fs (entries fs) (<[i := txt]> (contents fs))
  | None =>
      let i := new_file fs in
      mk_fs (<[path := i]> (entries fs)) (<[i := txt]> (contents fs))
  end.

(** A process removes [path]. *)
Definition remove_path (fs : FileSystem) (path : string) : FileSystem :=
  mk_fs (delete path (entries fs)) (contents fs).

(** A world in which every name [tempfile] tries for the log file is
    taken. *)
Definition crowded_world : World :=
  mk_world (write_path (mk_fs ∅ ∅) "/tmp/rclone_k3x9w2.log" "old log")
    "/tmp" ["k3x9w2"] [].

(** An executor whose process ends with exit status 1 after writing one
    line to the log. *)
Definition returning_executor (cmd : list string) (fs : FileSystem)
  : FileSystem * Res Z :=
  (write_path fs "/tmp/rclone_k3x9w2.log" start_foo, ok 1).

(** An executor whose process removes the log file it is given and writes
    its line to a new file of the same name. *)
Definition replacing_executor (cmd : list string) (fs : FileSystem)
  : FileSystem * Res Z :=
  (write_path (remove_path fs "/tmp/rclone_k3x9w2.log")
     "/tmp/rclone_k3x9w2.log" start_foo, ok 0).

(** An executor that raises, as when the program cannot be started. *)
Definition raising_executor (cmd : list string) (fs : FileSystem)
  : FileSystem * Res Z :=
  (fs, raise (OtherError "rclone: command not found")).

(** The command [run_automation] builds for [demo_automation] in
    [demo_world], and the two temporary files it names. *)
Definition demo_log_file : TempFile := mk_tempfile "/tmp/rclone_k3x9w2.log" false 0.
Definition demo_config_file : TempFile := mk_tempfile "/tmp/rclone_p0q7zz.conf" true 1.
Definition demo_cmd : list string :=
  [ "rclone"; "copy"; "s3source:inbox"; "s3dest:outbox";
    "--multi-thread-streams=10"; "--multi-thread-cutoff=50M";
    "--s3-max-upload-parts=10"; "--s3-upload-concurrency=10";
    "--buffer-size=512M"; "--transfers=8"; "--progress";
    "--config=/tmp/rclone_p0q7zz.conf"; "--log-file=/tmp/rclone_k3x9w2.log";
    "--log-level=DEBUG"; "-I" ].

(** [demo_automation] without the secret of the destination. *)
Definition demo_automation_no_secret : RcloneAutomation :=
  __init__ (delete "dest_secret" demo_config) ["testfile"] true ∅.

(** ** Vocabulary of the further properties *)

(** The line enters one of the two blocks of the loop. *)
Definition has_marker (line : string) : bool :=
  has_start_marker line || has_end_marker line.

(** The number of occurrences of the character [c] in [s]. *)
Fixpoint count_char (c : ascii) (s : string) : nat :=
  match s with
  | EmptyString => O
  | String a s' => if Ascii.eqb c a then S (count_char c s') else count_char c s'
  end.

(** The identities read from the marker lines, in the order of the log. *)
Fixpoint idents (lines : list string) : list string :=
  match lines with
  | [] => []
  | line :: rest =>
      if has_marker line
      then match line_fname line with
           | inr X => X :: idents rest
           | inl _ => idents rest
           end
      else idents rest
  end.

(** The elements of [l] that are not in [seen], each at its first
    occurrence. *)
Fixpoint first_seen (seen l : list string) : list string :=
  match l with
  | [] => []
  | x :: l' =>
      if bool_decide (x ∈ seen) then first_seen seen l'
      else x :: first_seen (x :: seen) l'
  end.

(** The lines that enter a block of the loop. *)
Definition marker_lines (lines : list string) : list string :=
  filter (fun l => has_marker l = true) lines.

(** The automation [self] with another configuration. *)
Definition with_config (self : RcloneAutomation) (c : gmap string string)
  : RcloneAutomation :=
  mk_automation c (files self) (debug self) (buffer_size self)
    (multi_thread_streams self) (multi_thread_cutoff self) (ntransfers self)
    (s3_max_upload_parts self) (s3_upload_concurrency self).

(** The keys [_generate_rclone_cfg] reads. *)
Definition CREDENTIAL_KEYS : list string :=
  [ "source_token"; "source_secret"; "source_s3_endpoint";
    "dest_token"; "dest_secret"; "dest_s3_endpoint" ].

(** The keys [run_automation] reads itself. *)
Definition LOCATION_KEYS : list string :=
  [ "source_s3_bucket"; "source_s3_region"; "dest_s3_bucket"; "dest_s3_region" ].

(** ** The lines rclone writes

    rclone stamps a log line with the date and time in the layout
    2006/01/02 15:04:05, every field padded with zeros, followed by the
    level, the name of the object and the message:
    [2024/01/01 10:00:00 DEBUG : name: message]. *)

(** The character of the last decimal digit of [n]. *)
Definition digit_char (n : Z) : ascii := ascii_of_nat (48 + Z.to_nat (n mod 10)).

Definition pad2 (n : Z) : string :=
  String (digit_char (n / 10)) (String (digit_char n) EmptyString).

Definition pad4 (n : Z) : string :=
  String (digit_char (n / 1000)) (String (digit_char (n / 100)) (pad2 n)).

Definition log_stamp (t : datetime) : string :=
  pad4 (year t) +:+ "/" +:+ pad2 (month t) +:+ "/" +:+ pad2 (day t) +:+ " "
  +:+ pad2 (hour t) +:+ ":" +:+ pad2 (minute t) +:+ ":" +:+ pad2 (second t).

Definition log_line (t : datetime) (level name message : string) : string :=
  log_stamp t +:+ " " +:+ level +:+ ": " +:+ name +:+ ": " +:+ message +:+ "
".

(** The line rclone writes when it starts to copy [name] with
    [--ignore-times], and the one it writes when the copy is done. *)
Definition start_line (t : datetime) (name : string) : string :=
  log_line t "DEBUG " name "Transferring unconditionally as --ignore-times is in use".

Definition end_line (t : datetime) (name : string) : string :=
  log_line t "INFO  " name "Copied (new)".

(** [sub] occurs in [s]. *)
Fixpoint occurs (sub s : string) : bool :=
  Str.startswith sub s
  || match s with
     | EmptyString => false
     | String _ s' => occurs sub s'
     end.

(** A name that stands for itself on a line: no colon, no line feed and
    no carriage return, no white space at either end, and none of the
    three markers in it. *)
Definition plain_name (X : string) : bool :=
  (count_char ":" X =? 0)%nat && (count_char "010" X =? 0)%nat
  && (count_char "013" X =? 0)%nat
  && String.eqb (Str.strip X) X && negb (has_marker X).

(** The log of a run that copies the given objects one after the other:
    for each, its start line and its completion line. *)
Fixpoint transfer_log (l : list (string * datetime * datetime)) : string :=
  match l with
  | [] => EmptyString
  | (X, t1, t2) :: l' => start_line t1 X +:+ end_line t2 X +:+ transfer_log l'
  end.

(** The records of these transfers. *)
Definition transfer_records (l : list (string * datetime * datetime))
  : list TransferDTO :=
  map (fun '(X, t1, t2) => mk_dto X "rclone" (Some t1) (Some t2)) l.

(** * Properties *)

(** ** The string methods and [strptime] on sample inputs *)

Example split_colon :
  Str.split "2024/01/01 10:00:00 DEBUG : a.bin: Transferring" ":"
  = ["2024/01/01 10"; "00"; "00 DEBUG "; " a.bin"; " Transferring"].
Proof. reflexivity. Qed.

Example split_overlap : Str.split "aaa" "aa" = [""; "a"].
Proof. reflexivity. Qed.

Example split_absent : Str.split "abc" "DEBUG" = ["abc"].
Proof. reflexivity. Qed.

Example find_absent : Str.find "abc" "Copied" = -1.
Proof. reflexivity. Qed.

Example find_present : Str.find "x: Copied (new)" "Copied" = 3.
Proof. reflexivity. Qed.

Example strip_both : Str.strip "  a b
" = "a b".
Proof. reflexivity. Qed.

Example lines_keep_newline : Str.lines "ab
c" = ["ab
"; "c"].
Proof. reflexivity. Qed.

Example strptime_padded :
  Strptime.strptime "2024/01/01 10:05:00" = Some (mk_datetime 2024 1 1 10 5 0).
Proof. reflexivity. Qed.

Example strptime_unpadded :
  Strptime.strptime "2024/1/ 1   7:5:9" = Some (mk_datetime 2024 1 1 7 5 9).
Proof. reflexivity. Qed.

Example strptime_unconverted : Strptime.strptime "2024/01/01 10:05:000" = None.
Proof. reflexivity. Qed.

Example strptime_feb29_2023 : Strptime.strptime "2023/02/29 10:05:00" = None.
Proof. reflexivity. Qed.

Example strptime_feb29_2024 :
  Strptime.strptime "2024/02/29 10:05:00" = Some (mk_datetime 2024 2 29 10 5 0).
Proof. reflexivity. Qed.

Example strptime_second_60 : Strptime.strptime "2024/02/28 10:05:60" = None.
Proof. reflexivity. Qed.

Example strptime_trailing_level : Strptime.strptime "2024/01/01 10:05:00 DEBUG" = None.
Proof. reflexivity. Qed.



(** ** The dictionary *)

Section DictFacts.

Implicit Types (d : Dict.t) (k : string) (v : TransferDTO).

Lemma eqb_string_true k k' : String.eqb k k' = true ↔ k = k'.
Proof. apply String.eqb_eq. Qed.

Lemma eqb_string_false k k' : String.eqb k k' = false ↔ k ≠ k'.
Proof. apply String.eqb_neq. Qed.

Lemma lookup_set_eq d k v : Dict.lookup (Dict.set d k v) k = Some v.
Proof.
  induction d as [|[k' v'] d IH]; simpl.
  - by rewrite String.eqb_refl.
  - destruct (String.eqb k' k) eqn:E; simpl; rewrite E; [done | apply IH].
Qed.

Lemma lookup_set_ne d k k' v :
  k ≠ k' → Dict.lookup (Dict.set d k v) k' = Dict.lookup d k'.
Proof.
  intros Hne. induction d as [|[k0 v0] d IH]; simpl.
  - apply eqb_string_false in Hne. by rewrite Hne.
  - destruct (String.eqb k0 k) eqn:E; simpl.
    + apply eqb_string_true in E as ->.
      apply eqb_string_false in Hne. by rewrite Hne.
    + destruct (String.eqb k0 k'); [done | apply IH].
Qed.

Lemma lookup_None_keys d k : Dict.lookup d k = None ↔ k ∉ Dict.keys d.
Proof.
  induction d as [|[k' v'] d IH]; simpl.
  - split; [intros _; apply not_elem_of_nil | done].
  - rewrite not_elem_of_cons. destruct (String.eqb k' k) eqn:E.
    + apply eqb_string_true in E as ->. split; [discriminate | intros [Hk _]; by destruct Hk].
    + apply eqb_string_false in E. rewrite IH. naive_solver.
Qed.

Lemma keys_set d k v :
  Dict.keys (Dict.set d k v)
  = match Dict.lookup d k with
    | Some _ => Dict.keys d
    | None => Dict.keys d ++ [k]
    end.
Proof.
  induction d as [|[k' v'] d IH]; simpl; [done|].
  destruct (String.eqb k' k) eqn:E; simpl; [done|].
  rewrite IH. by destruct (Dict.lookup d k).
Qed.

Lemma NoDup_keys_set d k v :
  NoDup (Dict.keys d) → NoDup (Dict.keys (Dict.set d k v)).
Proof.
  intros Hnd. rewrite keys_set. destruct (Dict.lookup d k) eqn:E; [done|].
  apply NoDup_app. split_and!; [done | | apply NoDup_singleton].
  intros x Hx Hx'. apply list_elem_of_singleton in Hx' as ->.
  by apply lookup_None_keys in E.
Qed.

Lemma lookup_Some_elem d k v : Dict.lookup d k = Some v → (k, v) ∈ d.
Proof.
  induction d as [|[k' v'] d IH]; simpl; [done|].
  destruct (String.eqb k' k) eqn:E.
  - apply eqb_string_true in E as ->. intros [= ->]. apply list_elem_of_here.
  - intros H. apply list_elem_of_further, IH, H.
Qed.

Lemma elem_lookup_Some d k v :
  NoDup (Dict.keys d) → (k, v) ∈ d → Dict.lookup d k = Some v.
Proof.
  induction d as [|[k' v'] d IH]; simpl; intros Hnd Hin.
  - by apply elem_of_nil in Hin.
  - apply NoDup_cons in Hnd as [Hk Hnd].
    apply elem_of_cons in Hin as [[= -> ->] | Hin].
    + by rewrite String.eqb_refl.
    + destruct (String.eqb k' k) eqn:E; [|by apply IH].
      apply eqb_string_true in E as ->. exfalso. apply Hk.
      apply list_elem_of_fmap. by exists (k, v).
Qed.

Lemma elem_set d k v k0 v0 :
  (k0, v0) ∈ Dict.set d k v → (k0 = k ∧ v0 = v) ∨ (k0, v0) ∈ d.
Proof.
  induction d as [|[k' v'] d IH]; simpl.
  - intros H. apply list_elem_of_singleton in H as [= -> ->]. by left.
  - destruct (String.eqb k' k) eqn:E.
    + apply eqb_string_true in E as ->.
      intros [[= -> ->] | H]%elem_of_cons; [by left | right].
      by apply list_elem_of_further.
    + intros [[= -> ->] | H]%elem_of_cons.
      * right. apply list_elem_of_here.
      * destruct (IH H) as [? | ?]; [by left | right].
        by apply list_elem_of_further.
Qed.

End DictFacts.

(** ** One iteration of the loop *)

Section BodyFacts.

Implicit Types (d : Dict.t) (line X Y : string) (t : datetime).

Lemma start_of_set d X Y v :
  start_of (Dict.set d X v) Y = if decide (X = Y) then start_time v else start_of d Y.
Proof.
  unfold start_of. case_decide as E.
  - subst. by rewrite lookup_set_eq.
  - by rewrite lookup_set_ne.
Qed.

Lemma end_of_set d X Y v :
  end_of (Dict.set d X v) Y = if decide (X = Y) then end_time v else end_of d Y.
Proof.
  unfold end_of. case_decide as E.
  - subst. by rewrite lookup_set_eq.
  - by rewrite lookup_set_ne.
Qed.

Lemma start_time_get d X : start_time (Dict.get d X (new_dto X "rclone")) = start_of d X.
Proof. unfold Dict.get, start_of. by destruct (Dict.lookup d X). Qed.

Lemma end_time_get d X : end_time (Dict.get d X (new_dto X "rclone")) = end_of d X.
Proof. unfold Dict.get, end_of. by destruct (Dict.lookup d X). Qed.

Lemma lookup_set_is_Some d X Y v :
  is_Some (Dict.lookup (Dict.set d X v) Y) ↔ X = Y ∨ is_Some (Dict.lookup d Y).
Proof.
  destruct (decide (X = Y)) as [->|Hne].
  - rewrite lookup_set_eq. naive_solver.
  - rewrite lookup_set_ne by done. naive_solver.
Qed.

Lemma on_start_inv d line d' :
  on_start d line = inr d' →
  ∃ X t, line_fname line = inr X ∧ line_stamp "DEBUG" line = inr t
         ∧ d' = Dict.set d X (set_start_time (Dict.get d X (new_dto X "rclone")) t).
Proof.
  unfold on_start, rbind, ok.
  destruct (line_fname line) as [e|X]; [done|].
  destruct (line_stamp "DEBUG" line) as [e|t]; [done|].
  intros [= <-]. by exists X, t.
Qed.

Lemma on_end_inv d line d' :
  on_end d line = inr d' →
  ∃ X t, line_fname line = inr X ∧ line_stamp "INFO" line = inr t
         ∧ d' = Dict.set d X (set_end_time (Dict.get d X (new_dto X "rclone")) t).
Proof.
  unfold on_end, rbind, ok.
  destruct (line_fname line) as [e|X]; [done|].
  destruct (line_stamp "INFO" line) as [e|t]; [done|].
  intros [= <-]. by exists X, t.
Qed.

Lemma body_inv d line d' :
  body d line = inr d' →
  ∃ d1, (if has_start_marker line then on_start d line else ok d) = inr d1
        ∧ (if has_end_marker line then on_end d1 line else ok d1) = inr d'.
Proof.
  unfold body, rbind.
  destruct (if has_start_marker line then _ else _) as [e|d1]; [done|].
  intros H. by exists d1.
Qed.

(** The start block writes the start time of its identity and nothing
    else that the statements look at. *)
Lemma start_block_effect d line d1 :
  (if has_start_marker line then on_start d line else ok d) = inr d1 →
  (∀ Y, is_start_for Y line →
        ∃ t, line_stamp "DEBUG" line = inr t ∧ start_of d1 Y = Some t)
  ∧ (∀ Y, ¬ is_start_for Y line → start_of d1 Y = start_of d Y)
  ∧ (∀ Y, end_of d1 Y = end_of d Y)
  ∧ (∀ Y, is_Some (Dict.lookup d1 Y) ↔ is_Some (Dict.lookup d Y) ∨ is_start_for Y line).
Proof.
  unfold is_start_for. destruct (has_start_marker line) eqn:Hm.
  - intros (X & t & HX & Ht & ->)%on_start_inv. rewrite HX, Ht. split_and!.
    + intros Y [_ [= <-]]. exists t. split; [done|].
      rewrite start_of_set. by rewrite decide_True.
    + intros Y HY. rewrite start_of_set. rewrite decide_False; [done|].
      intros <-. by apply HY.
    + intros Y. rewrite end_of_set. case_decide; [subst; apply end_time_get | done].
    + intros Y. rewrite lookup_set_is_Some. naive_solver.
  - intros [= <-]. split_and!; [by intros Y [? _] | done | done | naive_solver].
Qed.

(** The completion block does the same for the end time. *)
Lemma end_block_effect d line d1 :
  (if has_end_marker line then on_end d line else ok d) = inr d1 →
  (∀ Y, is_end_for Y line →
        ∃ t, line_stamp "INFO" line = inr t ∧ end_of d1 Y = Some t)
  ∧ (∀ Y, ¬ is_end_for Y line → end_of d1 Y = end_of d Y)
  ∧ (∀ Y, start_of d1 Y = start_of d Y)
  ∧ (∀ Y, is_Some (Dict.lookup d1 Y) ↔ is_Some (Dict.lookup d Y) ∨ is_end_for Y line).
Proof.
  unfold is_end_for. destruct (has_end_marker line) eqn:Hm.
  - intros (X & t & HX & Ht & ->)%on_end_inv. rewrite HX, Ht. split_and!.
    + intros Y [_ [= <-]]. exists t. split; [done|].
      rewrite end_of_set. by rewrite decide_True.
    + intros Y HY. rewrite end_of_set. rewrite decide_False; [done|].
      intros <-. by apply HY.
    + intros Y. rewrite start_of_set. case_decide; [subst; apply start_time_get | done].
    + intros Y. rewrite lookup_set_is_Some. naive_solver.
  - intros [= <-]. split_and!; [by intros Y [? _] | done | done | naive_solver].
Qed.

Lemma body_sets_start d line d' Y :
  body d line = inr d' → is_start_for Y line →
  ∃ t, line_stamp "DEBUG" line = inr t ∧ start_of d' Y = Some t.
Proof.
  intros (d1 & H1 & H2)%body_inv HY.
  apply start_block_effect in H1 as (Hs & _). apply end_block_effect in H2 as (_ & _ & Hk & _).
  destruct (Hs Y HY) as (t & Ht & Hd1). exists t. by rewrite Hk.
Qed.

Lemma body_keeps_start d line d' Y :
  body d line = inr d' → ¬ is_start_for Y line → start_of d' Y = start_of d Y.
Proof.
  intros (d1 & H1 & H2)%body_inv HY.
  apply start_block_effect in H1 as (_ & Hs & _). apply end_block_effect in H2 as (_ & _ & Hk & _).
  by rewrite Hk, Hs.
Qed.

Lemma body_sets_end d line d' Y :
  body d line = inr d' → is_end_for Y line →
  ∃ t, line_stamp "INFO" line = inr t ∧ end_of d' Y = Some t.
Proof.
  intros (d1 & H1 & H2)%body_inv HY.
  apply end_block_effect in H2 as (He & _). exact (He Y HY).
Qed.

Lemma body_keeps_end d line d' Y :
  body d line = inr d' → ¬ is_end_for Y line → end_of d' Y = end_of d Y.
Proof.
  intros (d1 & H1 & H2)%body_inv HY.
  apply start_block_effect in H1 as (_ & _ & Hk & _). apply end_block_effect in H2 as (_ & He & _).
  by rewrite He, Hk.
Qed.

Lemma body_presence d line d' Y :
  body d line = inr d' →
  is_Some (Dict.lookup d' Y)
  ↔ is_Some (Dict.lookup d Y) ∨ is_start_for Y line ∨ is_end_for Y line.
Proof.
  intros (d1 & H1 & H2)%body_inv.
  apply start_block_effect in H1 as (_ & _ & _ & Hp1).
  apply end_block_effect in H2 as (_ & _ & _ & Hp2).
  rewrite Hp2, Hp1. naive_solver.
Qed.

End BodyFacts.

(** ** The loop *)

Section ScanFacts.

Implicit Types (d : Dict.t) (line X Y : string) (lines pre post : list string).

Lemma scan_app d pre post :
  scan d (pre ++ post) = (try! d1 := scan d pre in scan d1 post).
Proof.
  revert d. induction pre as [|l pre IH]; intros d; simpl; [done|].
  unfold rbind at 1 3. destruct (body d l) as [e|d1]; [done | apply IH].
Qed.

Lemma scan_cons_inv d line lines d' :
  scan d (line :: lines) = inr d' →
  ∃ d1, body d line = inr d1 ∧ scan d1 lines = inr d'.
Proof.
  simpl. unfold rbind. destruct (body d line) as [e|d1]; [done|]. by exists d1.
Qed.

Lemma scan_app_inv d pre post d' :
  scan d (pre ++ post) = inr d' →
  ∃ d1, scan d pre = inr d1 ∧ scan d1 post = inr d'.
Proof.
  rewrite scan_app. unfold rbind. destruct (scan d pre) as [e|d1]; [done|]. by exists d1.
Qed.

Lemma scan_keeps_start d lines d' Y :
  scan d lines = inr d' → (∀ l, l ∈ lines → ¬ is_start_for Y l) →
  start_of d' Y = start_of d Y.
Proof.
  revert d. induction lines as [|l lines IH]; intros d.
  - by intros [= <-].
  - intros (d1 & Hb & Hs)%scan_cons_inv Hno.
    rewrite (IH d1 Hs) by (intros; apply Hno; by apply list_elem_of_further).
    apply (body_keeps_start _ _ _ _ Hb), Hno, list_elem_of_here.
Qed.

Lemma scan_keeps_end d lines d' Y :
  scan d lines = inr d' → (∀ l, l ∈ lines → ¬ is_end_for Y l) →
  end_of d' Y = end_of d Y.
Proof.
  revert d. induction lines as [|l lines IH]; intros d.
  - by intros [= <-].
  - intros (d1 & Hb & Hs)%scan_cons_inv Hno.
    rewrite (IH d1 Hs) by (intros; apply Hno; by apply list_elem_of_further).
    apply (body_keeps_end _ _ _ _ Hb), Hno, list_elem_of_here.
Qed.

(** The start time of [Y] after the loop is the one of the last start
    line for [Y]. *)
Lemma scan_last_start d pre line post d' Y :
  scan d (pre ++ line :: post) = inr d' →
  is_start_for Y line → (∀ l, l ∈ post → ¬ is_start_for Y l) →
  ∃ t, line_stamp "DEBUG" line = inr t ∧ start_of d' Y = Some t.
Proof.
  intros (d1 & _ & (d2 & Hb & Hs)%scan_cons_inv)%scan_app_inv HY Hno.
  destruct (body_sets_start _ _ _ _ Hb HY) as (t & Ht & Hd2).
  exists t. split; [done|]. by rewrite (scan_keeps_start _ _ _ _ Hs Hno).
Qed.

Lemma scan_last_end d pre line post d' Y :
  scan d (pre ++ line :: post) = inr d' →
  is_end_for Y line → (∀ l, l ∈ post → ¬ is_end_for Y l) →
  ∃ t, line_stamp "INFO" line = inr t ∧ end_of d' Y = Some t.
Proof.
  intros (d1 & _ & (d2 & Hb & Hs)%scan_cons_inv)%scan_app_inv HY Hno.
  destruct (body_sets_end _ _ _ _ Hb HY) as (t & Ht & Hd2).
  exists t. split; [done|]. by rewrite (scan_keeps_end _ _ _ _ Hs Hno).
Qed.

Lemma scan_presence d lines d' Y :
  scan d lines = inr d' →
  is_Some (Dict.lookup d' Y)
  ↔ is_Some (Dict.lookup d Y)
    ∨ ∃ l, l ∈ lines ∧ (is_start_for Y l ∨ is_end_for Y l).
Proof.
  revert d. induction lines as [|l lines IH]; intros d.
  - intros [= <-]. split; [by left|]. intros [?|(l & Hl & _)]; [done|].
    by apply elem_of_nil in Hl.
  - intros (d1 & Hb & Hs)%scan_cons_inv.
    rewrite (IH d1 Hs), (body_presence _ _ _ Y Hb). split.
    + intros [[?|Hl]|(l' & Hl' & H')].
      * by left.
      * right. exists l. split; [apply list_elem_of_here | done].
      * right. exists l'. split; [by apply list_elem_of_further | done].
    + intros [?|(l' & [->|Hl']%elem_of_cons & H')].
      * by left; left.
      * by left; right.
      * right. by exists l'.
Qed.

(** A log without markers leaves the dictionary as it is. *)
Lemma scan_no_marker d lines :
  (∀ l, l ∈ lines → has_start_marker l = false ∧ has_end_marker l = false) →
  scan d lines = inr d.
Proof.
  induction lines as [|l lines IH]; intros Hno; simpl; [done|].
  destruct (Hno l) as [Hs He]; [apply list_elem_of_here|].
  unfold body. rewrite Hs, He. simpl. apply IH.
  intros l' Hl'. by apply Hno, list_elem_of_further.
Qed.

(** The loop returns exactly on the logs all of whose lines are well
    formed. *)
Lemma body_total d line : line_ok line = true → ∃ d', body d line = inr d'.
Proof.
  unfold line_ok, body, on_start, on_end, rbind, ok.
  destruct (has_start_marker line), (has_end_marker line);
    destruct (line_fname line) as [e|X]; simpl; try done;
    destruct (line_stamp "DEBUG" line) as [e1|t1]; simpl; try done;
    destruct (line_stamp "INFO" line) as [e2|t2]; simpl; try done; eauto.
Qed.

Lemma body_returns_ok d line d' : body d line = inr d' → line_ok line = true.
Proof.
  unfold line_ok, body, on_start, on_end, rbind, ok.
  destruct (has_start_marker line), (has_end_marker line);
    destruct (line_fname line) as [e|X]; simpl; try done;
    destruct (line_stamp "DEBUG" line) as [e1|t1]; simpl; try done;
    destruct (line_stamp "INFO" line) as [e2|t2]; simpl; done.
Qed.

Lemma scan_total d lines :
  (∀ l, l ∈ lines → line_ok l = true) → ∃ d', scan d lines = inr d'.
Proof.
  revert d. induction lines as [|l lines IH]; intros d Hok; simpl; [by exists d|].
  destruct (body_total d l) as [d1 ->]; [apply Hok, list_elem_of_here|].
  simpl. apply IH. intros l' Hl'. by apply Hok, list_elem_of_further.
Qed.

Lemma scan_returns_ok d lines d' :
  scan d lines = inr d' → ∀ l, l ∈ lines → line_ok l = true.
Proof.
  revert d. induction lines as [|l lines IH]; intros d.
  - intros _ l Hl. by apply elem_of_nil in Hl.
  - intros (d1 & Hb & Hs)%scan_cons_inv l' [->|Hl']%elem_of_cons.
    + by apply body_returns_ok in Hb.
    + by apply (IH d1).
Qed.

(** A line that raises makes the whole loop raise. *)
Lemma scan_raises d lines line :
  line ∈ lines → line_ok line = false → raised (scan d lines) = true.
Proof.
  intros Hin Hbad. destruct (scan d lines) as [e|d'] eqn:E; [done|].
  apply scan_returns_ok with (l := line) in E; [congruence | done].
Qed.

End ScanFacts.

(** ** The invariant of [timekeeper] *)

Section Invariant.

Implicit Types (d : Dict.t) (line X Y : string) (lines : list string).

Lemma dict_ok_empty lines : dict_ok lines Dict.empty.
Proof.
  split; [apply NoDup_nil_2|]. intros k v Hin. by apply elem_of_nil in Hin.
Qed.

Lemma get_fields lines d X :
  dict_ok lines d →
  fname (Dict.get d X (new_dto X "rclone")) = X
  ∧ transferer (Dict.get d X (new_dto X "rclone")) = "rclone".
Proof.
  intros [_ Hall]. unfold Dict.get.
  destruct (Dict.lookup d X) as [v|] eqn:E; [|done].
  apply lookup_Some_elem, Hall in E as (? & ? & _). done.
Qed.

Lemma dict_ok_set lines d X v :
  dict_ok lines d → entry_ok lines X v → dict_ok lines (Dict.set d X v).
Proof.
  intros [Hnd Hall] Hv. split; [by apply NoDup_keys_set|].
  intros k v' [[-> ->]|Hin]%elem_set; [done | by apply Hall].
Qed.

Lemma on_start_dict_ok lines d line d' :
  dict_ok lines d → line ∈ lines → has_start_marker line = true →
  on_start d line = inr d' → dict_ok lines d'.
Proof.
  intros Hok Hin Hm (X & t & HX & Ht & ->)%on_start_inv.
  apply dict_ok_set; [done|].
  destruct (get_fields lines d X Hok) as [Hf Htr].
  split_and!; simpl; [done | done | left; by eexists |].
  exists line. auto.
Qed.

Lemma on_end_dict_ok lines d line d' :
  dict_ok lines d → line ∈ lines → has_end_marker line = true →
  on_end d line = inr d' → dict_ok lines d'.
Proof.
  intros Hok Hin Hm (X & t & HX & Ht & ->)%on_end_inv.
  apply dict_ok_set; [done|].
  destruct (get_fields lines d X Hok) as [Hf Htr].
  split_and!; simpl; [done | done | right; by eexists |].
  exists line. auto.
Qed.

Lemma body_dict_ok lines d line d' :
  dict_ok lines d → line ∈ lines → body d line = inr d' → dict_ok lines d'.
Proof.
  intros Hok Hin (d1 & H1 & H2)%body_inv.
  assert (dict_ok lines d1) as Hok1.
  { destruct (has_start_marker line) eqn:Hm.
    - by apply (on_start_dict_ok lines d line).
    - by injection H1 as <-. }
  destruct (has_end_marker line) eqn:Hm.
  - by apply (on_end_dict_ok lines d1 line).
  - by injection H2 as <-.
Qed.

Lemma scan_dict_ok lines d ls d' :
  dict_ok lines d → (∀ l, l ∈ ls → l ∈ lines) → scan d ls = inr d' →
  dict_ok lines d'.
Proof.
  revert d. induction ls as [|l ls IH]; intros d Hok Hsub.
  - by intros [= <-].
  - intros (d1 & Hb & Hs)%scan_cons_inv.
    apply (IH d1); [|intros; by apply Hsub, list_elem_of_further | done].
    apply (body_dict_ok lines d l); [done | apply Hsub, list_elem_of_here | done].
Qed.

(** With distinct keys naming their records, the records for [X] are the
    one entry under [X]. *)
Lemma records_for_lookup lines d X :
  dict_ok lines d →
  records_for X (Dict.values d)
  = match Dict.lookup d X with Some v => [v] | None => [] end.
Proof.
  unfold records_for, dict_ok, Dict.values, Dict.keys.
  induction d as [|[k v] d IH]; intros [Hnd Hall]; [done|].
  apply NoDup_cons in Hnd as [Hk Hnd]. simpl.
  assert (fname v = k) as Hf by (apply (Hall k v), list_elem_of_here).
  assert (Hd : NoDup (map fst d) ∧ ∀ k0 v0, (k0, v0) ∈ d → entry_ok lines k0 v0).
  { split; [done|]. intros k0 v0 ?. by apply Hall, list_elem_of_further. }
  specialize (IH Hd).
  destruct (String.eqb k X) eqn:E.
  - apply eqb_string_true in E as ->.
    rewrite filter_cons_True by done. f_equal. rewrite IH.
    destruct (Dict.lookup d X) eqn:El; [|done].
    exfalso. apply Hk. apply lookup_Some_elem in El.
    apply list_elem_of_fmap. by exists (X, t).
  - apply eqb_string_false in E.
    rewrite filter_cons_False by congruence. apply IH.
Qed.

Lemma NoDup_fnames lines d : dict_ok lines d → NoDup (map fname (Dict.values d)).
Proof.
  intros [Hnd Hall].
  replace (map fname (Dict.values d)) with (Dict.keys d); [done|].
  unfold Dict.values, Dict.keys. rewrite map_map.
  apply map_ext_in. intros [k v] Hin. simpl. symmetry.
  apply (Hall k v). by apply list_elem_of_In.
Qed.

End Invariant.

(** ** [parse_log] in terms of the loop *)

Lemma parse_log_stream fs (f : TextIO) :
  parse_log fs (inr f)
  = (try! d := scan Dict.empty (log_lines f) in ok (Dict.values d)).
Proof. reflexivity. Qed.

Lemma parse_log_inv fs (f : TextIO) recs :
  parse_log fs (inr f) = inr recs →
  ∃ d, scan Dict.empty (log_lines f) = inr d ∧ recs = Dict.values d
       ∧ dict_ok (log_lines f) d.
Proof.
  rewrite parse_log_stream. unfold rbind, ok.
  destruct (scan Dict.empty (log_lines f)) as [e|d] eqn:E; [done|].
  intros [= <-]. exists d. split_and!; [done | done |].
  by apply (scan_dict_ok _ Dict.empty (log_lines f)); [apply dict_ok_empty | | ].
Qed.

Lemma parse_log_path fs path content :
  fs !! path = Some content →
  parse_log fs (inl path)
  = parse_log fs (inr (mk_textio path (universal_newlines content) 0)).
Proof. intros H. unfold parse_log, open. by rewrite H. Qed.

(** ** Strings *)

Section StrFacts.

Implicit Types (s p r sep sub cur : string) (c : ascii).

Lemma app_cons c s p : String c s +:+ p = String c (s +:+ p).
Proof. reflexivity. Qed.

Lemma app_nil_l s : "" +:+ s = s.
Proof. reflexivity. Qed.

Lemma app_nil_r s : s +:+ "" = s.
Proof. induction s as [|c s IH]; [done|]. by rewrite app_cons, IH. Qed.

Lemma app_assoc s p r : (s +:+ p) +:+ r = s +:+ (p +:+ r).
Proof. induction s as [|c s IH]; [done|]. by rewrite !app_cons, IH. Qed.

Lemma rev_onto_app acc s : Str.rev_onto acc s = Str.rev s +:+ acc.
Proof.
  unfold Str.rev. revert acc. induction s as [|c s IH]; intros acc; [done|].
  simpl. rewrite (IH (String c acc)), (IH (String c "")).
  by rewrite app_assoc.
Qed.

Lemma rev_cons c s : Str.rev (String c s) = Str.rev s +:+ String c "".
Proof. unfold Str.rev at 1. simpl. apply rev_onto_app. Qed.

Lemma sforall_app P s p : sforall P (s +:+ p) = sforall P s && sforall P p.
Proof.
  induction s as [|c s IH]; [done|]. rewrite app_cons. simpl. rewrite IH. by rewrite andb_assoc.
Qed.

Lemma startswith_spec p s : Str.startswith p s = true → ∃ r, s = p +:+ r.
Proof.
  revert s. induction p as [|a p IH]; intros s; simpl.
  - intros _. by exists s.
  - destruct s as [|b s]; [done|].
    destruct (Ascii.eqb a b) eqn:E; [|done].
    apply Ascii.eqb_eq in E as ->.
    intros [r ->]%IH. by exists r.
Qed.

(** [find] succeeds only on a string that holds [sub]. *)
Lemma find_from_spec sub s i :
  Str.find_from sub s i ≠ -1 → ∃ a b, s = a +:+ sub +:+ b.
Proof.
  revert i. induction s as [|c s IH]; intros i; simpl.
  - destruct (Str.startswith sub "") eqn:E; [|done].
    intros _. apply startswith_spec in E as [r ->]. by exists "", r.
  - destruct (Str.startswith sub (String c s)) eqn:E.
    + intros _. apply startswith_spec in E as [r ->]. by exists "", r.
    + intros (a & b & ->)%IH. by exists (String c a), b.
Qed.

Lemma find_spec s sub :
  negb (Str.find s sub =? -1) = true → ∃ a b, s = a +:+ sub +:+ b.
Proof.
  intros H. apply (find_from_spec sub s 0).
  apply negb_true_iff, Z.eqb_neq in H. exact H.
Qed.

(** The first field of a split is the text before the first separator, or
    the whole string when there is none. *)
Lemma split_aux_head sep cur s :
  ∃ p rest, Str.split_aux sep 0 cur s = (Str.rev cur +:+ p) :: rest
            ∧ (s = p ∨ ∃ r, s = p +:+ sep +:+ r).
Proof.
  revert cur. induction s as [|c s IH]; intros cur.
  - exists "", []. simpl. rewrite app_nil_r. auto.
  - cbn [Str.split_aux]. destruct (Str.startswith sep (String c s)) eqn:E.
    + apply startswith_spec in E as [r Hr].
      exists "", (Str.split_aux sep (Str.len sep - 1) "" s).
      rewrite app_nil_r. split; [done|]. right. by exists r.
    + destruct (IH (String c cur)) as (p & rest & -> & Hp).
      exists (String c p), rest. split.
      * by rewrite rev_cons, app_assoc.
      * destruct Hp as [->|[r ->]]; [by left|]. right. by exists r.
Qed.

Lemma split_head s sep h :
  Str.getitem (Str.split s sep) 0 = inr h →
  s = h ∨ ∃ r, s = h +:+ sep +:+ r.
Proof.
  unfold Str.split. destruct (split_aux_head sep "" s) as (p & rest & -> & Hp).
  unfold Str.getitem. simpl. by intros [= <-].
Qed.

(** Stripping removes white space only. *)
Lemma lstrip_sforall P s :
  (∀ c, Str.isspace c = true → P c = true) →
  sforall P (Str.lstrip s) = true → sforall P s = true.
Proof.
  intros Hsp. induction s as [|c s IH]; simpl; [done|].
  destruct (Str.isspace c) eqn:E; [|done].
  intros H. by rewrite (Hsp c E), IH.
Qed.

Lemma rstrip_sforall P s :
  (∀ c, Str.isspace c = true → P c = true) →
  sforall P (Str.rstrip s) = true → sforall P s = true.
Proof.
  intros Hsp. induction s as [|c s IH]; simpl; [done|].
  destruct (Str.rstrip s) as [|c' r'] eqn:Er.
  - destruct (Str.isspace c) eqn:E.
    + intros _. by rewrite (Hsp c E), IH.
    + simpl. rewrite andb_true_r. intros ->. by rewrite IH.
  - simpl. intros [-> H]%andb_prop. by rewrite IH.
Qed.

Lemma strip_sforall P s :
  (∀ c, Str.isspace c = true → P c = true) →
  sforall P (Str.strip s) = true → sforall P s = true.
Proof.
  intros Hsp H. by apply lstrip_sforall, rstrip_sforall.
Qed.

End StrFacts.

(** ** [strptime] accepts timestamp characters only *)

Section StrptimeFacts.

Import Strptime.

Lemma consumes_pure {A} (a : A) : consumes_stamp (pure a).
Proof.
  intros s a' rest [= -> ->]%list_elem_of_singleton. by exists "".
Qed.

Lemma consumes_seq {A B} (m : Matcher A) (k : A → Matcher B) :
  consumes_stamp m → (∀ a, consumes_stamp (k a)) → consumes_stamp (seq m k).
Proof.
  intros Hm Hk s b rest Hin. unfold seq in Hin.
  apply list_elem_of_In, in_flat_map in Hin as ([a mid] & Ha & Hb).
  apply list_elem_of_In in Ha, Hb.
  destruct (Hm _ _ _ Ha) as (p1 & -> & Hp1).
  destruct (Hk a _ _ _ Hb) as (p2 & -> & Hp2).
  exists (p1 +:+ p2). split; [by rewrite app_assoc|].
  by rewrite sforall_app, Hp1, Hp2.
Qed.

Lemma consumes_alt {A} (m1 m2 : Matcher A) :
  consumes_stamp m1 → consumes_stamp m2 → consumes_stamp (alt m1 m2).
Proof.
  intros H1 H2 s a rest [Hin|Hin]%elem_of_app; [by apply (H1 s a) | by apply (H2 s a)].
Qed.

Lemma consumes_one (p : ascii → bool) :
  (∀ c, p c = true → stamp_char c = true) → consumes_stamp (one p).
Proof.
  intros Hp s a rest Hin. destruct s as [|c s]; simpl in Hin.
  - by apply elem_of_nil in Hin.
  - destruct (p c) eqn:E.
    + apply list_elem_of_singleton in Hin as [= -> ->].
      exists (String c ""). split; [done|]. simpl. by rewrite (Hp c E).
    + by apply elem_of_nil in Hin.
Qed.

Lemma consumes_cat (m1 m2 : Matcher string) :
  consumes_stamp m1 → consumes_stamp m2 → consumes_stamp (cat m1 m2).
Proof.
  intros H1 H2. apply consumes_seq; [done|]. intros a.
  apply consumes_seq; [done|]. intros b. apply consumes_pure.
Qed.

Lemma consumes_spaces : consumes_stamp spaces.
Proof.
  intros s. induction s as [|c s IH]; intros a rest Hin; simpl in Hin.
  - by apply elem_of_nil in Hin.
  - destruct (Str.isspace c) eqn:E; [|by apply elem_of_nil in Hin].
    assert (stamp_char c = true) as Hc.
    { unfold stamp_char. rewrite E. by rewrite !orb_true_r. }
    apply elem_of_app in Hin as [Hin|[= -> ->]%list_elem_of_singleton].
    + destruct (IH _ _ Hin) as (p & -> & Hp).
      exists (String c p). split; [done|]. simpl. by rewrite Hc.
    + exists (String c ""). split; [done|]. simpl. by rewrite Hc.
Qed.

Lemma consumes_digit : consumes_stamp digit.
Proof.
  apply consumes_one. intros c H. unfold stamp_char. by rewrite H.
Qed.

Lemma consumes_lit c : stamp_char c = true → consumes_stamp (lit c).
Proof.
  intros Hc. apply consumes_one. intros c' ->%Ascii.eqb_eq. done.
Qed.

(** A range inside 0..9 holds digits only. *)
Lemma consumes_range a b :
  (48 ≤ nat_of_ascii a)%nat → (nat_of_ascii b ≤ 57)%nat → consumes_stamp (range a b).
Proof.
  intros Ha Hb. apply consumes_one. intros c [H1 H2]%andb_prop.
  apply Nat.leb_le in H1, H2. unfold stamp_char, Str.isdigit.
  replace (48 <=? nat_of_ascii c)%nat with true by (symmetry; apply Nat.leb_le; lia).
  replace (nat_of_ascii c <=? 57)%nat with true by (symmetry; apply Nat.leb_le; lia).
  done.
Qed.

Local Ltac consumes :=
  repeat first
    [ apply consumes_alt | apply consumes_cat | apply consumes_digit
    | apply consumes_lit; reflexivity
    | apply consumes_range; vm_compute; lia ].

Lemma consumes_format_regex : consumes_stamp format_regex.
Proof.
  unfold format_regex.
  repeat (apply consumes_seq; [|intros ?]);
    try apply consumes_pure; try apply consumes_spaces;
    unfold re_Y, re_m, re_d, re_H, re_M, re_S; consumes.
Qed.

Lemma strptime_chars s t :
  Strptime.strptime s = Some t → sforall stamp_char s = true.
Proof.
  unfold Strptime.strptime.
  destruct (format_regex s) as [|[g rest] l] eqn:E; [done|].
  destruct rest; [|done]. intros _.
  destruct (consumes_format_regex s g "") as (p & -> & Hp).
  { rewrite E. apply list_elem_of_here. }
  by rewrite app_nil_r.
Qed.

End StrptimeFacts.

(** ** The two timestamp tokens of a line *)

Section Stamps.

Implicit Types (line level : string).

Lemma first_other_app h r :
  sforall stamp_char h = true → first_other (h +:+ r) = first_other r.
Proof.
  induction h as [|c h IH]; [done|]. simpl.
  intros [Hc Hh]%andb_prop. rewrite Hc. by apply IH.
Qed.

Lemma first_other_None s : sforall stamp_char s = true → first_other s = None.
Proof.
  induction s as [|c s IH]; [done|]. simpl.
  intros [-> Hs]%andb_prop. by apply IH.
Qed.

Lemma first_other_holds a sub b :
  sforall stamp_char sub = false → first_other (a +:+ sub +:+ b) ≠ None.
Proof.
  intros Hsub.
  assert (∀ s, first_other s = None → sforall stamp_char s = true) as Hconv.
  { induction s as [|c s IH]; [done|]. simpl.
    destruct (stamp_char c); [apply IH | done]. }
  intros H%Hconv. rewrite !sforall_app, Hsub in H.
  by rewrite andb_false_r in H.
Qed.

(** When the token before [level] parses, the line holds timestamp
    characters up to the first occurrence of [level], or throughout. *)
Lemma line_stamp_first_other level line t c lv :
  level = String c lv → stamp_char c = false →
  line_stamp level line = inr t →
  first_other line = None ∨ first_other line = Some c.
Proof.
  intros -> Hc. unfold line_stamp, rbind.
  destruct (Str.getitem (Str.split line (String c lv)) 0) as [e|h] eqn:Eh; [done|].
  unfold strptime. destruct (Strptime.strptime (Str.strip h)) as [t'|] eqn:Et; [|done].
  intros _. apply strptime_chars in Et.
  apply strip_sforall in Et; last first.
  { intros c' Hsp. unfold stamp_char. rewrite Hsp. by rewrite !orb_true_r. }
  apply split_head in Eh as [->|[r ->]].
  - left. by apply first_other_None.
  - right. rewrite first_other_app by done. rewrite app_cons. simpl. by rewrite Hc.
Qed.

(** No line gives a timestamp both before DEBUG and before INFO, unless it
    is made of timestamp characters only. *)
Lemma stamps_exclusive line t1 t2 :
  line_stamp "DEBUG" line = inr t1 → line_stamp "INFO" line = inr t2 →
  first_other line = None.
Proof.
  intros H1 H2.
  apply (line_stamp_first_other _ _ _ "D" "EBUG") in H1; [|done..].
  apply (line_stamp_first_other _ _ _ "I" "NFO") in H2; [|done..].
  destruct H1 as [?|H1], H2 as [?|H2]; try done. congruence.
Qed.

Lemma end_marker_first_other line :
  has_end_marker line = true → first_other line ≠ None.
Proof.
  intros (a & b & ->)%find_spec. by apply first_other_holds.
Qed.

Lemma start_marker_first_other line :
  has_start_marker line = true → first_other line ≠ None.
Proof.
  unfold has_start_marker.
  intros [(a & b & ->)%find_spec | (a & b & ->)%find_spec]%orb_prop;
    by apply first_other_holds.
Qed.

(** A line with the completion marker and a timestamp before INFO has no
    timestamp before DEBUG, and conversely. *)
Lemma both_markers_not_ok line :
  has_start_marker line = true → has_end_marker line = true →
  line_ok line = false.
Proof.
  intros Hs He. unfold line_ok. rewrite Hs, He.
  destruct (line_fname line) as [e|X]; [done|].
  destruct (line_stamp "DEBUG" line) as [e1|t1] eqn:E1; [done|].
  destruct (line_stamp "INFO" line) as [e2|t2] eqn:E2; [by rewrite andb_false_r|].
  exfalso. by apply (end_marker_first_other line He), (stamps_exclusive line t1 t2).
Qed.

End Stamps.

(** * The claims about [parse_log] *)

Lemma line_stamp_raises level line e : line_stamp level line = inl e → e = ValueError.
Proof.
  unfold line_stamp, rbind, Str.split.
  destruct (split_aux_head level "" line) as (p & rest & -> & _).
  unfold Str.getitem. simpl. unfold strptime.
  destruct (Strptime.strptime _); [done|]. by intros [= <-].
Qed.

Lemma unparsable_not_ok line : unparsable_stamp line → line_ok line = false.
Proof.
  unfold unparsable_stamp, line_ok.
  intros [[-> H]|[-> H]]; rewrite H; simpl.
  - by rewrite andb_false_r.
  - rewrite andb_false_r. apply andb_false_r.
Qed.

(** The first line with an unparsable token ends the scan with
    [ValueError] when it has a fourth field. *)
Lemma body_unparsable d line X :
  unparsable_stamp line → line_fname line = inr X → body d line = inl ValueError.
Proof.
  intros Hbad HX.
  destruct (body d line) as [e|d'] eqn:E.
  - f_equal. revert E. unfold body, on_start, on_end, rbind. rewrite HX.
    destruct (has_start_marker line);
      [destruct (line_stamp "DEBUG" line) as [e1|t1] eqn:E1;
        [intros [= <-]; by apply line_stamp_raises in E1|]|];
      (destruct (has_end_marker line);
        [destruct (line_stamp "INFO" line) as [e2|t2] eqn:E2;
          [intros [= <-]; by apply line_stamp_raises in E2| done]|done]).
  - apply body_returns_ok in E. apply unparsable_not_ok in Hbad. congruence.
Qed.

(** C1, as the code has it: the two lines of the example scenario parse to
    one record with start 10:00:00 and end 10:05:00, and its identity is
    the fourth colon-separated field of the lines, [msg]. *)
Theorem example_scenario_one_record fs name pos :
  parse_log fs (inr (mk_textio name example_log pos))
  = inr [mk_dto "msg" "rclone" (Some at_10_00_00) (Some at_10_05_00)].
Proof. reflexivity. Qed.

(** C1 as stated fails: the record of the example scenario does not carry
    the identity [foo]. *)
Lemma example_scenario_identity_not_foo :
  ¬ ∃ r, parse_log ∅ (inr (stream example_log)) = inr [r]
         ∧ fname r = "foo"
         ∧ start_time r = Some at_10_00_00
         ∧ end_time r = Some at_10_05_00.
Proof.
  intros (r & Hr & Hf & _). vm_compute in Hr.
  injection Hr as <-. discriminate Hf.
Qed.

Section Occurrences.

Context {A : Type} (P : A → Prop) `{!∀ x, Decision (P x)}.

Lemma first_such (l : list A) :
  (∃ x, x ∈ l ∧ P x) →
  ∃ pre x post, l = pre ++ x :: post ∧ P x ∧ Forall (fun y => ¬ P y) pre.
Proof.
  induction l as [|a l IH]; intros (x & Hin & Hx).
  - by apply elem_of_nil in Hin.
  - destruct (decide (P a)) as [Ha|Ha].
    + exists [], a, l. by split_and!.
    + apply elem_of_cons in Hin as [->|Hin]; [done|].
      destruct IH as (pre & y & post & -> & Hy & Hpre); [by exists x|].
      exists (a :: pre), y, post. split_and!; [done | done | by constructor].
Qed.

Lemma last_such (l : list A) :
  (∃ x, x ∈ l ∧ P x) →
  ∃ pre x post, l = pre ++ x :: post ∧ P x ∧ Forall (fun y => ¬ P y) post.
Proof.
  induction l as [|a l IH]; intros (x & Hin & Hx).
  - by apply elem_of_nil in Hin.
  - destruct (decide (Exists P l)) as [Hex|Hno].
    + apply Exists_exists in Hex as (y & Hy & HPy).
      destruct IH as (pre & z & post & -> & Hz & Hpost); [by exists y|].
      by exists (a :: pre), z, post.
    + apply not_Exists_Forall in Hno; [|done].
      apply elem_of_cons in Hin as [->|Hin].
      * by exists [], a, l.
      * exfalso. rewrite Forall_forall in Hno. by apply (Hno x).
Qed.

End Occurrences.

(** Refutes [is_start_for X l] or [is_end_for X l] on a given line. *)
Ltac not_for :=
  let H1 := fresh in let H2 := fresh in
  intros [H1 H2]; vm_compute in H1, H2;
  first [discriminate H1 | discriminate H2].

Lemma parse_log_raises fs (f : TextIO) :
  raised (scan Dict.empty (log_lines f)) = true →
  raised (parse_log fs (inr f)) = true.
Proof.
  rewrite parse_log_stream. unfold rbind.
  by destruct (scan Dict.empty (log_lines f)).
Qed.

Lemma parse_log_returns fs (f : TextIO) d :
  scan Dict.empty (log_lines f) = inr d →
  parse_log fs (inr f) = inr (Dict.values d).
Proof. rewrite parse_log_stream. by intros ->. Qed.

(** [parse_log] returns exactly on the logs all of whose lines are well
    formed. *)
Lemma parse_log_returns_iff fs (f : TextIO) :
  (∃ recs, parse_log fs (inr f) = inr recs)
  ↔ Forall (fun l => line_ok l = true) (log_lines f).
Proof.
  rewrite parse_log_stream, Forall_forall. split.
  - intros [recs H]. unfold rbind in H.
    destruct (scan Dict.empty (log_lines f)) as [e|d] eqn:E; [done|].
    by apply (scan_returns_ok Dict.empty _ d).
  - intros Hok. destruct (scan_total Dict.empty (log_lines f) Hok) as [d ->].
    by eexists.
Qed.

Lemma scan_result_ok (f : TextIO) d :
  scan Dict.empty (log_lines f) = inr d → dict_ok (log_lines f) d.
Proof.
  intros H. by apply (scan_dict_ok _ Dict.empty (log_lines f)); [apply dict_ok_empty | | ].
Qed.

Lemma dto_eta (v : TransferDTO) :
  v = mk_dto (fname v) (transferer v) (start_time v) (end_time v).
Proof. by destruct v. Qed.

(** C2, as the code has it: [parse_log] has no handler around [strptime].
    A line that holds a marker and an unparsable timestamp token makes
    [parse_log] raise: no record is returned and the lines after it are not
    scanned.  When the lines before it were scanned without error and the
    line has a fourth field, the exception is [ValueError]. *)
Theorem unparsable_stamp_aborts fs (f : TextIO) pre line post :
  log_lines f = pre ++ line :: post →
  unparsable_stamp line →
  raised (parse_log fs (inr f)) = true
  ∧ (Forall (fun l => line_ok l = true) pre →
     raised (line_fname line) = false →
     parse_log fs (inr f) = inl ValueError).
Proof.
  intros Hlines Hbad. split.
  - apply parse_log_raises, (scan_raises _ _ line).
    + rewrite Hlines. apply elem_of_app. right. apply list_elem_of_here.
    + by apply unparsable_not_ok.
  - intros Hpre Hf. rewrite parse_log_stream, Hlines, scan_app.
    destruct (scan_total Dict.empty pre) as [d ->].
    { by apply Forall_forall. }
    destruct (line_fname line) as [e|X] eqn:EX; [done|].
    simpl. by rewrite (body_unparsable d line X).
Qed.

Lemma unparsable_stamp_aborts_witness :
  raised (parse_log ∅ (inr (stream (copied_bar +:+ start_foo_dashes +:+ copied_foo)))) = true
  ∧ (Forall (fun l => line_ok l = true) [copied_bar] →
     raised (line_fname start_foo_dashes) = false →
     parse_log ∅ (inr (stream (copied_bar +:+ start_foo_dashes +:+ copied_foo)))
     = inl ValueError).
Proof.
  apply (unparsable_stamp_aborts ∅ _ [copied_bar] start_foo_dashes [copied_foo]).
  - reflexivity.
  - left. split; reflexivity.
Defined.

(** C2 as stated fails: the first line below holds a start marker and a
    date written with dashes.  Skipping it would leave the record of
    [bar]; [parse_log] raises [ValueError] instead. *)
Lemma unparsable_stamp_not_skipped :
  unparsable_stamp start_foo_dashes
  ∧ parse_log ∅ (inr (stream (start_foo_dashes +:+ copied_bar))) = inl ValueError
  ∧ parse_log ∅ (inr (stream copied_bar))
    = inr [mk_dto "bar" "rclone" None (Some at_10_06_30)].
Proof.
  split_and!; [left; split; reflexivity | reflexivity | reflexivity].
Qed.

(** C4, as the code has it: on a log all of whose marker lines have a
    fourth field and a parsable timestamp, a start line and a completion
    line for the same identity, in either order, give exactly one record
    for it; its start time is the one of the last start line for that
    identity and its end time the one of the last completion line. *)
Theorem start_and_end_merge fs (f : TextIO) X pre s post pre' c post' :
  Forall (fun l => line_ok l = true) (log_lines f) →
  log_lines f = pre ++ s :: post →
  is_start_for X s →
  Forall (fun l => ¬ is_start_for X l) post →
  log_lines f = pre' ++ c :: post' →
  is_end_for X c →
  Forall (fun l => ¬ is_end_for X l) post' →
  ∃ ts te,
    line_stamp "DEBUG" s = inr ts ∧ line_stamp "INFO" c = inr te
    ∧ ∃ recs, parse_log fs (inr f) = inr recs
              ∧ records_for X recs = [mk_dto X "rclone" (Some ts) (Some te)].
Proof.
  intros Hok Hs HsX Hpost Hc HcX Hpost'.
  destruct (scan_total Dict.empty (log_lines f)) as [d Hd].
  { by apply Forall_forall. }
  pose proof (scan_result_ok f d Hd) as Hdok.
  pose proof Hd as Hd'. rewrite Hs in Hd. rewrite Hc in Hd'.
  destruct (scan_last_start _ _ _ _ _ X Hd HsX) as (ts & Hts & Hstart).
  { by apply Forall_forall. }
  destruct (scan_last_end _ _ _ _ _ X Hd' HcX) as (te & Hte & Hend).
  { by apply Forall_forall. }
  exists ts, te. split_and!; [done..|].
  exists (Dict.values d). split; [by apply parse_log_returns; rewrite Hs|].
  rewrite (records_for_lookup _ _ X Hdok).
  unfold start_of in Hstart. unfold end_of in Hend.
  destruct (Dict.lookup d X) as [v|] eqn:Ev; [|done].
  destruct Hdok as [_ Hall].
  destruct (Hall X v (lookup_Some_elem _ _ _ Ev)) as (Hf & Htr & _).
  rewrite (dto_eta v). by rewrite Hf, Htr, Hstart, Hend.
Qed.

Lemma start_and_end_merge_witness :
  ∃ ts te,
    line_stamp "DEBUG" start_foo = inr ts ∧ line_stamp "INFO" copied_foo = inr te
    ∧ ∃ recs, parse_log ∅ (inr (stream (copied_foo +:+ copied_bar +:+ start_foo))) = inr recs
              ∧ records_for "foo" recs = [mk_dto "foo" "rclone" (Some ts) (Some te)].
Proof.
  apply (start_and_end_merge ∅ (stream (copied_foo +:+ copied_bar +:+ start_foo)) "foo"
           [copied_foo; copied_bar] start_foo [] [] copied_foo [copied_bar; start_foo]).
  - repeat constructor.
  - reflexivity.
  - split; reflexivity.
  - constructor.
  - reflexivity.
  - split; reflexivity.
  - repeat constructor; not_for.
Defined.

(** C4 as stated fails: the log below holds a start line and a completion
    line for [foo], and a third line with the completion marker but no
    fourth field; [parse_log] raises [IndexError] and returns no record. *)
Lemma start_and_end_lost_on_raise :
  log_lines (stream (start_foo +:+ copied_foo +:+ copied_summary))
  = [start_foo; copied_foo; copied_summary]
  ∧ is_start_for "foo" start_foo
  ∧ is_end_for "foo" copied_foo
  ∧ parse_log ∅ (inr (stream (start_foo +:+ copied_foo +:+ copied_summary)))
    = inl IndexError.
Proof. split_and!; [reflexivity | split; reflexivity | split; reflexivity | reflexivity]. Qed.

(** C6, as the code has it: on a log all of whose marker lines have a
    fourth field and a parsable timestamp, with a start line for [X] and no
    completion line for [X], the result holds exactly one record for [X];
    its start time is set and its end time is not. *)
Theorem start_only_record fs (f : TextIO) X s :
  Forall (fun l => line_ok l = true) (log_lines f) →
  s ∈ log_lines f →
  is_start_for X s →
  Forall (fun l => ¬ is_end_for X l) (log_lines f) →
  ∃ recs r, parse_log fs (inr f) = inr recs
            ∧ records_for X recs = [r] ∧ r ∈ recs
            ∧ is_Some (start_time r) ∧ end_time r = None.
Proof.
  intros Hok Hin HsX Hnoend.
  destruct (scan_total Dict.empty (log_lines f)) as [d Hd].
  { by apply Forall_forall. }
  pose proof (scan_result_ok f d Hd) as Hdok.
  destruct (last_such (is_start_for X) (log_lines f)) as (pre & s' & post & Hl & Hs' & Hpost).
  { by exists s. }
  pose proof Hd as Hd'. rewrite Hl in Hd'.
  destruct (scan_last_start _ _ _ _ _ X Hd' Hs') as (ts & Hts & Hstart).
  { by apply Forall_forall. }
  pose proof (scan_keeps_end _ _ _ X Hd) as Hend.
  rewrite Forall_forall in Hnoend. specialize (Hend Hnoend).
  unfold start_of in Hstart. unfold end_of in Hend. simpl in Hend.
  destruct (Dict.lookup d X) as [v|] eqn:Ev; [|done].
  assert (records_for X (Dict.values d) = [v]) as Hrec.
  { by rewrite (records_for_lookup _ _ X Hdok), Ev. }
  exists (Dict.values d), v. split_and!.
  - by apply parse_log_returns.
  - done.
  - assert (v ∈ records_for X (Dict.values d)) as Hv by (rewrite Hrec; apply list_elem_of_here).
    unfold records_for in Hv. by apply list_elem_of_filter in Hv as [_ ?].
  - by rewrite Hstart.
  - done.
Qed.

Lemma start_only_record_witness :
  ∃ recs r, parse_log ∅ (inr (stream (plain_line +:+ start_foo +:+ copied_bar))) = inr recs
            ∧ records_for "foo" recs = [r] ∧ r ∈ recs
            ∧ is_Some (start_time r) ∧ end_time r = None.
Proof.
  apply (start_only_record ∅ (stream (plain_line +:+ start_foo +:+ copied_bar)) "foo" start_foo).
  - repeat constructor.
  - apply list_elem_of_further, list_elem_of_here.
  - split; reflexivity.
  - repeat constructor; not_for.
Defined.

(** C6 as stated fails: the log below holds a start line for [foo], no
    completion line for [foo], and a completion line for [bar] logged at
    level NOTICE; [parse_log] raises [ValueError] and the record of [foo] is
    not returned. *)
Lemma start_only_lost_on_raise :
  log_lines (stream (start_foo +:+ copied_bar_notice)) = [start_foo; copied_bar_notice]
  ∧ is_start_for "foo" start_foo
  ∧ Forall (fun l => ¬ is_end_for "foo" l) [start_foo; copied_bar_notice]
  ∧ parse_log ∅ (inr (stream (start_foo +:+ copied_bar_notice))) = inl ValueError.
Proof.
  split_and!; [reflexivity | split; reflexivity | | reflexivity].
  repeat constructor; not_for.
Qed.

(** C7, as the code has it: on a log all of whose marker lines have a
    fourth field and a parsable timestamp, with two or more start lines for
    [X] (one is enough), [parse_log] returns, the result holds exactly one
    record for [X], and its start time is the timestamp of the last start
    line for [X]: the lines are taken in the order of the log and each
    start line overwrites [start_time]. *)
Theorem last_start_wins fs (f : TextIO) pre s post X :
  Forall (fun l => line_ok l = true) (log_lines f) →
  log_lines f = pre ++ s :: post →
  is_start_for X s →
  Forall (fun l => ¬ is_start_for X l) post →
  ∃ recs r t, parse_log fs (inr f) = inr recs
              ∧ records_for X recs = [r] ∧ r ∈ recs
              ∧ line_stamp "DEBUG" s = inr t ∧ start_time r = Some t.
Proof.
  intros Hok Hl HsX Hpost.
  destruct (scan_total Dict.empty (log_lines f)) as [d Hd].
  { by apply Forall_forall. }
  pose proof (scan_result_ok f d Hd) as Hdok.
  pose proof Hd as Hd'. rewrite Hl in Hd'.
  destruct (scan_last_start _ _ _ _ _ X Hd' HsX) as (t & Ht & Hstart).
  { by apply Forall_forall. }
  unfold start_of in Hstart.
  destruct (Dict.lookup d X) as [v|] eqn:Ev; [|done].
  assert (records_for X (Dict.values d) = [v]) as Hrec.
  { by rewrite (records_for_lookup _ _ X Hdok), Ev. }
  exists (Dict.values d), v, t. split_and!; [|done| |done..].
  - by apply parse_log_returns.
  - assert (v ∈ records_for X (Dict.values d)) as Hv
      by (rewrite Hrec; apply list_elem_of_here).
    unfold records_for in Hv. by apply list_elem_of_filter in Hv as [_ ?].
Qed.

Lemma last_start_wins_witness :
  ∃ recs r t,
    parse_log ∅ (inr (stream (start_foo +:+ start_foo_again +:+ copied_foo))) = inr recs
    ∧ records_for "foo" recs = [r] ∧ r ∈ recs
    ∧ line_stamp "DEBUG" start_foo_again = inr t ∧ start_time r = Some t.
Proof.
  apply (last_start_wins ∅ (stream (start_foo +:+ start_foo_again +:+ copied_foo))
           [start_foo] start_foo_again [copied_foo] "foo").
  - repeat constructor.
  - reflexivity.
  - split; reflexivity.
  - repeat constructor; not_for.
Defined.

(** C7 as stated fails: the log below holds two start lines for [foo], the
    last with its date written with dashes; [parse_log] raises [ValueError]
    and no record is returned for [foo]. *)
Lemma last_start_lost_on_raise :
  log_lines (stream (start_foo +:+ start_foo_dashes)) = [start_foo; start_foo_dashes]
  ∧ is_start_for "foo" start_foo
  ∧ is_start_for "foo" start_foo_dashes
  ∧ parse_log ∅ (inr (stream (start_foo +:+ start_foo_dashes))) = inl ValueError.
Proof.
  split_and!; [reflexivity | split; reflexivity | split; reflexivity | reflexivity].
Qed.

(** C8: a log none of whose lines holds a start marker or the completion
    marker parses to the empty collection, without an exception; so does
    the empty log. *)
Theorem no_markers_empty fs (f : TextIO) :
  Forall (fun l => has_start_marker l = false ∧ has_end_marker l = false) (log_lines f) →
  parse_log fs (inr f) = inr [].
Proof.
  intros Hno. rewrite parse_log_stream.
  rewrite (scan_no_marker Dict.empty (log_lines f)); [done|].
  by apply Forall_forall.
Qed.

Lemma no_markers_empty_witness :
  parse_log ∅ (inr (stream (plain_line +:+ plain_line))) = inr [].
Proof.
  apply (no_markers_empty ∅ (stream (plain_line +:+ plain_line))).
  repeat constructor.
Defined.

Example start_then_end :
  parse_log ∅ (inr (stream (start_foo +:+ copied_foo)))
  = inr [mk_dto "foo" "rclone" (Some at_10_00_00) (Some at_10_05_00)].
Proof. reflexivity. Qed.

Example end_then_start :
  parse_log ∅ (inr (stream (copied_foo +:+ start_foo)))
  = inr [mk_dto "foo" "rclone" (Some at_10_00_00) (Some at_10_05_00)].
Proof. reflexivity. Qed.

Example empty_log_empty fs name pos :
  parse_log fs (inr (mk_textio name "" pos)) = inr [].
Proof. reflexivity. Qed.

(** C9: every record [parse_log] returns names the backend [rclone], has
    at least one of its two times set, and carries as [fname] the identity
    read from the line that created it, the first marker line of the log
    with that identity (no entry for it exists before that line); no two
    records share an identity. *)
Theorem returned_records_invariant fs (f : TextIO) recs :
  parse_log fs (inr f) = inr recs →
  NoDup (map fname recs)
  ∧ Forall (fun r =>
      transferer r = "rclone"
      ∧ (is_Some (start_time r) ∨ is_Some (end_time r))
      ∧ ∃ pre line post d0,
          log_lines f = pre ++ line :: post
          ∧ (has_start_marker line = true ∨ has_end_marker line = true)
          ∧ line_fname line = inr (fname r)
          ∧ scan Dict.empty pre = inr d0
          ∧ Dict.lookup d0 (fname r) = None) recs.
Proof.
  intros (d & Hd & -> & Hdok)%parse_log_inv.
  split; [by apply (NoDup_fnames (log_lines f))|].
  apply Forall_forall. intros r Hr.
  apply list_elem_of_fmap in Hr as ([k v] & -> & Hkv). simpl.
  destruct Hdok as [_ Hall].
  destruct (Hall k v Hkv) as (Hf & Htr & Htimes & line & Hin & Hm & Hfn).
  split_and!; [done..|]. rewrite Hf.
  destruct (first_such (fun l => is_start_for k l ∨ is_end_for k l) (log_lines f))
    as (pre & l1 & post & Hl & Hl1 & Hpre).
  { exists line. split; [done|]. unfold is_start_for, is_end_for. tauto. }
  rewrite Hl in Hd. apply scan_app_inv in Hd as (d0 & Hd0 & _).
  exists pre, l1, post, d0. split_and!; [done | | | done |].
  - unfold is_start_for, is_end_for in Hl1. tauto.
  - unfold is_start_for, is_end_for in Hl1. tauto.
  - destruct (Dict.lookup d0 k) as [v0|] eqn:E0; [|done]. exfalso.
    assert (is_Some (Dict.lookup d0 k)) as Hsome by (by rewrite E0).
    apply (scan_presence _ _ _ k Hd0) in Hsome as [[? [=]]|(l & Hlin & Hl')].
    rewrite Forall_forall in Hpre. by apply (Hpre l).
Qed.

Lemma returned_records_invariant_witness :
  NoDup (map fname [mk_dto "bar" "rclone" None (Some at_10_06_30);
                    mk_dto "foo" "rclone" (Some at_10_00_00) (Some at_10_05_00)])
  ∧ Forall (fun r =>
      transferer r = "rclone"
      ∧ (is_Some (start_time r) ∨ is_Some (end_time r))
      ∧ ∃ pre line post d0,
          log_lines (stream (copied_bar +:+ start_foo +:+ copied_foo)) = pre ++ line :: post
          ∧ (has_start_marker line = true ∨ has_end_marker line = true)
          ∧ line_fname line = inr (fname r)
          ∧ scan Dict.empty pre = inr d0
          ∧ Dict.lookup d0 (fname r) = None)
      [mk_dto "bar" "rclone" None (Some at_10_06_30);
       mk_dto "foo" "rclone" (Some at_10_00_00) (Some at_10_05_00)].
Proof.
  apply (returned_records_invariant ∅ (stream (copied_bar +:+ start_foo +:+ copied_foo))).
  reflexivity.
Defined.

(** C10, as the code has it: the two tests are two [if] statements, so a
    line holding a start marker and the completion marker enters the start
    block and then, when that block did not raise, the completion block.
    The start block reads its timestamp before DEBUG and the completion
    block before INFO; no line has a timestamp at both places, so one of the
    two blocks raises: on such a line [parse_log] sets neither both times
    nor returns, it raises. *)
Theorem both_markers_raise fs (f : TextIO) line :
  line ∈ log_lines f →
  has_start_marker line = true →
  has_end_marker line = true →
  (∀ d, body d line = (try! d1 := on_start d line in on_end d1 line))
  ∧ (∀ d, raised (body d line) = true)
  ∧ raised (parse_log fs (inr f)) = true.
Proof.
  intros Hin Hs He. pose proof (both_markers_not_ok line Hs He) as Hbad.
  split_and!.
  - intros d. unfold body. by rewrite Hs, He.
  - intros d. destruct (body d line) as [e|d'] eqn:E; [done|].
    apply body_returns_ok in E. congruence.
  - by apply parse_log_raises, (scan_raises _ _ line).
Qed.

Lemma both_markers_raise_witness :
  (∀ d, body d start_copied_txt
        = (try! d1 := on_start d start_copied_txt in on_end d1 start_copied_txt))
  ∧ (∀ d, raised (body d start_copied_txt) = true)
  ∧ raised (parse_log ∅ (inr (stream (start_foo +:+ start_copied_txt)))) = true.
Proof.
  apply (both_markers_raise ∅ (stream (start_foo +:+ start_copied_txt)) start_copied_txt).
  - apply list_elem_of_further, list_elem_of_here.
  - reflexivity.
  - reflexivity.
Defined.

(** C10 as stated fails: the start line of the file [Copied.txt] holds both
    markers.  Its start block alone gives a record with a start time; the
    line as a whole makes [parse_log] raise [ValueError], and no record with
    both times comes out of it. *)
Lemma both_markers_no_record :
  has_start_marker start_copied_txt = true
  ∧ has_end_marker start_copied_txt = true
  ∧ on_start Dict.empty start_copied_txt
    = inr [("Copied.txt", mk_dto "Copied.txt" "rclone" (Some at_10_00_00) None)]
  ∧ parse_log ∅ (inr (stream start_copied_txt)) = inl ValueError.
Proof. split_and!; reflexivity. Qed.

(** * The claims about [run_automation] *)

Section FileFacts.

Implicit Types (fs : FileSystem) (p : string) (i j : nat).

Lemma by_path_lookup fs p : by_path fs !! p = read_file fs <$> entries fs !! p.
Proof. apply lookup_fmap. Qed.

Lemma by_path_None fs p : by_path fs !! p = None ↔ entries fs !! p = None.
Proof. rewrite by_path_lookup. apply fmap_None. Qed.

(** A path reads the same when it names the same file and that file has
    the same text. *)
Lemma by_path_frame fs fs' p :
  entries fs' !! p = entries fs !! p →
  (∀ j, entries fs !! p = Some j → contents fs' !! j = contents fs !! j) →
  by_path fs' !! p = by_path fs !! p.
Proof.
  intros He Hc. rewrite !by_path_lookup, He.
  destruct (entries fs !! p) as [j|] eqn:E; [|done]. simpl.
  unfold read_file. by rewrite (Hc j).
Qed.

Lemma new_file_unnamed fs p : entries fs !! p ≠ Some (new_file fs).
Proof.
  intros Hp.
  apply (is_fresh (map_img (entries fs) ∪ dom (contents fs) : gset nat)).
  apply elem_of_union_l, elem_of_map_img. by exists p.
Qed.

Lemma new_file_empty fs : contents fs !! new_file fs = None.
Proof.
  apply not_elem_of_dom. intros Hd.
  apply (is_fresh (map_img (entries fs) ∪ dom (contents fs) : gset nat)).
  by apply elem_of_union_r.
Qed.

(** Writing to a file that no path names shows under no path. *)
Lemma by_path_write_unnamed fs i txt :
  (∀ p, entries fs !! p ≠ Some i) →
  by_path (mk_fs (entries fs) (<[i := txt]> (contents fs))) = by_path fs.
Proof.
  intros Hi. apply map_eq. intros p. apply by_path_frame; [done|].
  intros j Hj. simpl. rewrite lookup_insert_ne; [done|]. intros ->. by apply (Hi p).
Qed.

(** A new file under a path shows under that path alone. *)
Lemma by_path_create fs p txt :
  by_path (mk_fs (<[p := new_file fs]> (entries fs))
                 (<[new_file fs := txt]> (contents fs)))
  = <[p := txt]> (by_path fs).
Proof.
  apply map_eq. intros q. destruct (decide (q = p)) as [->|Hq].
  - rewrite lookup_insert_eq, by_path_lookup. simpl. rewrite lookup_insert_eq. simpl.
    unfold read_file. simpl. by rewrite lookup_insert_eq.
  - rewrite lookup_insert_ne by done. apply by_path_frame; simpl.
    + by rewrite lookup_insert_ne.
    + intros j Hj. rewrite lookup_insert_ne; [done|]. intros <-.
      by apply (new_file_unnamed fs q).
Qed.

Lemma by_path_delete fs p :
  by_path (mk_fs (delete p (entries fs)) (contents fs)) = delete p (by_path fs).
Proof.
  unfold by_path. simpl. by rewrite fmap_delete.
Qed.

End FileFacts.

Section RunFacts.

Variable ExecutionDTO : Type.
Variable shell_executor :
  list string → FileSystem → FileSystem * Res ExecutionDTO.

Implicit Types (w : World) (self : RcloneAutomation).

Lemma mkstemp_inner_spec fs dir pre suf cands :
  match mkstemp_inner fs dir pre suf cands with
  | (_, inl e) => e = FileExistsError
  | (_, inr file) => fs !! file = None
  end.
Proof.
  induction cands as [|n cands IH]; simpl; [done|].
  by destruct (fs !! path_join dir (pre +:+ n +:+ suf)) eqn:E.
Qed.

Lemma NamedTemporaryFile_spec pre suf del w :
  match NamedTemporaryFile pre suf del w with
  | (w', inl e) =>
      e = FileExistsError ∧ spawned w' = spawned w ∧ fsys w' = fsys w
      ∧ tmpdir w' = tmpdir w
  | (w', inr f) =>
      tf_delete f = del ∧ spawned w' = spawned w
      ∧ disk w !! tf_name f = None
      ∧ disk w' = <[tf_name f := ""]> (disk w)
      ∧ tf_file f = new_file (fsys w)
      ∧ fsys w' = mk_fs (<[tf_name f := tf_file f]> (entries (fsys w)))
                        (<[tf_file f := ""]> (contents (fsys w)))
      ∧ tmpdir w' = tmpdir w
  end.
Proof.
  unfold NamedTemporaryFile.
  pose proof (mkstemp_inner_spec (disk w) (tmpdir w) pre suf (names w)) as H.
  destruct (mkstemp_inner _ _ _ _ _) as [cands [e|file]]; [done|].
  simpl. split_and!; [done..| |done|done|done].
  unfold disk. simpl. apply by_path_create.
Qed.

(** The keys [_generate_rclone_cfg] reads, in the order it reads them. *)
Lemma generate_rclone_cfg_spec self w :
  match _generate_rclone_cfg self w with
  | (w', inl e) =>
      spawned w' = spawned w
      ∧ ((∃ k, k ∈ REQUIRED_KEYS ∧ config self !! k = None ∧ e = KeyError k)
         ∨ (e = FileExistsError
            ∧ ∀ k, k ∈ ["source_token"; "source_secret"; "source_s3_endpoint";
                        "dest_token"; "dest_secret"; "dest_s3_endpoint"] →
                   is_Some (config self !! k)))
  | (w', inr f) =>
      spawned w' = spawned w ∧ tf_delete f = true
      ∧ is_Some (disk w' !! tf_name f)
      ∧ ∀ k, k ∈ ["source_token"; "source_secret"; "source_s3_endpoint";
                  "dest_token"; "dest_secret"; "dest_s3_endpoint"] →
             is_Some (config self !! k)
  end.
Proof.
  unfold _generate_rclone_cfg, mbind', lift, getkey, mret, ok, raise.
  destruct (config self !! "source_token") eqn:E1;
    [|split; [done|]; left; eexists; split_and!; [|done..]; set_solver].
  destruct (config self !! "source_secret") eqn:E2;
    [|split; [done|]; left; eexists; split_and!; [|done..]; set_solver].
  destruct (config self !! "source_s3_endpoint") eqn:E3;
    [|split; [done|]; left; eexists; split_and!; [|done..]; set_solver].
  destruct (config self !! "dest_token") eqn:E4;
    [|split; [done|]; left; eexists; split_and!; [|done..]; set_solver].
  destruct (config self !! "dest_secret") eqn:E5;
    [|split; [done|]; left; eexists; split_and!; [|done..]; set_solver].
  destruct (config self !! "dest_s3_endpoint") eqn:E6;
    [|split; [done|]; left; eexists; split_and!; [|done..]; set_solver].
  pose proof (NamedTemporaryFile_spec "rclone_" ".conf" true w) as HN.
  destruct (NamedTemporaryFile "rclone_" ".conf" true w) as [w1 [e|f]].
  - destruct HN as (-> & Hsp & _). split; [done|]. right. split; [done|].
    intros k Hk. repeat (apply elem_of_cons in Hk as [->|Hk]; [by eexists|]).
    by apply elem_of_nil in Hk.
  - destruct HN as (Hdel & Hsp & Hfresh & _ & _ & Hfs & _). simpl.
    split_and!; [done | done | |].
    + unfold disk. simpl. rewrite by_path_lookup. simpl.
      rewrite Hfs. simpl. rewrite lookup_insert_eq. by eexists.
    + intros k Hk. repeat (apply elem_of_cons in Hk as [->|Hk]; [by eexists|]).
      by apply elem_of_nil in Hk.
Qed.

(** [run_automation] is its prologue followed by the call of the executor,
    the removal of the configuration file and the parse of the log. *)
Lemma run_automation_prologue self w :
  run_automation ExecutionDTO shell_executor self w
  = match run_prologue self w with
    | (w1, inl e) => (w1, inl e)
    | (w1, inr (logf, cfgf, cmd)) =>
        (do! exdto := call_shell_executor ExecutionDTO shell_executor cmd in
         do! _ := close cfgf in
         do! vals := (fun w => (w, parse_log (disk w) (inr (stream_of logf w)))) in
         mret vals) w1
    end.
Proof.
  unfold run_automation, run_prologue, mbind', lift, mret.
  destruct (getkey (config self) "source_s3_bucket"); [done|].
  destruct (getkey (config self) "source_s3_region"); [done|].
  destruct (getkey (config self) "dest_s3_bucket"); [done|].
  destruct (getkey (config self) "dest_s3_region"); [done|].
  destruct (NamedTemporaryFile "rclone_" ".log" false w) as [w1 [e|logf]]; [done|].
  by destruct (_generate_rclone_cfg self w1) as [w2 [e|cfgf]].
Qed.

(** The prologue hands nothing to the executor, and it stops at the first
    key it does not find. *)
Lemma run_prologue_spec self w :
  match run_prologue self w with
  | (w1, inl e) =>
      spawned w1 = spawned w
      ∧ ((∃ k, k ∈ REQUIRED_KEYS ∧ config self !! k = None ∧ e = KeyError k)
         ∨ (e = FileExistsError
            ∧ ((NamedTemporaryFile "rclone_" ".log" false w).2 = inl FileExistsError
               ∨ ∀ k, k ∈ REQUIRED_KEYS → is_Some (config self !! k))))
  | (w1, inr (logf, cfgf, cmd)) =>
      spawned w1 = spawned w ∧ tf_delete cfgf = true
      ∧ is_Some (disk w1 !! tf_name cfgf)
      ∧ ∀ k, k ∈ REQUIRED_KEYS → is_Some (config self !! k)
  end.
Proof.
  unfold run_prologue, mbind', lift, getkey, mret, ok, raise.
  destruct (config self !! "source_s3_bucket") eqn:E1;
    [|split; [done|]; left; eexists; split_and!; [|done..]; set_solver].
  destruct (config self !! "source_s3_region") eqn:E2;
    [|split; [done|]; left; eexists; split_and!; [|done..]; set_solver].
  destruct (config self !! "dest_s3_bucket") eqn:E3;
    [|split; [done|]; left; eexists; split_and!; [|done..]; set_solver].
  destruct (config self !! "dest_s3_region") eqn:E4;
    [|split; [done|]; left; eexists; split_and!; [|done..]; set_solver].
  pose proof (NamedTemporaryFile_spec "rclone_" ".log" false w) as HN.
  destruct (NamedTemporaryFile "rclone_" ".log" false w) as [w1 [e|logf]].
  { destruct HN as (-> & Hsp & _). split; [done|]. right. split; [done | by left]. }
  destruct HN as (_ & Hsp & _).
  pose proof (generate_rclone_cfg_spec self w1) as HG.
  destruct (_generate_rclone_cfg self w1) as [w2 [e|cfgf]].
  - destruct HG as (Hsp2 & [He|(-> & Hkeys)]); (split; [congruence|]); [by left|].
    right. split; [done|]. right.
    intros k Hk. unfold REQUIRED_KEYS in Hk.
    repeat (apply elem_of_cons in Hk as [->|Hk];
            [first [by eexists | apply Hkeys; set_solver]|]).
    by apply elem_of_nil in Hk.
  - destruct HG as (Hsp2 & Hdel & Hex & Hkeys).
    split_and!; [congruence | done | done |].
    intros k Hk. unfold REQUIRED_KEYS in Hk.
    repeat (apply elem_of_cons in Hk as [->|Hk];
            [first [by eexists | apply Hkeys; set_solver]|]).
    by apply elem_of_nil in Hk.
Qed.

End RunFacts.

(** C3, as the code has it: [run_automation] removes the configuration
    file with an explicit [close] placed after the call of the executor;
    there is no handler around that call.  The file exists when the executor
    is called.  Whenever the executor returns, with whatever exit status of
    the process, the file is gone when [run_automation] ends, also when the
    removal itself or the parse of the log raises afterwards.  When the
    executor raises, [run_automation] ends there with that exception and
    leaves the files as the executor left them. *)
Theorem config_file_after_run
    (ExecutionDTO : Type)
    (shell_executor : list string → FileSystem → FileSystem * Res ExecutionDTO)
    (self : RcloneAutomation) (w w1 : World) (logf cfgf : TempFile)
    (cmd : list string) :
  run_prologue self w = (w1, inr (logf, cfgf, cmd)) →
  is_Some (disk w1 !! tf_name cfgf)
  ∧ match shell_executor cmd (fsys w1) with
    | (fs2, inr x) =>
        disk (run_automation ExecutionDTO shell_executor self w).1 !! tf_name cfgf = None
    | (fs2, inl e) =>
        (run_automation ExecutionDTO shell_executor self w).2 = inl e
        ∧ fsys (run_automation ExecutionDTO shell_executor self w).1 = fs2
    end.
Proof.
  intros Hpro.
  pose proof (run_prologue_spec self w) as Hspec. rewrite Hpro in Hspec.
  destruct Hspec as (_ & Hdel & Hsome & _). split; [done|].
  rewrite run_automation_prologue, Hpro.
  unfold mbind', call_shell_executor, close, unlink, mret. rewrite Hdel.
  destruct (shell_executor cmd (fsys w1)) as [fs2 [e|x]]; simpl; [done|].
  unfold disk. simpl.
  destruct (by_path fs2 !! tf_name cfgf) eqn:E; simpl; [|done].
  destruct (parse_log _ _); simpl; rewrite by_path_delete; apply lookup_delete_eq.
Qed.

Lemma config_file_after_run_witness :
  is_Some (disk (run_prologue demo_automation demo_world).1 !! "/tmp/rclone_p0q7zz.conf")
  ∧ disk (run_automation Z returning_executor demo_automation demo_world).1
      !! "/tmp/rclone_p0q7zz.conf" = None.
Proof.
  apply (config_file_after_run Z returning_executor
           demo_automation demo_world (run_prologue demo_automation demo_world).1
           demo_log_file demo_config_file demo_cmd).
  vm_compute. reflexivity.
Defined.

(** C3 as stated fails: when the executor raises, [run_automation] ends at
    the call and the configuration file it created, with the credentials in
    it, is still there. *)
Lemma config_left_when_executor_raises :
  (run_prologue demo_automation demo_world).2
  = inr (demo_log_file, demo_config_file, demo_cmd)
  ∧ disk demo_world !! tf_name demo_config_file = None
  ∧ (run_automation Z raising_executor demo_automation demo_world).2
    = inl (OtherError "rclone: command not found")
  ∧ is_Some (disk (run_automation Z raising_executor demo_automation demo_world).1
               !! tf_name demo_config_file).
Proof.
  split_and!; [by vm_compute | by vm_compute | by vm_compute |].
  vm_compute. by eexists.
Qed.

(** C5, as the code has it: with one of the ten keys missing from the
    configuration, [run_automation] raises before anything is handed to the
    executor.  It reads the four location keys, then makes the temporary
    log file, then reads the six credential keys.  The exception is the
    [KeyError] of a missing key when a location key is missing or the log
    file can be made.  When the location keys are there and the log file
    cannot be made, the exception is the error of that creation, and the
    missing credential key is not reported. *)
Theorem missing_key_fails_before_spawn
    (ExecutionDTO : Type)
    (shell_executor : list string → FileSystem → FileSystem * Res ExecutionDTO)
    (self : RcloneAutomation) (w : World) (k : string) :
  k ∈ REQUIRED_KEYS →
  config self !! k = None →
  ∃ e, (run_automation ExecutionDTO shell_executor self w).2 = inl e
       ∧ spawned (run_automation ExecutionDTO shell_executor self w).1 = spawned w
       ∧ ((∃ k', k' ∈ LOCATION_KEYS ∧ config self !! k' = None)
          ∨ (∃ f, (NamedTemporaryFile "rclone_" ".log" false w).2 = inr f) →
          ∃ k', k' ∈ REQUIRED_KEYS ∧ config self !! k' = None ∧ e = KeyError k')
       ∧ (∀ e', Forall (fun k' => is_Some (config self !! k')) LOCATION_KEYS →
                (NamedTemporaryFile "rclone_" ".log" false w).2 = inl e' →
                e = e').
Proof.
  intros Hk Hmiss.
  unfold run_automation, mbind', lift, getkey, mret, ok, raise.
  assert (∀ k0 : string, k0 ∈ LOCATION_KEYS → config self !! k0 = None →
          ¬ Forall (fun k' => is_Some (config self !! k')) LOCATION_KEYS) as Hno.
  { intros k0 Hk0 Hnone Hall. rewrite Forall_forall in Hall.
    destruct (Hall k0 Hk0) as [v Hv]. congruence. }
  destruct (config self !! "source_s3_bucket") eqn:E1;
    [|eexists; split_and!; [done | done | | ];
      [intros _; eexists; split_and!; [|done..]; set_solver
      |intros e' Hall; exfalso; revert Hall; apply (Hno "source_s3_bucket"); [set_solver|done]]].
  destruct (config self !! "source_s3_region") eqn:E2;
    [|eexists; split_and!; [done | done | | ];
      [intros _; eexists; split_and!; [|done..]; set_solver
      |intros e' Hall; exfalso; revert Hall; apply (Hno "source_s3_region"); [set_solver|done]]].
  destruct (config self !! "dest_s3_bucket") eqn:E3;
    [|eexists; split_and!; [done | done | | ];
      [intros _; eexists; split_and!; [|done..]; set_solver
      |intros e' Hall; exfalso; revert Hall; apply (Hno "dest_s3_bucket"); [set_solver|done]]].
  destruct (config self !! "dest_s3_region") eqn:E4;
    [|eexists; split_and!; [done | done | | ];
      [intros _; eexists; split_and!; [|done..]; set_solver
      |intros e' Hall; exfalso; revert Hall; apply (Hno "dest_s3_region"); [set_solver|done]]].
  assert (¬ ∃ k', k' ∈ LOCATION_KEYS ∧ config self !! k' = None) as Hloc.
  { intros (k' & Hk' & Hnone). unfold LOCATION_KEYS in Hk'.
    repeat (apply elem_of_cons in Hk' as [->|Hk']; [congruence|]).
    by apply elem_of_nil in Hk'. }
  pose proof (NamedTemporaryFile_spec "rclone_" ".log" false w) as HN.
  destruct (NamedTemporaryFile "rclone_" ".log" false w) as [w1 [e|logf]].
  { destruct HN as (-> & Hsp & _). simpl. eexists. split_and!; [done | done | |].
    - intros [H|[f Hf]]; [by destruct Hloc | done].
    - by intros e' _ [= <-]. }
  destruct HN as (_ & Hsp & _). simpl.
  unfold _generate_rclone_cfg, mbind', lift, getkey, mret, ok, raise.
  repeat (match goal with
          | |- context [config self !! ?k'] =>
              destruct (config self !! k') eqn:?;
              [|simpl; eexists; split_and!; [done | done | | done];
                intros _; eexists; split_and!; [|done..]; set_solver]
          end).
  exfalso. unfold REQUIRED_KEYS in Hk.
  repeat (apply elem_of_cons in Hk as [->|Hk]; [congruence|]).
  by apply elem_of_nil in Hk.
Qed.

Lemma missing_key_fails_before_spawn_witness :
  ∃ e, (run_automation Z returning_executor demo_automation_no_secret demo_world).2 = inl e
       ∧ spawned (run_automation Z returning_executor demo_automation_no_secret demo_world).1
         = spawned demo_world
       ∧ ((∃ k', k' ∈ LOCATION_KEYS ∧ config demo_automation_no_secret !! k' = None)
          ∨ (∃ f, (NamedTemporaryFile "rclone_" ".log" false demo_world).2 = inr f) →
          ∃ k', k' ∈ REQUIRED_KEYS
                ∧ config demo_automation_no_secret !! k' = None ∧ e = KeyError k')
       ∧ (∀ e', Forall (fun k' => is_Some (config demo_automation_no_secret !! k'))
                  LOCATION_KEYS →
                (NamedTemporaryFile "rclone_" ".log" false demo_world).2 = inl e' →
                e = e').
Proof.
  apply (missing_key_fails_before_spawn Z returning_executor
           demo_automation_no_secret demo_world "dest_secret").
  - unfold REQUIRED_KEYS. repeat constructor.
  - vm_compute. reflexivity.
Defined.

(** C5 as stated fails: the configuration below lacks [dest_secret], and
    in a world where the name [tempfile] tries for the log file is taken
    the run ends in [FileExistsError]; the missing key is not reported.
    Where the name is free the same configuration gives the [KeyError]. *)
Lemma missing_key_not_reported :
  config demo_automation_no_secret !! "dest_secret" = None
  ∧ (run_automation Z returning_executor demo_automation_no_secret crowded_world).2
    = inl FileExistsError
  ∧ spawned (run_automation Z returning_executor demo_automation_no_secret crowded_world).1
    = []
  ∧ (run_automation Z returning_executor demo_automation_no_secret demo_world).2
    = inl (KeyError "dest_secret").
Proof. split_and!; by vm_compute. Qed.

Example missing_secret_is_key_error :
  (run_automation Z returning_executor demo_automation_no_secret demo_world).2
  = inl (KeyError "dest_secret").
Proof. by vm_compute. Qed.

(** * Further properties of [parse_log] *)

Section Outcome.

Implicit Types (d : Dict.t) (line : string) (lines : list string).

Lemma line_fname_raises line e : line_fname line = inl e → e = IndexError.
Proof.
  unfold line_fname, rbind, Str.getitem.
  destruct (Str.split line ":" !! 3%nat); [done|]. by intros [= <-].
Qed.

(** The exception of an iteration: [IndexError] when the line has no fourth
    field, [ValueError] otherwise. *)
Lemma body_raises d line e :
  body d line = inl e →
  line_ok line = false
  ∧ e = (if raised (line_fname line) then IndexError else ValueError).
Proof.
  intros H. split.
  - destruct (line_ok line) eqn:E; [|done].
    destruct (body_total d line E) as [d' Hd']. congruence.
  - revert H. unfold body, on_start, on_end, rbind.
    destruct (line_fname line) as [e0|X] eqn:EX; simpl.
    + apply line_fname_raises in EX as ->.
      destruct (has_start_marker line); [by intros [= <-]|].
      destruct (has_end_marker line); [by intros [= <-] | done].
    + destruct (has_start_marker line);
        [destruct (line_stamp "DEBUG" line) as [e1|t1] eqn:E1;
          [intros [= <-]; by apply line_stamp_raises in E1|]|];
        (destruct (has_end_marker line);
          [destruct (line_stamp "INFO" line) as [e2|t2] eqn:E2;
            [intros [= <-]; by apply line_stamp_raises in E2 | done] | done]).
Qed.

Lemma scan_raises_inv d lines e :
  scan d lines = inl e →
  ∃ pre line post,
    lines = pre ++ line :: post
    ∧ Forall (fun l => line_ok l = true) pre
    ∧ line_ok line = false
    ∧ e = (if raised (line_fname line) then IndexError else ValueError).
Proof.
  revert d. induction lines as [|l lines IH]; intros d; simpl; [done|].
  unfold rbind. destruct (body d l) as [e0|d1] eqn:Eb.
  - intros [= ->]. apply body_raises in Eb as [Hbad He].
    exists [], l, lines. by split_and!.
  - intros (pre & line & post & -> & Hpre & Hbad & He)%IH.
    exists (l :: pre), line, post. split_and!; [done | | done | done].
    constructor; [by apply body_returns_ok in Eb | done].
Qed.

End Outcome.

(** X1: [parse_log] on a stream returns exactly when every line that holds
    a marker has a fourth colon-separated field and a parsable timestamp
    before its level tag; otherwise the exception is the one of the first
    line that does not: [IndexError] when that line has no fourth field,
    [ValueError] when its timestamp does not parse. *)
Theorem parse_log_outcome fs (f : TextIO) :
  match parse_log fs (inr f) with
  | inr recs => Forall (fun l => line_ok l = true) (log_lines f)
  | inl e =>
      ∃ pre line post,
        log_lines f = pre ++ line :: post
        ∧ Forall (fun l => line_ok l = true) pre
        ∧ line_ok line = false
        ∧ e = (if raised (line_fname line) then IndexError else ValueError)
  end.
Proof.
  rewrite parse_log_stream. unfold rbind.
  destruct (scan Dict.empty (log_lines f)) as [e|d] eqn:E.
  - by apply scan_raises_inv in E.
  - simpl. apply Forall_forall. by apply (scan_returns_ok Dict.empty _ d).
Qed.

Section Fields.

Implicit Types (s cur line : string).

Lemma split_colon_length cur s :
  length (Str.split_aux ":" 0 cur s) = S (count_char ":" s).
Proof.
  revert cur. induction s as [|c s IH]; intros cur; [done|].
  cbn [Str.split_aux count_char Str.startswith].
  destruct (Ascii.eqb ":" c); simpl.
  - f_equal. apply IH.
  - apply IH.
Qed.

Lemma split_colon_fields cur s :
  count_char ":" cur = O →
  Forall (fun fld => count_char ":" fld = O) (Str.split_aux ":" 0 cur s).
Proof.
  assert (∀ a b, count_char ":" b = O → count_char ":" a = O →
                 count_char ":" (Str.rev_onto b a) = O) as Hrev.
  { induction a as [|c a IHa]; intros b Hb Ha; [done|].
    cbn [count_char Str.rev_onto] in *.
    destruct (Ascii.eqb ":" c) eqn:E; [done|].
    apply IHa; [|done]. cbn [count_char]. by rewrite E. }
  revert cur. induction s as [|c s IH]; intros cur Hcur.
  - constructor; [|constructor]. by apply Hrev.
  - cbn [Str.split_aux Str.startswith].
    destruct (Ascii.eqb ":" c) eqn:E; simpl.
    + constructor; [by apply Hrev | by apply IH].
    + apply IH. cbn [count_char]. by rewrite E.
Qed.

End Fields.

(** X2: the identity is the fourth colon-separated field, so a line gives
    one exactly when it holds at least three colons; with fewer,
    [line.split(":")[3]] raises [IndexError]. *)
Theorem fourth_field_needs_three_colons (line : string) :
  ((count_char ":" line < 3)%nat → line_fname line = inl IndexError)
  ∧ ((3 ≤ count_char ":" line)%nat → ∃ X, line_fname line = inr X).
Proof.
  unfold line_fname, rbind, Str.getitem, Str.split.
  pose proof (split_colon_length "" line) as Hlen.
  destruct (Str.split_aux ":" 0 "" line !! 3%nat) as [fld|] eqn:E.
  - apply lookup_lt_Some in E. split; [lia | by eexists].
  - apply lookup_ge_None in E. split; [done | lia].
Qed.

(** X3: when [parse_log] returns, the record of an identity with several
    completion lines carries as end time the timestamp of the last of them,
    whatever start lines come before or after. *)
Theorem last_end_wins fs (f : TextIO) recs pre c post X :
  parse_log fs (inr f) = inr recs →
  log_lines f = pre ++ c :: post →
  is_end_for X c →
  Forall (fun l => ¬ is_end_for X l) post →
  ∃ r t, records_for X recs = [r]
         ∧ line_stamp "INFO" c = inr t ∧ end_time r = Some t.
Proof.
  intros (d & Hd & -> & Hdok)%parse_log_inv Hl HcX Hpost.
  rewrite Hl in Hd.
  destruct (scan_last_end _ _ _ _ _ X Hd HcX) as (t & Ht & Hend).
  { by apply Forall_forall. }
  unfold end_of in Hend.
  destruct (Dict.lookup d X) as [v|] eqn:Ev; [|done].
  exists v, t. split_and!; [|done..].
  by rewrite (records_for_lookup _ _ X Hdok), Ev.
Qed.

Lemma last_end_wins_witness :
  ∃ r t, records_for "bar" [mk_dto "bar" "rclone" None (Some at_10_06_30);
                            mk_dto "foo" "rclone" (Some at_10_00_00) None] = [r]
         ∧ line_stamp "INFO" copied_bar = inr t ∧ end_time r = Some t.
Proof.
  apply (last_end_wins ∅
           (stream ("2024/01/01 10:06:00 INFO  : bar: Copied (replaced existing)
" +:+ copied_bar +:+ start_foo))
           _ ["2024/01/01 10:06:00 INFO  : bar: Copied (replaced existing)
"] copied_bar [start_foo] "bar").
  - reflexivity.
  - reflexivity.
  - split; reflexivity.
  - repeat constructor; not_for.
Defined.

Section Unmarked.

Implicit Types (d : Dict.t) (line : string) (lines : list string).

Lemma body_unmarked d line : has_marker line = false → body d line = inr d.
Proof.
  unfold has_marker, body. intros [-> ->]%orb_false_elim. done.
Qed.

Lemma scan_marker_lines d lines : scan d lines = scan d (marker_lines lines).
Proof.
  unfold marker_lines. revert d.
  induction lines as [|l lines IH]; intros d; [done|].
  destruct (has_marker l) eqn:E.
  - rewrite filter_cons_True by done. simpl. unfold rbind.
    destruct (body d l); [done | apply IH].
  - rewrite filter_cons_False by congruence. simpl.
    rewrite body_unmarked by done. apply IH.
Qed.

End Unmarked.

(** X4: lines without a marker have no effect, not even when they are
    malformed: two logs with the same marker lines in the same order give
    the same records, or raise the same exception. *)
Theorem unmarked_lines_ignored fs fs' (f g : TextIO) :
  marker_lines (log_lines f) = marker_lines (log_lines g) →
  parse_log fs (inr f) = parse_log fs' (inr g).
Proof.
  intros H. rewrite !parse_log_stream.
  rewrite (scan_marker_lines _ (log_lines f)), (scan_marker_lines _ (log_lines g)).
  by rewrite H.
Qed.

Lemma unmarked_lines_ignored_witness :
  parse_log ∅ (inr (stream (plain_line +:+ start_foo +:+ "no colon, no date
" +:+ copied_foo)))
  = parse_log ∅ (inr (stream (start_foo +:+ copied_foo))).
Proof.
  apply (unmarked_lines_ignored ∅ ∅
           (stream (plain_line +:+ start_foo +:+ "no colon, no date
" +:+ copied_foo))
           (stream (start_foo +:+ copied_foo))).
  vm_compute. reflexivity.
Defined.

Section Identities.

Implicit Types (d : Dict.t) (line X : string) (lines : list string).

Lemma marker_for line X :
  has_marker line = true ∧ line_fname line = inr X
  ↔ is_start_for X line ∨ is_end_for X line.
Proof.
  unfold has_marker, is_start_for, is_end_for. rewrite orb_true_iff. tauto.
Qed.

Lemma elem_of_rev_iff (x : string) (l : list string) : x ∈ rev l ↔ x ∈ l.
Proof. rewrite !list_elem_of_In. symmetry. apply in_rev. Qed.

Lemma first_seen_app seen l1 l2 :
  first_seen seen (l1 ++ l2)
  = first_seen seen l1 ++ first_seen (rev (first_seen seen l1) ++ seen) l2.
Proof.
  revert seen. induction l1 as [|x l1 IH]; intros seen; [done|]. simpl.
  case_bool_decide as Hx; [apply IH|].
  simpl. f_equal. rewrite IH. f_equal. by rewrite <- List.app_assoc.
Qed.

Lemma first_seen_perm seen seen' l :
  (∀ x, x ∈ seen ↔ x ∈ seen') → first_seen seen l = first_seen seen' l.
Proof.
  revert seen seen'. induction l as [|x l IH]; intros seen seen' H; [done|]. simpl.
  rewrite (bool_decide_ext (x ∈ seen) (x ∈ seen')) by apply H.
  case_bool_decide; [by apply IH|]. f_equal. apply IH.
  intros y. rewrite !elem_of_cons, H. done.
Qed.

Lemma idents_app lines1 lines2 : idents (lines1 ++ lines2) = idents lines1 ++ idents lines2.
Proof.
  induction lines1 as [|l lines1 IH]; [done|]. simpl.
  destruct (has_marker l); [|done].
  destruct (line_fname l); [done|]. simpl. by f_equal.
Qed.

(** The keys after an iteration: those before, and the identity of the
    line when it is new. *)
Lemma body_keys d line d' :
  body d line = inr d' →
  Dict.keys d' = Dict.keys d ++ first_seen (Dict.keys d) (idents [line]).
Proof.
  intros (d1 & H1 & H2)%body_inv. simpl. unfold has_marker.
  assert (∀ d0 X v, Dict.keys (Dict.set d0 X v)
                    = Dict.keys d0 ++ first_seen (Dict.keys d0) [X]) as Hset.
  { intros d0 X v. rewrite keys_set. simpl.
    destruct (Dict.lookup d0 X) eqn:E.
    - rewrite bool_decide_true; [by rewrite List.app_nil_r|].
      destruct (decide (X ∈ Dict.keys d0)) as [?|Hn]; [done|].
      apply lookup_None_keys in Hn. congruence.
    - rewrite bool_decide_false; [done|]. by apply lookup_None_keys. }
  destruct (has_start_marker line) eqn:Hs; simpl.
  - apply on_start_inv in H1 as (X & t & HX & _ & ->). rewrite HX.
    destruct (has_end_marker line) eqn:He.
    + apply on_end_inv in H2 as (X' & t' & HX' & _ & ->).
      assert (X' = X) as -> by congruence.
      rewrite keys_set, lookup_set_eq. apply Hset.
    + injection H2 as <-. apply Hset.
  - injection H1 as <-. destruct (has_end_marker line) eqn:He.
    + apply on_end_inv in H2 as (X & t & HX & _ & ->). rewrite HX. apply Hset.
    + injection H2 as <-. by rewrite List.app_nil_r.
Qed.

Lemma scan_keys d lines d' :
  scan d lines = inr d' →
  Dict.keys d' = Dict.keys d ++ first_seen (Dict.keys d) (idents lines).
Proof.
  revert d. induction lines as [|l lines IH]; intros d.
  - intros [= <-]. by rewrite List.app_nil_r.
  - intros (d1 & Hb & Hs)%scan_cons_inv.
    rewrite (IH d1 Hs), (body_keys _ _ _ Hb).
    change (l :: lines) with ([l] ++ lines).
    rewrite idents_app, first_seen_app, <- List.app_assoc. do 2 f_equal.
    apply first_seen_perm. intros x.
    rewrite !elem_of_app, elem_of_rev_iff. tauto.
Qed.

End Identities.

(** X5: the result holds a record for an identity exactly when some line
    with a marker carries that identity: no identity is made up and none is
    dropped. *)
Theorem records_are_the_marked_identities fs (f : TextIO) recs X :
  parse_log fs (inr f) = inr recs →
  (∃ r, r ∈ recs ∧ fname r = X)
  ↔ ∃ line, line ∈ log_lines f ∧ has_marker line = true ∧ line_fname line = inr X.
Proof.
  intros (d & Hd & -> & Hdok)%parse_log_inv.
  pose proof (scan_presence _ _ _ X Hd) as Hp.
  assert (is_Some (Dict.lookup d X) ↔ ∃ r, r ∈ Dict.values d ∧ fname r = X) as Hrec.
  { split.
    - intros [v Hv]. exists v. destruct Hdok as [_ Hall].
      apply lookup_Some_elem in Hv. split.
      + apply list_elem_of_fmap. by exists (X, v).
      + by apply (Hall X v).
    - intros (r & Hr & Hf). apply list_elem_of_fmap in Hr as ([k v] & -> & Hkv).
      destruct Hdok as [Hnd Hall]. simpl in Hf.
      destruct (Hall k v Hkv) as (Hk & _). assert (k = X) as -> by congruence.
      exists v. by apply elem_lookup_Some. }
  rewrite <- Hrec, Hp. split.
  - intros [[v [=]]|(l & Hl & H)]. exists l. split; [done|]. by apply marker_for.
  - intros (l & Hl & H). right. exists l. split; [done|]. by apply marker_for.
Qed.

Lemma records_are_the_marked_identities_witness :
  (∃ r, r ∈ [mk_dto "bar" "rclone" None (Some at_10_06_30);
             mk_dto "foo" "rclone" (Some at_10_00_00) None] ∧ fname r = "foo")
  ↔ ∃ line, line ∈ log_lines (stream (copied_bar +:+ start_foo))
            ∧ has_marker line = true ∧ line_fname line = inr "foo".
Proof.
  apply (records_are_the_marked_identities ∅ (stream (copied_bar +:+ start_foo))).
  vm_compute. reflexivity.
Defined.

(** X6: the records come out in the order in which their identities first
    appear on a marker line of the log, one record per identity. *)
Theorem records_in_order_of_first_appearance fs (f : TextIO) recs :
  parse_log fs (inr f) = inr recs →
  map fname recs = first_seen [] (idents (log_lines f)).
Proof.
  intros (d & Hd & -> & Hdok)%parse_log_inv.
  pose proof (scan_keys _ _ _ Hd) as Hk. simpl in Hk. rewrite <- Hk.
  destruct Hdok as [_ Hall]. unfold Dict.values, Dict.keys. rewrite map_map.
  apply map_ext_in. intros [k v] Hin. simpl.
  apply (Hall k v). by apply list_elem_of_In.
Qed.

Lemma records_in_order_of_first_appearance_witness :
  map fname [mk_dto "bar" "rclone" None (Some at_10_06_30);
             mk_dto "foo" "rclone" (Some at_10_00_07) (Some at_10_05_00)]
  = first_seen [] (idents (log_lines
      (stream (copied_bar +:+ start_foo +:+ copied_foo +:+ start_foo_again)))).
Proof.
  apply (records_in_order_of_first_appearance ∅
           (stream (copied_bar +:+ start_foo +:+ copied_foo +:+ start_foo_again))).
  vm_compute. reflexivity.
Defined.

Section Stripping.

Implicit Types (s : string) (c : ascii).

Lemma lstrip_rstrip s : Str.lstrip (Str.rstrip s) = Str.rstrip (Str.lstrip s).
Proof.
  induction s as [|c s IH]; [done|]. cbn [Str.lstrip Str.rstrip].
  destruct (Str.isspace c) eqn:E.
  - rewrite <- IH. destruct (Str.rstrip s) as [|c' r]; [done|].
    cbn [Str.lstrip]. by rewrite E.
  - cbn [Str.rstrip]. destruct (Str.rstrip s) as [|c' r];
      cbn [Str.lstrip]; by rewrite E.
Qed.

Lemma lstrip_idem s : Str.lstrip (Str.lstrip s) = Str.lstrip s.
Proof.
  induction s as [|c s IH]; [done|]. cbn [Str.lstrip].
  destruct (Str.isspace c) eqn:E; [done|]. cbn [Str.lstrip]. by rewrite E.
Qed.

Lemma rstrip_idem s : Str.rstrip (Str.rstrip s) = Str.rstrip s.
Proof.
  induction s as [|c s IH]; [done|]. cbn [Str.rstrip].
  destruct (Str.rstrip s) as [|c' r] eqn:Er.
  - destruct (Str.isspace c) eqn:E; [done|]. cbn [Str.rstrip]. by rewrite E.
  - cbn [Str.rstrip]. cbn [Str.rstrip] in IH. rewrite IH. done.
Qed.

Lemma strip_idem s : Str.strip (Str.strip s) = Str.strip s.
Proof.
  unfold Str.strip. by rewrite lstrip_rstrip, lstrip_idem, rstrip_idem.
Qed.

Lemma lstrip_count c s : (count_char c (Str.lstrip s) ≤ count_char c s)%nat.
Proof.
  induction s as [|a s IH]; [done|]. cbn [Str.lstrip].
  destruct (Str.isspace a); [|done]. cbn [count_char].
  destruct (Ascii.eqb c a); lia.
Qed.

Lemma rstrip_count c s : (count_char c (Str.rstrip s) ≤ count_char c s)%nat.
Proof.
  induction s as [|a s IH]; [done|]. cbn [Str.rstrip].
  destruct (Str.rstrip s) as [|c' r].
  - destruct (Str.isspace a); cbn [count_char] in *;
      destruct (Ascii.eqb c a); lia.
  - cbn [count_char] in *. destruct (Ascii.eqb c a); lia.
Qed.

Lemma line_fname_shape line X :
  line_fname line = inr X → count_char ":" X = O ∧ Str.strip X = X.
Proof.
  unfold line_fname, rbind, Str.getitem, Str.split.
  destruct (Str.split_aux ":" 0 "" line !! 3%nat) as [fld|] eqn:E; [|done].
  intros [= <-]. split; [|apply strip_idem].
  pose proof (split_colon_fields "" line eq_refl) as Hall.
  rewrite Forall_forall in Hall.
  assert (count_char ":" fld = O) as Hf.
  { apply Hall. by apply list_elem_of_lookup_2 in E. }
  unfold Str.strip.
  pose proof (rstrip_count ":" (Str.lstrip fld)).
  pose proof (lstrip_count ":" fld). lia.
Qed.

End Stripping.

(** X7: the identity of a returned record holds no colon and no white
    space at either end: it is one colon-separated field of a line, passed
    through [strip].  A file name with a colon in it is cut at the colon. *)
Theorem identities_are_stripped_fields fs (f : TextIO) recs :
  parse_log fs (inr f) = inr recs →
  Forall (fun r => count_char ":" (fname r) = O ∧ Str.strip (fname r) = fname r) recs.
Proof.
  intros (d & Hd & -> & [_ Hall])%parse_log_inv.
  apply Forall_forall. intros r Hr.
  apply list_elem_of_fmap in Hr as ([k v] & -> & Hkv). simpl.
  destruct (Hall k v Hkv) as (-> & _ & _ & line & _ & _ & Hfn).
  by apply (line_fname_shape line).
Qed.

Lemma identities_are_stripped_fields_witness :
  Forall (fun r => count_char ":" (fname r) = O ∧ Str.strip (fname r) = fname r)
    [mk_dto "dir/a" "rclone" (Some at_10_00_00) None].
Proof.
  apply (identities_are_stripped_fields ∅
    (stream "2024/01/01 10:00:00 DEBUG :   dir/a:b.bin  : Transferring unconditionally
")).
  vm_compute. reflexivity.
Defined.

Lemma line_stamp_valid level line t :
  line_stamp level line = inr t → Strptime.valid t = true.
Proof.
  unfold line_stamp, rbind, strptime, Strptime.strptime.
  destruct (Str.getitem _ _) as [e|h]; [done|].
  destruct (Strptime.format_regex (Str.strip h)) as [|[g rest] l]; [done|].
  destruct rest; [|done].
  destruct (Strptime.valid (Strptime.of_groups g)) eqn:E; [|done].
  by intros [= <-].
Qed.

(** X8: no time in a returned record is made up.  A start time is the
    timestamp read before DEBUG on a start line of the record's identity,
    an end time the one read before INFO on a completion line of it, and
    both are dates and times of the calendar (month 1 to 12, a day the month
    has, hour below 24, minute and second below 60). *)
Theorem times_come_from_the_log fs (f : TextIO) recs r :
  parse_log fs (inr f) = inr recs →
  r ∈ recs →
  (∀ t, start_time r = Some t →
        Strptime.valid t = true
        ∧ ∃ line, line ∈ log_lines f ∧ is_start_for (fname r) line
                  ∧ line_stamp "DEBUG" line = inr t)
  ∧ (∀ t, end_time r = Some t →
          Strptime.valid t = true
          ∧ ∃ line, line ∈ log_lines f ∧ is_end_for (fname r) line
                    ∧ line_stamp "INFO" line = inr t).
Proof.
  intros (d & Hd & -> & Hdok)%parse_log_inv Hr.
  apply list_elem_of_fmap in Hr as ([k v] & -> & Hkv). simpl.
  destruct Hdok as [Hnd Hall].
  destruct (Hall k v Hkv) as (Hf & _). rewrite Hf.
  pose proof (elem_lookup_Some _ _ _ Hnd Hkv) as Hlk.
  split; intros t Ht.
  - destruct (decide (Exists (is_start_for k) (log_lines f))) as [Hex|Hno].
    + apply Exists_exists in Hex. destruct (last_such (is_start_for k) (log_lines f) Hex)
        as (pre & s & post & Hl & Hs & Hpost).
      pose proof Hd as Hd'. rewrite Hl in Hd'.
      destruct (scan_last_start _ _ _ _ _ _ Hd' Hs) as (t' & Ht' & Hstart).
      { by apply Forall_forall. }
      unfold start_of in Hstart. rewrite Hlk, Ht in Hstart. injection Hstart as <-.
      split; [by apply (line_stamp_valid "DEBUG" s)|].
      exists s. split_and!; [|done..]. rewrite Hl.
      apply elem_of_app. right. apply list_elem_of_here.
    + exfalso. pose proof (scan_keeps_start _ _ _ k Hd) as Hkeep.
      unfold start_of in Hkeep. rewrite Hlk, Ht in Hkeep. simpl in Hkeep.
      discriminate Hkeep. intros l Hl Hs. apply Hno, Exists_exists. by exists l.
  - destruct (decide (Exists (is_end_for k) (log_lines f))) as [Hex|Hno].
    + apply Exists_exists in Hex. destruct (last_such (is_end_for k) (log_lines f) Hex)
        as (pre & s & post & Hl & Hs & Hpost).
      pose proof Hd as Hd'. rewrite Hl in Hd'.
      destruct (scan_last_end _ _ _ _ _ _ Hd' Hs) as (t' & Ht' & Hend).
      { by apply Forall_forall. }
      unfold end_of in Hend. rewrite Hlk, Ht in Hend. injection Hend as <-.
      split; [by apply (line_stamp_valid "INFO" s)|].
      exists s. split_and!; [|done..]. rewrite Hl.
      apply elem_of_app. right. apply list_elem_of_here.
    + exfalso. pose proof (scan_keeps_end _ _ _ k Hd) as Hkeep.
      unfold end_of in Hkeep. rewrite Hlk, Ht in Hkeep. simpl in Hkeep.
      discriminate Hkeep. intros l Hl Hs. apply Hno, Exists_exists. by exists l.
Qed.

Lemma times_come_from_the_log_witness :
  (∀ t, start_time (mk_dto "foo" "rclone" (Some at_10_00_07) (Some at_10_05_00)) = Some t →
        Strptime.valid t = true
        ∧ ∃ line, line ∈ log_lines (stream (start_foo +:+ start_foo_again +:+ copied_foo))
                  ∧ is_start_for
                      (fname (mk_dto "foo" "rclone" (Some at_10_00_07) (Some at_10_05_00))) line
                  ∧ line_stamp "DEBUG" line = inr t)
  ∧ (∀ t, end_time (mk_dto "foo" "rclone" (Some at_10_00_07) (Some at_10_05_00)) = Some t →
          Strptime.valid t = true
          ∧ ∃ line, line ∈ log_lines (stream (start_foo +:+ start_foo_again +:+ copied_foo))
                    ∧ is_end_for
                        (fname (mk_dto "foo" "rclone" (Some at_10_00_07) (Some at_10_05_00))) line
                    ∧ line_stamp "INFO" line = inr t).
Proof.
  apply (times_come_from_the_log ∅ (stream (start_foo +:+ start_foo_again +:+ copied_foo))
           [mk_dto "foo" "rclone" (Some at_10_00_07) (Some at_10_05_00)]).
  - vm_compute. reflexivity.
  - apply list_elem_of_here.
Defined.

(** * Further properties of [run_automation] *)

Section RunMore.

Variable ExecutionDTO : Type.
Variable shell_executor :
  list string → FileSystem → FileSystem * Res ExecutionDTO.

Implicit Types (w : World) (self : RcloneAutomation).

Lemma NamedTemporaryFile_disk pre suf del w :
  match NamedTemporaryFile pre suf del w with
  | (w', inl e) => fsys w' = fsys w ∧ tmpdir w' = tmpdir w ∧ spawned w' = spawned w
  | (w', inr f) =>
      disk w !! tf_name f = None
      ∧ disk w' = <[tf_name f := ""]> (disk w)
      ∧ tmpdir w' = tmpdir w ∧ spawned w' = spawned w
  end.
Proof.
  pose proof (NamedTemporaryFile_spec pre suf del w) as H.
  destruct (NamedTemporaryFile pre suf del w) as [w' [e|f]].
  - by destruct H as (_ & ? & ? & ?).
  - by destruct H as (_ & ? & ? & ? & _ & _ & ?).
Qed.

(** The configuration file is new, and nothing else changes. *)
Lemma generate_rclone_cfg_disk self w w' f :
  _generate_rclone_cfg self w = (w', inr f) →
  disk w !! tf_name f = None
  ∧ is_Some (disk w' !! tf_name f)
  ∧ (∀ p, p ≠ tf_name f → disk w' !! p = disk w !! p)
  ∧ spawned w' = spawned w.
Proof.
  unfold _generate_rclone_cfg, mbind', lift, getkey, mret, ok, raise.
  repeat (match goal with
          | |- context [config self !! ?k] => destruct (config self !! k); [|done]
          end).
  pose proof (NamedTemporaryFile_spec "rclone_" ".conf" true w) as HN.
  destruct (NamedTemporaryFile "rclone_" ".conf" true w) as [w1 [e|f1]]; [done|].
  destruct HN as (_ & Hsp & Hfresh & Hdisk & Hnew & Hfs & _). simpl.
  intros [= <- <-]. simpl. split_and!; [done | | | done].
  - unfold disk. simpl. rewrite by_path_lookup. simpl.
    rewrite Hfs. simpl. rewrite lookup_insert_eq. by eexists.
  - intros p Hp. unfold disk at 1. simpl.
    rewrite <- (lookup_insert_ne (disk w) (tf_name f1) p "") by done.
    rewrite <- Hdisk. unfold disk. apply by_path_frame; [done|].
    intros j Hj. simpl. rewrite lookup_insert_ne; [done|]. intros <-.
    rewrite Hfs in Hj. simpl in Hj. rewrite lookup_insert_ne in Hj by done.
    rewrite Hnew in Hj. by apply new_file_unnamed in Hj.
Qed.

Lemma run_prologue_disk self w w1 logf cfgf cmd :
  run_prologue self w = (w1, inr (logf, cfgf, cmd)) →
  disk w !! tf_name logf = None
  ∧ disk w !! tf_name cfgf = None
  ∧ tf_name logf ≠ tf_name cfgf
  ∧ disk w1 !! tf_name logf = Some ""
  ∧ is_Some (disk w1 !! tf_name cfgf)
  ∧ (∀ p, p ≠ tf_name logf → p ≠ tf_name cfgf → disk w1 !! p = disk w !! p)
  ∧ tf_delete cfgf = true
  ∧ spawned w1 = spawned w.
Proof.
  pose proof (run_prologue_spec self w) as Hspec.
  unfold run_prologue, mbind', lift, getkey, mret, ok, raise in *.
  repeat (match goal with
          | |- context [config self !! ?k] => destruct (config self !! k); [|done]
          end).
  pose proof (NamedTemporaryFile_disk "rclone_" ".log" false w) as HN.
  destruct (NamedTemporaryFile "rclone_" ".log" false w) as [w0 [e|lf]]; [done|].
  destruct HN as (Hfresh & Hdisk & _ & Hsp).
  destruct (_generate_rclone_cfg self w0) as [w2 [e|cf]] eqn:EG; [done|].
  destruct Hspec as (_ & Hdel & _).
  apply generate_rclone_cfg_disk in EG as (Hfresh2 & Hsome & Hother & Hsp2).
  intros [= <- <- <- <-].
  assert (tf_name lf ≠ tf_name cf) as Hne.
  { intros Heq. rewrite Hdisk, <- Heq, lookup_insert_eq in Hfresh2. done. }
  split_and!; [done | | done | | done | | done | congruence].
  - rewrite Hdisk, lookup_insert_ne in Hfresh2; done.
  - rewrite Hother by done. by rewrite Hdisk, lookup_insert_eq.
  - intros p Hp1 Hp2. rewrite Hother by done. by rewrite Hdisk, lookup_insert_ne.
Qed.

(** The part of [run_automation] after the prologue. *)
Lemma run_epilogue_disk (w1 : World) (logf cfgf : TempFile) (cmd : list string) :
  tf_delete cfgf = true →
  let w' := ((do! exdto := call_shell_executor ExecutionDTO shell_executor cmd in
              do! _ := close cfgf in
              do! vals := (fun w => (w, parse_log (disk w) (inr (stream_of logf w)))) in
              mret vals) w1).1 in
  spawned w' = spawned w1 ++ [cmd]
  ∧ (∀ p, p ≠ tf_name cfgf →
          disk w' !! p = by_path (shell_executor cmd (fsys w1)).1 !! p)
  ∧ contents (fsys w') = contents (shell_executor cmd (fsys w1)).1.
Proof.
  intros Hdel. unfold mbind', call_shell_executor, close, unlink, mret. rewrite Hdel.
  destruct (shell_executor cmd (fsys w1)) as [fs2 [e|x]]; simpl; [done|].
  unfold disk. simpl.
  destruct (by_path fs2 !! tf_name cfgf) eqn:E; simpl; [|done].
  destruct (parse_log _ _); simpl; (split_and!; [done| |done]);
    intros p Hp; by rewrite by_path_delete, lookup_delete_ne.
Qed.

End RunMore.

(** X9: a run that reaches the executor has created two files that did not
    exist before, the empty log file and the configuration file, and has
    touched no other file; the command goes to the executor once; and after
    the executor the run changes no file but the configuration file, so the
    log file stays on disk as the process left it, however the run ends. *)
Theorem run_touches_only_its_two_files
    (ExecutionDTO : Type)
    (shell_executor : list string → FileSystem → FileSystem * Res ExecutionDTO)
    (self : RcloneAutomation) (w w1 : World) (logf cfgf : TempFile)
    (cmd : list string) :
  run_prologue self w = (w1, inr (logf, cfgf, cmd)) →
  disk w !! tf_name logf = None
  ∧ disk w !! tf_name cfgf = None
  ∧ tf_name logf ≠ tf_name cfgf
  ∧ disk w1 !! tf_name logf = Some ""
  ∧ (∀ p, p ≠ tf_name logf → p ≠ tf_name cfgf → disk w1 !! p = disk w !! p)
  ∧ spawned (run_automation ExecutionDTO shell_executor self w).1 = spawned w ++ [cmd]
  ∧ (∀ p, p ≠ tf_name cfgf →
          disk (run_automation ExecutionDTO shell_executor self w).1 !! p
          = by_path (shell_executor cmd (fsys w1)).1 !! p).
Proof.
  intros Hpro.
  destruct (run_prologue_disk self w w1 logf cfgf cmd Hpro)
    as (H1 & H2 & H3 & H4 & _ & H5 & Hdel & Hsp).
  split_and!; [done..| |]; rewrite run_automation_prologue, Hpro;
    destruct (run_epilogue_disk ExecutionDTO shell_executor w1 logf cfgf cmd Hdel)
      as (Hs & Hd & _); [by rewrite <- Hsp | done].
Qed.

Lemma run_touches_only_its_two_files_witness :
  disk demo_world !! tf_name demo_log_file = None
  ∧ disk demo_world !! tf_name demo_config_file = None
  ∧ tf_name demo_log_file ≠ tf_name demo_config_file
  ∧ disk (run_prologue demo_automation demo_world).1 !! tf_name demo_log_file = Some ""
  ∧ (∀ p, p ≠ tf_name demo_log_file → p ≠ tf_name demo_config_file →
          disk (run_prologue demo_automation demo_world).1 !! p = disk demo_world !! p)
  ∧ spawned (run_automation Z raising_executor demo_automation demo_world).1
    = spawned demo_world ++ [demo_cmd]
  ∧ (∀ p, p ≠ tf_name demo_config_file →
          disk (run_automation Z raising_executor demo_automation demo_world).1 !! p
          = by_path (raising_executor demo_cmd
                       (fsys (run_prologue demo_automation demo_world).1)).1 !! p).
Proof.
  apply (run_touches_only_its_two_files Z raising_executor demo_automation demo_world
           (run_prologue demo_automation demo_world).1
           demo_log_file demo_config_file demo_cmd).
  vm_compute. reflexivity.
Defined.

(** X10: the credentials are read after the temporary log file is made.
    With the four location keys present and a credential key missing, the
    run raises [KeyError] for a missing credential key, hands nothing to
    the executor, and leaves the new, empty log file on disk. *)
Theorem missing_credential_leaves_log_file
    (ExecutionDTO : Type)
    (shell_executor : list string → FileSystem → FileSystem * Res ExecutionDTO)
    (self : RcloneAutomation) (w w1 : World) (logf : TempFile) (k : string) :
  Forall (fun k' => is_Some (config self !! k')) LOCATION_KEYS →
  k ∈ CREDENTIAL_KEYS →
  config self !! k = None →
  NamedTemporaryFile "rclone_" ".log" false w = (w1, inr logf) →
  (run_automation ExecutionDTO shell_executor self w).1 = w1
  ∧ (∃ k', k' ∈ CREDENTIAL_KEYS ∧ config self !! k' = None
           ∧ (run_automation ExecutionDTO shell_executor self w).2 = inl (KeyError k'))
  ∧ disk w !! tf_name logf = None
  ∧ disk w1 !! tf_name logf = Some ""
  ∧ spawned w1 = spawned w.
Proof.
  intros Hloc Hk Hmiss HN.
  pose proof (NamedTemporaryFile_disk "rclone_" ".log" false w) as Hd.
  rewrite HN in Hd. destruct Hd as (Hfresh & Hdisk & _ & Hsp).
  assert (disk w1 !! tf_name logf = Some "") as Hlog by (by rewrite Hdisk, lookup_insert_eq).
  unfold LOCATION_KEYS in Hloc.
  repeat (apply Forall_cons in Hloc as [[? ?] Hloc]).
  unfold run_automation, mbind', lift, getkey, mret, ok, raise.
  repeat (match goal with
          | H : config self !! ?k' = Some _ |- context [config self !! ?k'] => rewrite H
          end).
  rewrite HN. unfold _generate_rclone_cfg, mbind', lift, getkey, mret, ok, raise.
  repeat (match goal with
          | |- context [config self !! ?k'] =>
              destruct (config self !! k') eqn:?;
              [|simpl; split_and!; [done | | done..];
                eexists; split_and!; [|done..]; unfold CREDENTIAL_KEYS; set_solver]
          end).
  exfalso. unfold CREDENTIAL_KEYS in Hk.
  repeat (apply elem_of_cons in Hk as [->|Hk]; [congruence|]).
  by apply elem_of_nil in Hk.
Qed.

Lemma missing_credential_leaves_log_file_witness :
  (run_automation Z returning_executor demo_automation_no_secret demo_world).1
  = (NamedTemporaryFile "rclone_" ".log" false demo_world).1
  ∧ (∃ k', k' ∈ CREDENTIAL_KEYS ∧ config demo_automation_no_secret !! k' = None
           ∧ (run_automation Z returning_executor demo_automation_no_secret demo_world).2
             = inl (KeyError k'))
  ∧ disk demo_world !! tf_name demo_log_file = None
  ∧ disk (NamedTemporaryFile "rclone_" ".log" false demo_world).1 !! tf_name demo_log_file
    = Some ""
  ∧ spawned (NamedTemporaryFile "rclone_" ".log" false demo_world).1 = spawned demo_world.
Proof.
  apply (missing_credential_leaves_log_file Z returning_executor
           demo_automation_no_secret demo_world
           (NamedTemporaryFile "rclone_" ".log" false demo_world).1
           demo_log_file "dest_secret").
  - unfold LOCATION_KEYS. repeat constructor; vm_compute; by eexists.
  - unfold CREDENTIAL_KEYS. repeat constructor.
  - vm_compute. reflexivity.
  - vm_compute. reflexivity.
Defined.

Section Handles.

Implicit Types (w : World) (self : RcloneAutomation).

(** When the prologue is done each of the two names leads to the file its
    handle is on, the two files are different, and the log file is empty. *)
Lemma run_prologue_handles self w w1 logf cfgf cmd :
  run_prologue self w = (w1, inr (logf, cfgf, cmd)) →
  entries (fsys w1) !! tf_name logf = Some (tf_file logf)
  ∧ entries (fsys w1) !! tf_name cfgf = Some (tf_file cfgf)
  ∧ read_file (fsys w1) (tf_file logf) = ""
  ∧ tf_file logf ≠ tf_file cfgf
  ∧ tf_name logf ≠ tf_name cfgf.
Proof.
  unfold run_prologue, mbind', lift, getkey, mret, ok, raise.
  repeat (match goal with
          | |- context [config self !! ?k] => destruct (config self !! k); [|done]
          end).
  pose proof (NamedTemporaryFile_spec "rclone_" ".log" false w) as HL.
  destruct (NamedTemporaryFile "rclone_" ".log" false w) as [w0 [e|lf]]; [done|].
  destruct HL as (_ & _ & _ & Hd0 & _ & Hfs0 & _).
  unfold _generate_rclone_cfg, mbind', lift, getkey, mret, ok, raise.
  repeat (match goal with
          | |- context [config self !! ?k] => destruct (config self !! k); [|done]
          end).
  pose proof (NamedTemporaryFile_spec "rclone_" ".conf" true w0) as HC.
  destruct (NamedTemporaryFile "rclone_" ".conf" true w0) as [w2 [e|cf]]; [done|].
  destruct HC as (_ & _ & Hfresh & _ & Hnew & Hfs2 & _). simpl.
  intros [= <- <- <- <-]. simpl. rewrite Hfs2. simpl.
  assert (tf_name lf ≠ tf_name cf) as Hne.
  { intros Heq. rewrite Hd0, <- Heq, lookup_insert_eq in Hfresh. done. }
  assert (tf_file lf ≠ tf_file cf) as Hnf.
  { intros Heq. pose proof (new_file_empty (fsys w0)) as He.
    rewrite <- Hnew, <- Heq, Hfs0 in He. simpl in He.
    by rewrite lookup_insert_eq in He. }
  split_and!; [| |  | done | done].
  - rewrite lookup_insert_ne by done. rewrite Hfs0. simpl. apply lookup_insert_eq.
  - apply lookup_insert_eq.
  - unfold read_file. simpl. rewrite !lookup_insert_ne by done.
    rewrite Hfs0. simpl. by rewrite lookup_insert_eq.
Qed.

End Handles.

(** X11: what a run returns is read through the handle of the log file,
    opened before the executor is called.  At the call the name of the log
    file leads to the file the handle is on.  When the executor returns and
    has left the configuration file in place, the run removes the name of
    that file, changes nothing else, and returns what [parse_log] makes of
    the text of the file the handle is on, read with universal newlines,
    or raises what [parse_log] raises.  When the name of the log file still
    leads to that file, this is what [parse_log] makes of the file opened
    by its name.  The value the executor returned, the exit status of the
    process with it, plays no part. *)
Theorem run_returns_the_parse_of_the_log
    (ExecutionDTO : Type)
    (shell_executor : list string → FileSystem → FileSystem * Res ExecutionDTO)
    (self : RcloneAutomation) (w w1 : World) (logf cfgf : TempFile)
    (cmd : list string) (fs2 : FileSystem) (x : ExecutionDTO) :
  run_prologue self w = (w1, inr (logf, cfgf, cmd)) →
  shell_executor cmd (fsys w1) = (fs2, inr x) →
  is_Some (entries fs2 !! tf_name cfgf) →
  entries (fsys w1) !! tf_name logf = Some (tf_file logf)
  ∧ (run_automation ExecutionDTO shell_executor self w).2
    = parse_log ∅ (inr (mk_textio (tf_name logf)
                          (universal_newlines (read_file fs2 (tf_file logf))) 0))
  ∧ (entries fs2 !! tf_name logf = Some (tf_file logf) →
     (run_automation ExecutionDTO shell_executor self w).2
     = parse_log (by_path fs2) (inl (tf_name logf)))
  ∧ fsys (run_automation ExecutionDTO shell_executor self w).1
    = mk_fs (delete (tf_name cfgf) (entries fs2)) (contents fs2).
Proof.
  intros Hpro Hex [c Hc].
  destruct (run_prologue_handles self w w1 logf cfgf cmd Hpro) as (Hlog & _).
  pose proof (run_prologue_spec self w) as Hspec. rewrite Hpro in Hspec.
  destruct Hspec as (_ & Hdel & _).
  assert ((run_automation ExecutionDTO shell_executor self w).2
          = parse_log ∅ (inr (mk_textio (tf_name logf)
                                (universal_newlines (read_file fs2 (tf_file logf))) 0))
          ∧ fsys (run_automation ExecutionDTO shell_executor self w).1
            = mk_fs (delete (tf_name cfgf) (entries fs2)) (contents fs2)) as [Hres Hfs].
  { rewrite run_automation_prologue, Hpro.
    unfold mbind', call_shell_executor, close, unlink, mret, stream_of.
    rewrite Hex, Hdel. unfold disk. simpl.
    rewrite by_path_lookup, Hc. simpl.
    rewrite !parse_log_stream. unfold read_file. simpl.
    by destruct (scan Dict.empty _). }
  split_and!; [done | done | | done].
  intros Hin. rewrite Hres.
  rewrite (parse_log_path (by_path fs2) (tf_name logf) (read_file fs2 (tf_file logf))).
  - by rewrite !parse_log_stream.
  - by rewrite by_path_lookup, Hin.
Qed.

Lemma run_returns_the_parse_of_the_log_witness :
  entries (fsys (run_prologue demo_automation demo_world).1) !! tf_name demo_log_file
  = Some (tf_file demo_log_file)
  ∧ (run_automation Z returning_executor demo_automation demo_world).2
    = parse_log ∅ (inr (mk_textio (tf_name demo_log_file)
        (universal_newlines
           (read_file (returning_executor demo_cmd
                         (fsys (run_prologue demo_automation demo_world).1)).1
              (tf_file demo_log_file))) 0))
  ∧ (entries (returning_executor demo_cmd
                (fsys (run_prologue demo_automation demo_world).1)).1
       !! tf_name demo_log_file = Some (tf_file demo_log_file) →
     (run_automation Z returning_executor demo_automation demo_world).2
     = parse_log (by_path (returning_executor demo_cmd
                             (fsys (run_prologue demo_automation demo_world).1)).1)
         (inl (tf_name demo_log_file)))
  ∧ fsys (run_automation Z returning_executor demo_automation demo_world).1
    = mk_fs (delete (tf_name demo_config_file)
               (entries (returning_executor demo_cmd
                           (fsys (run_prologue demo_automation demo_world).1)).1))
        (contents (returning_executor demo_cmd
                     (fsys (run_prologue demo_automation demo_world).1)).1).
Proof.
  apply (run_returns_the_parse_of_the_log Z returning_executor demo_automation demo_world
           (run_prologue demo_automation demo_world).1
           demo_log_file demo_config_file demo_cmd _ 1).
  - vm_compute. reflexivity.
  - vm_compute. reflexivity.
  - vm_compute. by eexists.
Defined.

(** The handle and the name part ways when the process replaces the log
    file: the run reads the file it made, which is still empty, and returns
    no record, while the file now found under the name holds a start
    line. *)
Example replaced_log_is_not_read :
  (run_automation Z replacing_executor demo_automation demo_world).2 = inr []
  ∧ parse_log (disk (run_automation Z replacing_executor demo_automation demo_world).1)
      (inl (tf_name demo_log_file))
    = inr [mk_dto "foo" "rclone" (Some at_10_00_00) None].
Proof. split; by vm_compute. Qed.

Lemma getkey_insert_ne (c : gmap string string) k k' v :
  k ≠ k' → getkey (<[k := v]> c) k' = getkey c k'.
Proof. intros H. unfold getkey. by rewrite lookup_insert_ne. Qed.

Lemma getkey_insert_eq (c : gmap string string) k v :
  getkey (<[k := v]> c) k = inr v.
Proof. unfold getkey. by rewrite lookup_insert_eq. Qed.

Lemma getkey_Some (c : gmap string string) k v :
  c !! k = Some v → getkey c k = inr v.
Proof. unfold getkey. by intros ->. Qed.

(** X12: the two region keys must be present, but their values are never
    used: neither the command nor the configuration file nor the result
    depends on them.  Replacing the value of a region key that is present
    changes nothing in a run. *)
Theorem region_values_unused
    (ExecutionDTO : Type)
    (shell_executor : list string → FileSystem → FileSystem * Res ExecutionDTO)
    (self : RcloneAutomation) (k v : string) (w : World) :
  k = "source_s3_region" ∨ k = "dest_s3_region" →
  is_Some (config self !! k) →
  run_automation ExecutionDTO shell_executor
    (with_config self (<[k := v]> (config self))) w
  = run_automation ExecutionDTO shell_executor self w.
Proof.
  intros Hk [old Hold%getkey_Some]. destruct self as [c fl dbg b1 b2 b3 b4 b5 b6].
  unfold with_config, run_automation, _generate_rclone_cfg, mbind', lift.
  cbn [config files debug multi_thread_streams multi_thread_cutoff
       s3_max_upload_parts s3_upload_concurrency buffer_size ntransfers] in *.
  destruct Hk as [-> | ->];
    repeat (match goal with
            | |- context [getkey (<[?k0 := v]> c) ?k'] =>
                first [ rewrite (getkey_insert_ne c k0 k' v) by done
                      | rewrite (getkey_insert_eq c k0 v) ]
            end);
    rewrite Hold; reflexivity.
Qed.

Lemma region_values_unused_witness :
  run_automation Z returning_executor
    (with_config demo_automation
       (<["source_s3_region" := "eu-west-3"]> (config demo_automation))) demo_world
  = run_automation Z returning_executor demo_automation demo_world.
Proof.
  apply (region_values_unused Z returning_executor demo_automation
           "source_s3_region" "eu-west-3" demo_world).
  - by left.
  - vm_compute. by eexists.
Defined.

(** * Reading back the lines rclone writes *)

Section Digits.

Implicit Types (n z : Z) (c : ascii) (s rest : string).

Lemma digit_char_cases n :
  ∃ k, (k < 10)%nat ∧ digit_char n = ascii_of_nat (48 + k) ∧ n mod 10 = Z.of_nat k.
Proof.
  exists (Z.to_nat (n mod 10)).
  pose proof (Z.mod_pos_bound n 10). split_and!; [lia | done | lia].
Qed.

(** A property of the ten digits holds of every [digit_char]. *)
Lemma digit_char_prop (P : ascii → bool) n :
  forallb P ["0"; "1"; "2"; "3"; "4"; "5"; "6"; "7"; "8"; "9"]%char = true →
  P (digit_char n) = true.
Proof.
  intros H. destruct (digit_char_cases n) as (k & Hk & -> & _).
  cbn [forallb] in H. repeat (apply andb_prop in H as [? H]).
  do 10 (destruct k as [|k]; [done|]). lia.
Qed.

Lemma digit_char_value n : Z.of_nat (nat_of_ascii (digit_char n)) - 48 = n mod 10.
Proof.
  destruct (digit_char_cases n) as (k & Hk & -> & ->).
  do 10 (destruct k as [|k]; [done|]). lia.
Qed.

Lemma sforall_pad2 (P : ascii → bool) n :
  forallb P ["0"; "1"; "2"; "3"; "4"; "5"; "6"; "7"; "8"; "9"]%char = true →
  sforall P (pad2 n) = true.
Proof. intros H. simpl. by rewrite !digit_char_prop. Qed.

Lemma sforall_pad4 (P : ascii → bool) n :
  forallb P ["0"; "1"; "2"; "3"; "4"; "5"; "6"; "7"; "8"; "9"]%char = true →
  sforall P (pad4 n) = true.
Proof. intros H. simpl. by rewrite !digit_char_prop. Qed.

Lemma strip_nospace s :
  sforall (fun c => negb (Str.isspace c)) s = true → Str.strip s = s.
Proof.
  intros H. unfold Str.strip.
  assert (Str.lstrip s = s) as ->.
  { destruct s as [|c s]; [done|]. simpl in *. by destruct (Str.isspace c). }
  induction s as [|c s IH]; [done|]. simpl in *.
  apply andb_prop in H as [Hc Hs]. rewrite (IH Hs).
  destruct s; [|done]. by destruct (Str.isspace c).
Qed.

Lemma int_pad2 n : 0 ≤ n < 100 → Strptime.int (pad2 n) = n.
Proof.
  intros Hn. unfold Strptime.int. rewrite strip_nospace by by apply sforall_pad2.
  cbn [pad2 Strptime.int_digits]. rewrite !digit_char_value.
  Z.div_mod_to_equations. lia.
Qed.

Lemma int_pad4 n : 0 ≤ n < 10000 → Strptime.int (pad4 n) = n.
Proof.
  intros Hn. unfold Strptime.int. rewrite strip_nospace by by apply sforall_pad4.
  cbn [pad4 pad2 Strptime.int_digits]. rewrite !digit_char_value.
  Z.div_mod_to_equations. lia.
Qed.

End Digits.

Section StampRoundTrip.

Import Strptime.

Implicit Types (z : Z) (rest s : string) (t : datetime).

Lemma head_seq {A B} (m : Matcher A) (k : A → Matcher B) s a r x :
  head (m s) = Some (a, r) → head (k a r) = Some x → head (seq m k s) = Some x.
Proof.
  unfold seq. destruct (m s) as [|[a' r'] tl]; [done|]. intros [= -> ->]. simpl.
  destruct (k a r); [done|]. by intros [= ->].
Qed.

Lemma head_lit c rest : head (lit c (String c rest)) = Some (String c "", rest).
Proof. unfold lit, one. by rewrite Ascii.eqb_refl. Qed.

Lemma head_spaces c rest :
  Str.isspace c = false →
  head (spaces (String " " (String c rest))) = Some (tt, String c rest).
Proof. intros H. simpl. by rewrite H. Qed.

Lemma one_digit_char z rest :
  digit (String (digit_char z) rest) = [(String (digit_char z) "", rest)].
Proof. unfold digit, one. by rewrite (digit_char_prop Str.isdigit). Qed.

Lemma cat_single (m1 m2 : Matcher string) s a r b r' :
  m1 s = [(a, r)] → m2 r = [(b, r')] → cat m1 m2 s = [(a +:+ b, r')].
Proof. intros H1 H2. unfold cat, seq, pure. rewrite H1. simpl. by rewrite H2. Qed.

Lemma head_re_Y z rest : head (re_Y (pad4 z +:+ rest)) = Some (pad4 z, rest).
Proof.
  assert (re_Y (pad4 z +:+ rest) = [(pad4 z, rest)]) as ->; [|done].
  unfold re_Y, pad4, pad2.
  apply (cat_single _ _ _ (String (digit_char (z / 1000)) "")
           (String (digit_char (z / 100))
              (String (digit_char (z / 10)) (String (digit_char z) rest))));
    [apply one_digit_char|].
  apply (cat_single _ _ _ (String (digit_char (z / 100)) "")
           (String (digit_char (z / 10)) (String (digit_char z) rest)));
    [apply one_digit_char|].
  apply (cat_single _ _ _ (String (digit_char (z / 10)) "") (String (digit_char z) rest));
    [apply one_digit_char | apply one_digit_char].
Qed.

(** The two-digit fields, value by value. *)
Local Tactic Notation "by_value" constr(z) integer(n) constr(b) :=
  let k := fresh "k" in
  let Hk := fresh "Hk" in
  assert (∃ k, z = Z.of_nat k ∧ (k < b)%nat) as (k & -> & Hk)
    by (exists (Z.to_nat z); lia);
  do n (destruct k as [|k]; [first [lia | split; vm_compute; reflexivity]|]);
  lia.

Lemma field_m z rest :
  1 ≤ z ≤ 12 → head (re_m (pad2 z +:+ rest)) = Some (pad2 z, rest) ∧ int (pad2 z) = z.
Proof. intros Hz. by_value z 13 13%nat. Qed.

Lemma field_d z rest :
  1 ≤ z ≤ 31 → head (re_d (pad2 z +:+ rest)) = Some (pad2 z, rest) ∧ int (pad2 z) = z.
Proof. intros Hz. by_value z 32 32%nat. Qed.

Lemma field_H z rest :
  0 ≤ z ≤ 23 → head (re_H (pad2 z +:+ rest)) = Some (pad2 z, rest) ∧ int (pad2 z) = z.
Proof. intros Hz. by_value z 24 24%nat. Qed.

Lemma field_M z rest :
  0 ≤ z ≤ 59 → head (re_M (pad2 z +:+ rest)) = Some (pad2 z, rest) ∧ int (pad2 z) = z.
Proof. intros Hz. by_value z 60 60%nat. Qed.

Lemma field_S z rest :
  0 ≤ z ≤ 59 → head (re_S (pad2 z +:+ rest)) = Some (pad2 z, rest) ∧ int (pad2 z) = z.
Proof. intros Hz. by_value z 60 60%nat. Qed.

Lemma valid_bounds t :
  valid t = true →
  1 ≤ year t ≤ 9999 ∧ 1 ≤ month t ≤ 12 ∧ 1 ≤ day t ≤ 31
  ∧ 0 ≤ hour t ≤ 23 ∧ 0 ≤ minute t ≤ 59 ∧ 0 ≤ second t ≤ 59.
Proof.
  unfold valid. intros H. repeat (apply andb_prop in H as [H ?]).
  repeat match goal with Hb : (_ <=? _) = true |- _ => apply Z.leb_le in Hb end.
  assert (days_in_month (year t) (month t) ≤ 31).
  { unfold days_in_month. repeat case_match; lia. }
  lia.
Qed.

Lemma format_regex_log_stamp t :
  valid t = true →
  head (format_regex (log_stamp t))
  = Some ((pad4 (year t), pad2 (month t), pad2 (day t),
           pad2 (hour t), pad2 (minute t), pad2 (second t)), "").
Proof.
  intros (Hy & Hm & Hd & HH & HM & HS)%valid_bounds.
  unfold format_regex, log_stamp.
  eapply head_seq; [apply head_re_Y|]. cbv beta.
  eapply head_seq; [apply head_lit|]. cbv beta.
  eapply head_seq; [by apply field_m|]. cbv beta.
  eapply head_seq; [apply head_lit|]. cbv beta.
  eapply head_seq; [by apply field_d|]. cbv beta.
  eapply head_seq;
    [apply head_spaces, negb_true_iff;
     by apply (digit_char_prop (fun c => negb (Str.isspace c)))|].
  cbv beta.
  eapply head_seq; [by apply (field_H (hour t))|]. cbv beta.
  eapply head_seq; [apply head_lit|]. cbv beta.
  eapply head_seq; [by apply (field_M (minute t))|]. cbv beta.
  eapply head_seq; [apply head_lit|]. cbv beta.
  eapply head_seq; [by apply (field_S (second t) "")|]. done.
Qed.

Lemma strptime_log_stamp t :
  valid t = true → Strptime.strptime (log_stamp t) = Some t.
Proof.
  intros Hv. pose proof (format_regex_log_stamp t Hv) as Hh.
  pose proof (valid_bounds t Hv) as (Hy & Hm & Hd & HH & HM & HS).
  unfold Strptime.strptime.
  destruct (format_regex (log_stamp t)) as [|[g rest] tl]; [done|].
  injection Hh as -> ->. unfold of_groups.
  rewrite int_pad4 by lia.
  rewrite (proj2 (field_m _ "" Hm)), (proj2 (field_d _ "" Hd)),
    (proj2 (field_H _ "" HH)), (proj2 (field_M _ "" HM)), (proj2 (field_S _ "" HS)).
  destruct t; simpl in *. by rewrite Hv.
Qed.

End StampRoundTrip.

Section Occurs.

Implicit Types (s sub A B : string) (c : ascii).

Lemma find_from_occurs sub s i :
  0 ≤ i → negb (Str.find_from sub s i =? -1) = occurs sub s.
Proof.
  revert i. induction s as [|c s IH]; intros i Hi; cbn [Str.find_from occurs].
  - destruct (Str.startswith sub ""); simpl; [|done].
    apply negb_true_iff, Z.eqb_neq. lia.
  - destruct (Str.startswith sub (String c s)); simpl.
    + apply negb_true_iff, Z.eqb_neq. lia.
    + apply IH. lia.
Qed.

Lemma find_occurs s sub : negb (Str.find s sub =? -1) = occurs sub s.
Proof. by apply find_from_occurs. Qed.

Lemma startswith_refl_app s r : Str.startswith s (s +:+ r) = true.
Proof.
  induction s as [|c s IH]; [done|]. rewrite app_cons. simpl.
  by rewrite Ascii.eqb_refl.
Qed.

Lemma occurs_app A sub B : occurs sub (A +:+ sub +:+ B) = true.
Proof.
  induction A as [|c A IH].
  - rewrite app_nil_l. destruct (sub +:+ B) eqn:E; cbn [occurs];
      rewrite <- E, startswith_refl_app; done.
  - rewrite app_cons. cbn [occurs]. rewrite IH. apply orb_true_r.
Qed.

Lemma startswith_sep sub A B c :
  count_char c sub = O →
  Str.startswith sub (A +:+ String c B) = Str.startswith sub A.
Proof.
  revert A. induction sub as [|a sub IH]; intros A Hc; [by destruct A|].
  cbn [count_char] in Hc. destruct (Ascii.eqb c a) eqn:E; [done|].
  destruct A as [|x A].
  - rewrite app_nil_l. simpl. by rewrite Ascii.eqb_sym, E.
  - rewrite app_cons. simpl. destruct (Ascii.eqb a x); [by apply IH | done].
Qed.

(** A text that does not hold the character [c] occurs on one side of
    it. *)
Lemma occurs_sep sub A B c :
  sub ≠ "" → count_char c sub = O →
  occurs sub (A +:+ String c B) = occurs sub A || occurs sub B.
Proof.
  intros Hne Hc. induction A as [|x A IH].
  - rewrite app_nil_l. cbn [occurs].
    pose proof (startswith_sep sub "" B c Hc) as H. rewrite app_nil_l in H. rewrite H.
    destruct sub; [done|]. done.
  - rewrite app_cons. cbn [occurs]. rewrite IH, <- app_cons, startswith_sep by done.
    by rewrite orb_assoc.
Qed.

Lemma occurs_none c0 sub s :
  sforall (fun a => negb (Ascii.eqb c0 a)) s = true → occurs (String c0 sub) s = false.
Proof.
  induction s as [|c s IH]; [done|]. simpl.
  intros [Hc Hs]%andb_prop. apply negb_true_iff in Hc. rewrite Hc. by apply IH.
Qed.

Lemma sforall_count0 c s :
  sforall (fun a => negb (Ascii.eqb c a)) s = true → count_char c s = O.
Proof.
  induction s as [|a s IH]; [done|]. simpl.
  intros [Hc Hs]%andb_prop. apply negb_true_iff in Hc. rewrite Hc. by apply IH.
Qed.

Lemma count0_sforall c s :
  count_char c s = O → sforall (fun a => negb (Ascii.eqb c a)) s = true.
Proof.
  induction s as [|a s IH]; [done|]. cbn [count_char sforall].
  destruct (Ascii.eqb c a); [done|]. apply IH.
Qed.

Lemma count_char_app c s r : count_char c (s +:+ r) = (count_char c s + count_char c r)%nat.
Proof.
  induction s as [|a s IH]; [done|]. rewrite app_cons. cbn [count_char].
  destruct (Ascii.eqb c a); lia.
Qed.

End Occurs.

Section Splitting.

Implicit Types (s a b cur p r : string) (c : ascii).

Lemma split_colon_app cur a b :
  count_char ":" a = O →
  Str.split_aux ":" 0 cur (a +:+ String ":" b)
  = (Str.rev cur +:+ a) :: Str.split_aux ":" 0 "" b.
Proof.
  revert cur. induction a as [|x a IH]; intros cur Hc.
  - rewrite app_nil_l, app_nil_r. done.
  - cbn [count_char] in Hc. destruct (Ascii.eqb ":" x) eqn:E; [done|].
    rewrite app_cons. cbn [Str.split_aux Str.startswith]. rewrite E.
    rewrite (IH (String x cur) Hc), rev_cons, app_assoc. done.
Qed.

Lemma split_first c0 sep cur p r :
  sforall (fun y => negb (Ascii.eqb c0 y)) p = true →
  ∃ rest, Str.split_aux (String c0 sep) 0 cur (p +:+ String c0 sep +:+ r)
          = (Str.rev cur +:+ p) :: rest.
Proof.
  revert cur. induction p as [|x p IH]; intros cur Hp.
  - rewrite app_nil_l, app_nil_r.
    pose proof (startswith_refl_app (String c0 sep) r) as Hs.
    rewrite app_cons in *. cbn [Str.split_aux]. rewrite Hs. by eexists.
  - simpl in Hp. apply andb_prop in Hp as [Hx Hp]. apply negb_true_iff in Hx.
    rewrite app_cons. cbn [Str.split_aux Str.startswith]. rewrite Hx.
    destruct (IH (String x cur) Hp) as [rest ->].
    exists rest. by rewrite rev_cons, app_assoc.
Qed.

Lemma rstrip_app_space s : Str.rstrip (s +:+ " ") = Str.rstrip s.
Proof.
  induction s as [|c s IH]; [done|]. rewrite app_cons. cbn [Str.rstrip].
  by rewrite IH.
Qed.

Lemma rstrip_snoc s z :
  Str.isspace z = false → Str.rstrip (s +:+ String z "") = s +:+ String z "".
Proof.
  intros Hz. induction s as [|c s IH].
  - rewrite app_nil_l. simpl. by rewrite Hz.
  - rewrite app_cons. cbn [Str.rstrip]. rewrite IH.
    destruct s; [rewrite app_nil_l | rewrite app_cons]; done.
Qed.

Lemma lines_aux_app cur a rest :
  count_char "010" a = O →
  Str.lines_aux cur (a +:+ String "010" rest)
  = (Str.rev cur +:+ a +:+ String "010" "") :: Str.lines_aux "" rest.
Proof.
  revert cur. induction a as [|x a IH]; intros cur Hc.
  - rewrite !app_nil_l. cbn [Str.lines_aux]. simpl Ascii.eqb. cbv iota.
    by rewrite rev_cons.
  - cbn [count_char] in Hc. destruct (Ascii.eqb "010" x) eqn:E; [done|].
    rewrite app_cons. cbn [Str.lines_aux]. rewrite Ascii.eqb_sym, E.
    rewrite (IH (String x cur) Hc), rev_cons, !app_assoc. done.
Qed.

End Splitting.

Section LogLines.

Implicit Types (t : datetime) (level X msg sub : string) (P : ascii → bool).

Local Abbreviation digits := ["0"; "1"; "2"; "3"; "4"; "5"; "6"; "7"; "8"; "9"]%char.

Lemma markers_occur line :
  has_start_marker line
  = occurs START_MARKER_MULTIPART line || occurs START_MARKER_UNCONDITIONAL line
  ∧ has_end_marker line = occurs END_MARKER line.
Proof. unfold has_start_marker, has_end_marker. by rewrite !find_occurs. Qed.

(** The four fields of a line in front of its message. *)
Lemma log_line_fields t level X msg :
  log_line t level X msg
  = (pad4 (year t) +:+ "/" +:+ pad2 (month t) +:+ "/" +:+ pad2 (day t) +:+ " "
     +:+ pad2 (hour t))
    +:+ String ":" (pad2 (minute t)
    +:+ String ":" ((pad2 (second t) +:+ " " +:+ level)
    +:+ String ":" (String " " X
    +:+ String ":" (" " +:+ msg +:+ "
")))).
Proof. unfold log_line, log_stamp. rewrite !app_assoc. reflexivity. Qed.

Lemma sforall_date_hour P t :
  forallb P digits = true → P "/"%char = true → P " "%char = true →
  sforall P (pad4 (year t) +:+ "/" +:+ pad2 (month t) +:+ "/" +:+ pad2 (day t) +:+ " "
             +:+ pad2 (hour t)) = true.
Proof.
  intros Hd H1 H2. rewrite !sforall_app, sforall_pad4, !sforall_pad2 by done.
  simpl. by rewrite H1, H2.
Qed.

Lemma sforall_second_level P t level :
  forallb P digits = true → P " "%char = true → sforall P level = true →
  sforall P (pad2 (second t) +:+ " " +:+ level) = true.
Proof.
  intros Hd H1 H2. rewrite !sforall_app, sforall_pad2 by done.
  simpl. by rewrite H1, H2.
Qed.

Lemma sforall_log_stamp P t :
  forallb P digits = true → P "/"%char = true → P " "%char = true → P ":"%char = true →
  sforall P (log_stamp t) = true.
Proof.
  intros Hd H1 H2 H3. unfold log_stamp.
  rewrite !sforall_app, sforall_pad4, !sforall_pad2 by done.
  simpl. by rewrite H1, H2, H3.
Qed.

Lemma line_fname_log_line t level X msg :
  count_char ":" level = O → count_char ":" X = O →
  line_fname (log_line t level X msg) = inr (Str.strip X).
Proof.
  intros Hl HX. unfold line_fname, Str.split. rewrite log_line_fields.
  rewrite split_colon_app by (by apply sforall_count0, sforall_date_hour).
  rewrite split_colon_app by (by apply sforall_count0, sforall_pad2).
  rewrite split_colon_app
    by (apply sforall_count0, sforall_second_level; [done | done | by apply count0_sforall]).
  rewrite split_colon_app by (cbn [count_char]; by rewrite HX).
  reflexivity.
Qed.

Lemma strip_log_stamp_space t : Str.strip (log_stamp t +:+ " ") = log_stamp t.
Proof.
  unfold Str.strip.
  assert (Str.lstrip (log_stamp t +:+ " ") = log_stamp t +:+ " ") as ->.
  { unfold log_stamp, pad4. rewrite !app_cons. cbn [Str.lstrip].
    by rewrite (proj1 (negb_true_iff _)
                  (digit_char_prop (fun c => negb (Str.isspace c)) (year t / 1000) eq_refl)). }
  rewrite rstrip_app_space.
  assert (log_stamp t
          = (pad4 (year t) +:+ "/" +:+ pad2 (month t) +:+ "/" +:+ pad2 (day t) +:+ " "
             +:+ pad2 (hour t) +:+ ":" +:+ pad2 (minute t) +:+ ":"
             +:+ String (digit_char (second t / 10)) "")
            +:+ String (digit_char (second t)) "") as ->.
  { unfold log_stamp. rewrite !app_assoc. reflexivity. }
  apply rstrip_snoc, negb_true_iff.
  by apply (digit_char_prop (fun c => negb (Str.isspace c))).
Qed.

(** The timestamp is read back before a level tag that starts with a
    letter. *)
Lemma line_stamp_log_line t c0 tag pad X msg :
  Strptime.valid t = true →
  forallb (fun a => negb (Ascii.eqb c0 a)) digits = true →
  negb (Ascii.eqb c0 "/") = true → negb (Ascii.eqb c0 " ") = true →
  negb (Ascii.eqb c0 ":") = true →
  line_stamp (String c0 tag) (log_line t (String c0 tag +:+ pad) X msg) = inr t.
Proof.
  intros Hv Hd H1 H2 H3. unfold line_stamp, Str.split.
  assert (log_line t (String c0 tag +:+ pad) X msg
          = (log_stamp t +:+ " ") +:+ String c0 tag
            +:+ (pad +:+ ": " +:+ X +:+ ": " +:+ msg +:+ "
")) as ->.
  { unfold log_line. by rewrite !app_assoc. }
  destruct (split_first c0 tag "" (log_stamp t +:+ " ")
              (pad +:+ ": " +:+ X +:+ ": " +:+ msg +:+ "
")) as [rest ->].
  { rewrite sforall_app, sforall_log_stamp by done. simpl. by rewrite H2. }
  assert (Str.getitem ((Str.rev "" +:+ (log_stamp t +:+ " ")) :: rest) 0
          = inr (log_stamp t +:+ " ")) as -> by reflexivity.
  cbn [rbind]. rewrite strip_log_stamp_space.
  unfold strptime. by rewrite strptime_log_stamp.
Qed.

(** A text without colon that starts with a letter occurs on a line only
    in the name or in the message. *)
Lemma occurs_log_line c0 sub t level X msg :
  count_char ":" (String c0 sub) = O →
  forallb (fun a => negb (Ascii.eqb c0 a)) digits = true →
  negb (Ascii.eqb c0 "/") = true → negb (Ascii.eqb c0 " ") = true →
  sforall (fun a => negb (Ascii.eqb c0 a)) level = true →
  occurs (String c0 sub) (log_line t level X msg)
  = occurs (String c0 sub) X || occurs (String c0 sub) (" " +:+ msg +:+ "
").
Proof.
  intros Hc Hd H1 H2 Hl. rewrite log_line_fields.
  rewrite !occurs_sep by done.
  rewrite (occurs_none c0 sub (pad4 _ +:+ _)) by by apply sforall_date_hour.
  rewrite (occurs_none c0 sub (pad2 (minute t))) by by apply sforall_pad2.
  rewrite (occurs_none c0 sub (pad2 (second t) +:+ _)) by by apply sforall_second_level.
  cbn [orb]. f_equal. cbn [occurs Str.startswith].
  apply negb_true_iff in H2. by rewrite H2.
Qed.

Lemma plain_name_inv X :
  plain_name X = true →
  count_char ":" X = O ∧ count_char "010" X = O ∧ Str.strip X = X
  ∧ occurs START_MARKER_MULTIPART X = false
  ∧ occurs START_MARKER_UNCONDITIONAL X = false
  ∧ occurs END_MARKER X = false.
Proof.
  unfold plain_name, has_marker.
  intros [[[[H1%Nat.eqb_eq H2%Nat.eqb_eq]%andb_prop _]%andb_prop
            H3%String.eqb_eq]%andb_prop
           [H4 H5]%negb_true_iff%orb_false_elim]%andb_prop.
  destruct (markers_occur X) as [Hs He]. rewrite Hs in H4. rewrite He in H5.
  apply orb_false_elim in H4 as [? ?]. done.
Qed.

Lemma plain_name_no_cr X : plain_name X = true → count_char "013" X = O.
Proof.
  unfold plain_name.
  by intros [[[_ H%Nat.eqb_eq]%andb_prop _]%andb_prop _]%andb_prop.
Qed.

Lemma start_line_markers t X :
  plain_name X = true →
  has_start_marker (start_line t X) = true ∧ has_end_marker (start_line t X) = false.
Proof.
  intros (_ & _ & _ & _ & _ & HE)%plain_name_inv.
  destruct (markers_occur (start_line t X)) as [-> ->]. split.
  - apply orb_true_iff. right. unfold start_line, START_MARKER_UNCONDITIONAL.
    rewrite occurs_log_line by done. apply orb_true_r.
  - unfold start_line, END_MARKER. rewrite occurs_log_line by done.
    unfold END_MARKER in HE. by rewrite HE.
Qed.

End LogLines.

Section LogLines2.

Implicit Types (t : datetime) (X : string) (d : Dict.t).

Lemma end_line_markers t X :
  plain_name X = true →
  has_start_marker (end_line t X) = false ∧ has_end_marker (end_line t X) = true.
Proof.
  intros (_ & _ & _ & H1 & H2 & _)%plain_name_inv.
  destruct (markers_occur (end_line t X)) as [-> ->]. split.
  - unfold end_line, START_MARKER_MULTIPART, START_MARKER_UNCONDITIONAL in *.
    rewrite !occurs_log_line by done. by rewrite H1, H2.
  - unfold end_line, END_MARKER. rewrite occurs_log_line by done. apply orb_true_r.
Qed.

(** What the loop does with the two lines of a transfer. *)
Lemma body_start_line d t X :
  Strptime.valid t = true → plain_name X = true →
  body d (start_line t X)
  = inr (Dict.set d X (set_start_time (Dict.get d X (new_dto X "rclone")) t)).
Proof.
  intros Hv HX. destruct (start_line_markers t X HX) as [Hs He].
  destruct (plain_name_inv X HX) as (Hc & _ & Hstrip & _).
  unfold body, on_start. rewrite Hs, He. unfold start_line.
  rewrite line_fname_log_line by done. rewrite Hstrip.
  rewrite (line_stamp_log_line t "D" "EBUG" " " X) by done. done.
Qed.

Lemma body_end_line d t X :
  Strptime.valid t = true → plain_name X = true →
  body d (end_line t X)
  = inr (Dict.set d X (set_end_time (Dict.get d X (new_dto X "rclone")) t)).
Proof.
  intros Hv HX. destruct (end_line_markers t X HX) as [Hs He].
  destruct (plain_name_inv X HX) as (Hc & _ & Hstrip & _).
  unfold body, on_end. rewrite Hs, He. unfold end_line.
  rewrite line_fname_log_line by done. rewrite Hstrip.
  rewrite (line_stamp_log_line t "I" "NFO" "  " X) by done. done.
Qed.

Lemma lines_log_line t level X msg rest :
  count_char "010" level = O → count_char "010" X = O → count_char "010" msg = O →
  Str.lines (log_line t level X msg +:+ rest)
  = log_line t level X msg :: Str.lines rest.
Proof.
  intros Hl HX Hm. unfold Str.lines.
  assert (log_line t level X msg +:+ rest
          = (log_stamp t +:+ " " +:+ level +:+ ": " +:+ X +:+ ": " +:+ msg)
            +:+ String "010" rest) as ->.
  { unfold log_line. rewrite !app_assoc. reflexivity. }
  rewrite lines_aux_app.
  - f_equal. unfold log_line. rewrite !app_assoc. reflexivity.
  - rewrite !count_char_app, Hl, HX, Hm.
    rewrite (sforall_count0 "010" (log_stamp t)); [done|].
    by apply sforall_log_stamp.
Qed.

End LogLines2.

Section DictAppend.

Implicit Types (d : Dict.t) (X Y : string) (v : TransferDTO).

Lemma set_new d X v : Dict.lookup d X = None → Dict.set d X v = d ++ [(X, v)].
Proof.
  induction d as [|[k u] d IH]; simpl; [done|].
  destruct (String.eqb k X); [done|]. intros H. by rewrite IH.
Qed.

Lemma lookup_snoc d X Y v :
  Dict.lookup (d ++ [(Y, v)]) X
  = match Dict.lookup d X with
    | Some u => Some u
    | None => if String.eqb Y X then Some v else None
    end.
Proof.
  induction d as [|[k u] d IH]; simpl; [done|].
  destruct (String.eqb k X); [done | apply IH].
Qed.

Lemma set_last d X v v' :
  Dict.lookup d X = None → Dict.set (d ++ [(X, v)]) X v' = d ++ [(X, v')].
Proof.
  induction d as [|[k u] d IH]; simpl.
  - by rewrite String.eqb_refl.
  - destruct (String.eqb k X); [done|]. intros H. by rewrite IH.
Qed.

End DictAppend.

Section Transfers.

Implicit Types (d : Dict.t) (X : string) (t : datetime)
  (l : list (string * datetime * datetime)).

Lemma scan_transfer d X t1 t2 rest :
  Strptime.valid t1 = true → Strptime.valid t2 = true → plain_name X = true →
  Dict.lookup d X = None →
  scan d (start_line t1 X :: end_line t2 X :: rest)
  = scan (d ++ [(X, mk_dto X "rclone" (Some t1) (Some t2))]) rest.
Proof.
  intros H1 H2 HX Hd. cbn [scan].
  rewrite body_start_line by done. cbn [rbind].
  rewrite body_end_line by done. cbn [rbind]. f_equal.
  unfold Dict.get. rewrite Hd. rewrite (set_new d X) by done.
  rewrite lookup_snoc, Hd, String.eqb_refl. by apply set_last.
Qed.

Lemma lines_transfer X t1 t2 rest :
  plain_name X = true →
  Str.lines (start_line t1 X +:+ end_line t2 X +:+ rest)
  = start_line t1 X :: end_line t2 X :: Str.lines rest.
Proof.
  intros (_ & HX & _)%plain_name_inv. unfold start_line, end_line.
  by rewrite !lines_log_line.
Qed.

Lemma scan_transfer_log d l :
  Forall (fun '(X, t1, t2) =>
            plain_name X = true ∧ Strptime.valid t1 = true ∧ Strptime.valid t2 = true) l →
  NoDup (map (fun x => x.1.1) l) →
  (∀ X, X ∈ map (fun x => x.1.1) l → Dict.lookup d X = None) →
  scan d (Str.lines (transfer_log l))
  = inr (d ++ map (fun '(X, t1, t2) => (X, mk_dto X "rclone" (Some t1) (Some t2))) l).
Proof.
  revert d. induction l as [|[[X t1] t2] l IH]; intros d Hok Hnd Hd.
  - simpl. by rewrite List.app_nil_r.
  - apply Forall_cons in Hok as [(HX & H1 & H2) Hok].
    cbn [map fst] in Hnd, Hd. apply NoDup_cons in Hnd as [HXl Hnd].
    cbn [transfer_log]. rewrite lines_transfer by done.
    rewrite scan_transfer; [|done..|apply Hd, list_elem_of_here].
    rewrite IH; [|done..|].
    + cbn [map]. by rewrite <- List.app_assoc.
    + intros Y HY. rewrite lookup_snoc, Hd by by apply list_elem_of_further.
      destruct (String.eqb X Y) eqn:E; [|done].
      apply String.eqb_eq in E as ->. done.
Qed.

End Transfers.

(** X13: the timestamp rclone writes is read back exactly.  For every date
    and time of the calendar, and whatever the name and the message, the
    text before DEBUG on a DEBUG line and the text before INFO on an INFO
    line parse to that date and time. *)
Theorem stamp_of_line_read_back (t : datetime) (X msg : string) :
  Strptime.valid t = true →
  line_stamp "DEBUG" (log_line t "DEBUG " X msg) = inr t
  ∧ line_stamp "INFO" (log_line t "INFO  " X msg) = inr t.
Proof.
  intros Hv. split.
  - by apply (line_stamp_log_line t "D" "EBUG" " ").
  - by apply (line_stamp_log_line t "I" "NFO" "  ").
Qed.

Lemma stamp_of_line_read_back_witness :
  line_stamp "DEBUG" (log_line (mk_datetime 2024 2 29 23 59 59) "DEBUG " "a: b" "INFO DEBUG")
  = inr (mk_datetime 2024 2 29 23 59 59)
  ∧ line_stamp "INFO" (log_line (mk_datetime 2024 2 29 23 59 59) "INFO  " "a: b" "INFO DEBUG")
    = inr (mk_datetime 2024 2 29 23 59 59).
Proof.
  apply (stamp_of_line_read_back (mk_datetime 2024 2 29 23 59 59) "a: b" "INFO DEBUG").
  reflexivity.
Defined.

Section NoCarriageReturn.

Lemma universal_newlines_id (s : string) :
  count_char "013" s = O → universal_newlines s = s.
Proof.
  induction s as [|c s IH]; [done|]. cbn [count_char universal_newlines].
  destruct (Ascii.eqb "013" c) eqn:E.
  - done.
  - rewrite Ascii.eqb_sym, E. intros H. by rewrite IH.
Qed.

Lemma count_cr_log_line t level X msg :
  count_char "013" level = O → count_char "013" X = O → count_char "013" msg = O →
  count_char "013" (log_line t level X msg) = O.
Proof.
  intros Hl HX Hm. unfold log_line.
  rewrite !count_char_app, Hl, HX, Hm.
  rewrite (sforall_count0 "013" (log_stamp t)); [done|].
  by apply sforall_log_stamp.
Qed.

Lemma count_cr_transfer_log (l : list (string * datetime * datetime)) :
  Forall (fun '(X, t1, t2) =>
            plain_name X = true ∧ Strptime.valid t1 = true ∧ Strptime.valid t2 = true) l →
  count_char "013" (transfer_log l) = O.
Proof.
  induction 1 as [|[[X t1] t2] l (HX%plain_name_no_cr & _) _ IH]; [done|].
  cbn [transfer_log]. rewrite !count_char_app, IH.
  unfold start_line, end_line. by rewrite !count_cr_log_line.
Qed.

End NoCarriageReturn.

(** X14: the log of a run is read back in full.  When rclone copies objects
    with distinct plain names one after the other and writes for each its
    start line and its completion line, with times of the calendar,
    [parse_log] returns one complete record per object, in the order of the
    log, with exactly the name and the two times that were written.  This
    holds for the log given as a stream and for the log given as the path
    of a file that holds it. *)
Theorem transfer_log_read_back fs path name pos
    (l : list (string * datetime * datetime)) :
  Forall (fun '(X, t1, t2) =>
            plain_name X = true ∧ Strptime.valid t1 = true ∧ Strptime.valid t2 = true) l →
  NoDup (map (fun x => x.1.1) l) →
  parse_log fs (inr (mk_textio name (transfer_log l) pos)) = inr (transfer_records l)
  ∧ (fs !! path = Some (transfer_log l) →
     parse_log fs (inl path) = inr (transfer_records l)).
Proof.
  intros Hok Hnd.
  assert (∀ nm ps, parse_log fs (inr (mk_textio nm (transfer_log l) ps))
                   = inr (transfer_records l)) as Hstream.
  { intros nm ps. rewrite parse_log_stream.
    unfold log_lines, readlines, seek. cbn [text position Str.drop].
    rewrite scan_transfer_log by done. cbn [rbind]. unfold ok. f_equal.
    unfold Dict.values, transfer_records. simpl. rewrite map_map.
    apply map_ext. by intros [[X t1] t2]. }
  split; [apply Hstream|].
  intros Hfile. rewrite (parse_log_path fs path (transfer_log l) Hfile).
  rewrite universal_newlines_id by by apply count_cr_transfer_log.
  apply Hstream.
Qed.

Lemma transfer_log_read_back_witness :
  parse_log (<["run.log" := transfer_log
      [("dir/a.bin", at_10_00_00, at_10_05_00); ("b.bin", at_10_00_07, at_10_06_30)]]> ∅)
    (inr (stream (transfer_log
      [("dir/a.bin", at_10_00_00, at_10_05_00); ("b.bin", at_10_00_07, at_10_06_30)])))
  = inr (transfer_records
      [("dir/a.bin", at_10_00_00, at_10_05_00); ("b.bin", at_10_00_07, at_10_06_30)])
  ∧ ((<["run.log" := transfer_log
        [("dir/a.bin", at_10_00_00, at_10_05_00); ("b.bin", at_10_00_07, at_10_06_30)]]> ∅
      : gmap string string) !! "run.log"
     = Some (transfer_log
        [("dir/a.bin", at_10_00_00, at_10_05_00); ("b.bin", at_10_00_07, at_10_06_30)]) →
     parse_log (<["run.log" := transfer_log
        [("dir/a.bin", at_10_00_00, at_10_05_00); ("b.bin", at_10_00_07, at_10_06_30)]]> ∅)
       (inl "run.log")
     = inr (transfer_records
        [("dir/a.bin", at_10_00_00, at_10_05_00); ("b.bin", at_10_00_07, at_10_06_30)])).
Proof.
  apply (transfer_log_read_back
    (<["run.log" := transfer_log
        [("dir/a.bin", at_10_00_00, at_10_05_00); ("b.bin", at_10_00_07, at_10_06_30)]]> ∅)
    "run.log" "rclone.log" 0%nat
    [("dir/a.bin", at_10_00_00, at_10_05_00); ("b.bin", at_10_00_07, at_10_06_30)]).
  - repeat constructor.
  - repeat constructor; vm_compute; set_solver.
Defined.
